(** * The collection run orchestrator of the agent ([checks/collector.py])

    A shallow embedding of the [Collector] class: its constructor, [stop],
    [run], [_emit], [_is_first_run], [_build_payload], [_get_metadata] and
    [_should_send_metadata], followed by the properties of the collection
    cycle that are established on it.

    Conventions of the embedding.
    - Python values that travel through the payload are elements of [value]
      (None, booleans, integers, strings, lists, dictionaries with string
      keys).  A dictionary is followed through its entries under string
      keys, the only ones the collector reads: an entry that [update] writes
      under another hashable key is not tracked.  Clock readings
      ([time.time()], [Timer.step()], [time.clock()]) are exact integers in
      a fixed unit.
    - A call that may raise returns a [result]; [exn] stands for the
      exceptions derived from [Exception], the ones [except Exception]
      catches.
    - The collector object [self] and what the cycle does to the outside
      (log records, payloads sent to emitters, persisted statuses, [stop()]
      requests forwarded to checks) are threaded through a state monad [M].
    - The checks, emitters and other collaborators live outside this file of
      the agent.  Each is a record of its methods; the outcome of a method is
      indexed by the cycle (the value of [run_count]) in which it is called.
    - The shutdown signal is asynchronous: [stop_signal] of the environment
      says during which phases of the cycle the handler calls [stop()]. *)

From stdpp Require Import gmap strings list fin_maps.
From Stdlib Require Import ZArith Ascii.

Set Warnings "-register-all".
Open Scope Z_scope.

(** ** Python values *)

Inductive value :=
  | VNone
  | VBool (b : bool)
  | VNum (n : Z)
  | VStr (s : string)
  | VList (l : list value)
  | VDict (d : gmap string value).

Inductive exn :=
  | TypeError
  | KeyError
  | AttributeError
  | IndexError
  | ValueError
  | Failure (msg : string).

Inductive result (A : Type) :=
  | Ok (a : A)
  | Raise (e : exn).
Arguments Ok {A} a.
Arguments Raise {A} e.

(** [if v:] *)
Definition py_truthy (v : value) : bool :=
  match v with
  | VNone => false
  | VBool b => b
  | VNum n => negb (n =? 0)
  | VStr s => negb (String.eqb s "")
  | VList l => match l with [] => false | _ => true end
  | VDict d => negb (Nat.eqb (size d) 0)
  end.

(** [len(v)] *)
Definition py_len (v : value) : result nat :=
  match v with
  | VStr s => Ok (String.length s)
  | VList l => Ok (length l)
  | VDict d => Ok (size d)
  | _ => Raise TypeError
  end.

(** [v[i]] for an integer index [i >= 0] *)
Definition py_getitem (v : value) (i : nat) : result value :=
  match v with
  | VList l => match l !! i with Some x => Ok x | None => Raise IndexError end
  | VStr s =>
      match String.get i s with
      | Some c => Ok (VStr (String c EmptyString))
      | None => Raise IndexError
      end
  | VDict _ => Raise KeyError
  | _ => Raise TypeError
  end.

Fixpoint chars (s : string) : list value :=
  match s with
  | EmptyString => []
  | String c s' => VStr (String c EmptyString) :: chars s'
  end.

(** The elements [for x in v] yields (a dictionary yields its keys, in the
    order of [map_to_list]). *)
Definition py_iter (v : value) : result (list value) :=
  match v with
  | VList l => Ok l
  | VStr s => Ok (chars s)
  | VDict d => Ok (VStr <$> (map_to_list d).*1)
  | _ => Raise TypeError
  end.

(** [v.get(k)] *)
Definition py_get (v : value) (k : string) : result value :=
  match v with
  | VDict d => Ok (default VNone (d !! k))
  | _ => Raise AttributeError
  end.

(** [k in v] for a string [k] *)
Definition py_contains (k : string) (v : value) : result bool :=
  match v with
  | VDict d => Ok (bool_decide (is_Some (d !! k)))
  | VList l =>
      Ok (existsb (fun x => match x with VStr s => String.eqb k s | _ => false end) l)
  | VStr s => Ok (match String.index 0 k s with Some _ => true | None => false end)
  | _ => Raise TypeError
  end.

(** One element of the sequence form of [dict.update]: the element is
    iterated and must yield exactly two items, the key and the value (a
    list or a string of two items, or a dictionary with two keys, which
    yields its keys).  An unhashable key (a list, a dictionary) is a
    TypeError.  Dictionaries are followed through their entries under string
    keys: an entry written under another hashable key (None, a boolean, a
    number) is not tracked, and the element yields [None] here. *)
Definition py_pair (x : value) : result (option (string * value)) :=
  match py_iter x with
  | Ok [k; v] =>
      match k with
      | VStr s => Ok (Some (s, v))
      | VList _ | VDict _ => Raise TypeError
      | VNone | VBool _ | VNum _ => Ok None
      end
  | Ok _ => Raise ValueError
  | Raise e => Raise e
  end.

Fixpoint update_pairs (p : gmap string value) (l : list value)
  : result (gmap string value) :=
  match l with
  | [] => Ok p
  | x :: l' =>
      match py_pair x with
      | Ok (Some (k, v)) => update_pairs (<[k := v]> p) l'
      | Ok None => update_pairs p l'
      | Raise e => Raise e
      end
  end.

(** [p.update(v)] *)
Definition py_update (p : gmap string value) (v : value)
  : result (gmap string value) :=
  match v with
  | VDict d => Ok (d ∪ p)
  | VList l => update_pairs p l
  | VStr s => update_pairs p (chars s)
  | _ => Raise TypeError
  end.

(** [p[k]] *)
Definition py_item (p : gmap string value) (k : string) : result value :=
  match p !! k with
  | Some v => Ok v
  | None => Raise KeyError
  end.

(** ** Status records ([checks/check_status.py] keeps what it is given) *)

Record CheckStatus := mkCheckStatus {
  cs_name : string;
  cs_instance_statuses : value;
  cs_metric_count : option nat;
  cs_event_count : option nat;
  cs_init_failed_error : option value;
  cs_init_failed_traceback : option value
}.

Record EmitterStatus := mkEmitterStatus {
  es_name : string;
  es_error : option exn
}.

Record CollectorStatus := mkCollectorStatus {
  check_statuses : list CheckStatus;
  emitter_statuses : list EmitterStatus;
  status_metadata : value
}.

(** ** Collaborators *)

(** [check(agentConfig)] of a system or old-style check. *)
Definition check_fn : Type := nat → result value.

Record UnixChecks := {
  u_disk : check_fn;
  u_io : check_fn;
  u_load : check_fn;
  u_memory : check_fn;
  u_processes : check_fn;
  u_cpu : check_fn
}.

Record Win32Checks := {
  w_disk : check_fn;
  w_io : check_fn;
  w_proc : check_fn;
  w_memory : check_fn;
  w_network : check_fn;
  w_cpu : check_fn
}.

Record EventCheck := {
  key : string;
  event_check : nat → result value
}.

Record ResourcesCheck := {
  RESOURCE_KEY : string;
  resources_check : nat → result unit;
  pop_snapshots : nat → result (list value);
  get_format_version : nat → result value;
  describe_format_if_needed : nat → result value
}.

Record MetricsCheck := {
  metrics_check : nat → result value
}.

Record CheckD := {
  name : string;
  check_run : nat → result value;
  get_metrics : nat → result (list value);
  get_events : nat → result (list value)
}.

Record Emitter := {
  __name__ : string;
  emit_call : nat → gmap string value → result unit
}.

(** [CollectorMetrics.check(payload, agentConfig, collect_duration,
    emit_duration[, cpu_time])]; the last argument is absent on Windows. *)
Definition agent_metrics_fn : Type :=
  nat → gmap string value → Z → option Z → option Z → result value.

Record InitFailedInfo := {
  error : value;
  traceback : value
}.

(** [init_failed_checks_d] is the empty list after [__init__] and a
    dictionary (here in its iteration order) once [run] was given one. *)
Inductive InitFailed :=
  | InitFailedList
  | InitFailedDict (d : list (string * InitFailedInfo)).

Record ChecksD := {
  initialized_checks : list CheckD;
  init_failed_checks : list (string * InitFailedInfo)
}.

(** ** The collector object *)

Record Collector := mkCollector {
  emit_duration : option Z;
  agentConfig : gmap string value;
  os : string;
  emitters : list Emitter;
  metadata_interval : Z;
  metadata_start : Z;
  run_count : nat;
  continue_running : bool;
  metadata_cache : value;
  initialized_checks_d : list CheckD;
  init_failed_checks_d : InitFailed;
  _unix_system_checks : UnixChecks;
  _win32_system_checks : Win32Checks;
  _ganglia : check_fn;
  _dogstream : check_fn;
  _ddforwarder : check_fn;
  _agent_metrics : agent_metrics_fn;
  _metrics_checks : list MetricsCheck;
  _event_checks : list EventCheck;
  _resources_checks : list ResourcesCheck
}.

Definition set_emit_duration (x : option Z) (c : Collector) : Collector :=
  let 'mkCollector _ a2 a3 a4 a5 a6 a7 a8 a9 a10 a11 a12 a13 a14 a15 a16 a17 a18 a19 a20 := c in
  mkCollector x a2 a3 a4 a5 a6 a7 a8 a9 a10 a11 a12 a13 a14 a15 a16 a17 a18 a19 a20.

Definition set_metadata_start (x : Z) (c : Collector) : Collector :=
  let 'mkCollector a1 a2 a3 a4 a5 _ a7 a8 a9 a10 a11 a12 a13 a14 a15 a16 a17 a18 a19 a20 := c in
  mkCollector a1 a2 a3 a4 a5 x a7 a8 a9 a10 a11 a12 a13 a14 a15 a16 a17 a18 a19 a20.

Definition set_run_count (x : nat) (c : Collector) : Collector :=
  let 'mkCollector a1 a2 a3 a4 a5 a6 _ a8 a9 a10 a11 a12 a13 a14 a15 a16 a17 a18 a19 a20 := c in
  mkCollector a1 a2 a3 a4 a5 a6 x a8 a9 a10 a11 a12 a13 a14 a15 a16 a17 a18 a19 a20.

Definition set_continue_running (x : bool) (c : Collector) : Collector :=
  let 'mkCollector a1 a2 a3 a4 a5 a6 a7 _ a9 a10 a11 a12 a13 a14 a15 a16 a17 a18 a19 a20 := c in
  mkCollector a1 a2 a3 a4 a5 a6 a7 x a9 a10 a11 a12 a13 a14 a15 a16 a17 a18 a19 a20.

Definition set_metadata_cache (x : value) (c : Collector) : Collector :=
  let 'mkCollector a1 a2 a3 a4 a5 a6 a7 a8 _ a10 a11 a12 a13 a14 a15 a16 a17 a18 a19 a20 := c in
  mkCollector a1 a2 a3 a4 a5 a6 a7 a8 x a10 a11 a12 a13 a14 a15 a16 a17 a18 a19 a20.

Definition set_checks_d (cd : ChecksD) (c : Collector) : Collector :=
  let 'mkCollector a1 a2 a3 a4 a5 a6 a7 a8 a9 _ _ a12 a13 a14 a15 a16 a17 a18 a19 a20 := c in
  mkCollector a1 a2 a3 a4 a5 a6 a7 a8 a9 (initialized_checks cd)
    (InitFailedDict (init_failed_checks cd)) a12 a13 a14 a15 a16 a17 a18 a19 a20.

(** ** The outside of the collector *)

Inductive Level := DEBUG | INFO | ERROR.

Inductive LogMsg :=
  | Starting_collection_run (n : nat)
  | Unable_to_fetch_Windows_system_metrics (e : exn)
  | Running_check (check : string)
  | Error_running_check (check : string) (e : exn)
  | Error_running_emitter (emitter : string) (e : exn)
  | Error_persisting_collector_status (e : exn)
  | Finished_run (n : nat) (collect_duration emit_duration : Z)
  | First_flushes_done
  | Metadata_interval_has_passed
  | Hostnames (metadata : value) (tags : option value)
  | Registered_custom_check (module_spec : string)
  | Unable_to_load_custom_check_module (module_spec : string) (e : exn).

(** The phases of a cycle during which the shutdown handler may run. *)
Inductive Phase :=
  | DuringBuildPayload
  | DuringChecks
  | DuringCheckD (i : nat)
  | DuringInitFailed (i : nat)
  | DuringAgentMetrics
  | DuringEmitter (i : nat).

Record Env := {
  time_time : Z;
  time_time_metadata : Z;
  sys_version : string;
  get_hostname : result value;
  get_hostname_noarg : result value;
  get_uuid : result value;
  get_version : result string;
  get_system_stats : result value;
  EC2_get_metadata : result (gmap string value);
  socket_gethostname : result value;
  socket_getfqdn : result value;
  timer_step_collect : Z;
  timer_step_emit : Z;
  clock_delta : Z;
  persist : CollectorStatus → result unit;
  stop_signal : Phase → bool
}.

Record World := mkWorld {
  self : Collector;
  log : list (Level * LogMsg);
  sent : list (string * gmap string value);
  persisted : list CollectorStatus;
  stopped : list string
}.

Definition with_self (f : Collector → Collector) (w : World) : World :=
  mkWorld (f (self w)) (log w) (sent w) (persisted w) (stopped w).

(** ** The monad of the methods *)

Definition M (A : Type) : Type := World → result A * World.

Definition ret {A} (a : A) : M A := fun w => (Ok a, w).

Definition raise {A} (e : exn) : M A := fun w => (Raise e, w).

Definition bind {A B} (m : M A) (f : A → M B) : M B :=
  fun w =>
    match m w with
    | (Ok a, w') => f a w'
    | (Raise e, w') => (Raise e, w')
    end.

Definition lift {A} (r : result A) : M A := fun w => (r, w).

(** [try: m except Exception, e: h e] *)
Definition try_except {A} (m : M A) (h : exn → M A) : M A :=
  fun w =>
    match m w with
    | (Ok a, w') => (Ok a, w')
    | (Raise e, w') => h e w'
    end.

Definition get_self : M Collector := fun w => (Ok (self w), w).

Definition modify_self (f : Collector → Collector) : M unit :=
  fun w => (Ok tt, with_self f w).

Definition log_record (l : Level) (m : LogMsg) : M unit :=
  fun w => (Ok tt, mkWorld (self w) (log w ++ [(l, m)]) (sent w) (persisted w) (stopped w)).

Definition record_sent (n : string) (p : gmap string value) : M unit :=
  fun w => (Ok tt, mkWorld (self w) (log w) (sent w ++ [(n, p)]) (persisted w) (stopped w)).

Definition record_persisted (s : CollectorStatus) : M unit :=
  fun w => (Ok tt, mkWorld (self w) (log w) (sent w) (persisted w ++ [s]) (stopped w)).

#[global] Instance M_ret : MRet M := @ret.
#[global] Instance M_bind : MBind M := fun A B f m => bind m f.

(** ** [Collector.stop] *)

Definition stop (w : World) : World :=
  mkWorld (set_continue_running false (self w)) (log w) (sent w) (persisted w)
    (stopped w ++ (name <$> initialized_checks_d (self w))).

(** The shutdown handler runs during phase [ph] when the environment says so. *)
Definition interrupt (env : Env) (ph : Phase) : M unit :=
  fun w => (Ok tt, if stop_signal env ph then stop w else w).

(** ** [Collector.__init__] *)

Definition is_space (c : ascii) : bool :=
  let n := nat_of_ascii c in
  (Nat.eqb n 32 || (Nat.leb 9 n && Nat.leb n 13))%bool.

Fixpoint lstrip (l : list ascii) : list ascii :=
  match l with
  | c :: l' => if is_space c then lstrip l' else l
  | [] => []
  end.

(** [s.strip()] *)
Definition strip (s : string) : string :=
  String.string_of_list_ascii
    (rev (lstrip (rev (lstrip (String.list_ascii_of_string s))))).

(** [s.split(',')] *)
Fixpoint split_comma (s : string) : list string :=
  match s with
  | EmptyString => [EmptyString]
  | String c s' =>
      if Ascii.eqb c "," then EmptyString :: split_comma s'
      else match split_comma s' with
           | x :: xs => String c x :: xs
           | [] => [String c EmptyString]
           end
  end.

Definition digit (c : ascii) : option Z :=
  let n := nat_of_ascii c in
  if (Nat.leb 48 n && Nat.leb n 57)%bool then Some (Z.of_nat (n - 48)) else None.

Fixpoint digits (acc : Z) (l : list ascii) : option Z :=
  match l with
  | [] => Some acc
  | c :: l' =>
      match digit c with
      | Some d => digits (10 * acc + d) l'
      | None => None
      end
  end.

(** [int(s)] for a string: a decimal literal with an optional sign, blanks
    around it allowed. *)
Definition int_of_string (s : string) : result Z :=
  let l := String.list_ascii_of_string (strip s) in
  let '(neg, l') :=
    match l with
    | c :: r => if Ascii.eqb c "-" then (true, r)
                else if Ascii.eqb c "+" then (false, r) else (false, l)
    | [] => (false, l)
    end in
  match l' with
  | [] => Raise ValueError
  | _ => match digits 0 l' with
         | Some n => Ok (if neg then - n else n)
         | None => Raise ValueError
         end
  end.

(** [int(v)] *)
Definition py_int (v : value) : result Z :=
  match v with
  | VNum n => Ok n
  | VBool b => Ok (if b then 1 else 0)
  | VStr s => int_of_string s
  | _ => Raise TypeError
  end.

(** What the constructor obtains from the other modules of the agent: the
    host's OS name, the clock, the check objects it instantiates and the
    loader of custom check modules. *)
Record Modules := {
  get_os : string;
  init_time : Z;
  unix_checks : UnixChecks;
  win32_checks : Win32Checks;
  Ganglia : check_fn;
  Dogstreams_init : check_fn;
  DdForwarder : check_fn;
  CollectorMetrics : agent_metrics_fn;
  modules_load : string → result MetricsCheck;
  Nagios : EventCheck;
  ResProcesses : ResourcesCheck
}.

Fixpoint load_custom_checks (ext : Modules) (specs : list string)
  : list MetricsCheck * list (Level * LogMsg) :=
  match specs with
  | [] => ([], [])
  | module_spec :: rest =>
      let '(cs, ls) := load_custom_checks ext rest in
      if Nat.eqb (String.length module_spec) 0 then (cs, ls)
      else match modules_load ext module_spec with
           | Ok c => (c :: cs, (INFO, Registered_custom_check module_spec) :: ls)
           | Raise e =>
               (cs, (ERROR, Unable_to_load_custom_check_module module_spec e) :: ls)
           end
  end.

Definition __init__ (ext : Modules) (agentConfig : gmap string value)
    (emitters : list Emitter) (systemStats : value) : result World :=
  let agentConfig := <["system_stats" := systemStats]> agentConfig in
  match py_int (default (VNum (10 * 60)) (agentConfig !! "metadata_interval")) with
  | Raise e => Raise e
  | Ok interval =>
      match default (VStr "") (agentConfig !! "custom_checks") with
      | VStr custom =>
          let '(checks, records) :=
            load_custom_checks ext (strip <$> split_comma custom) in
          Ok {| self := {|
                  emit_duration := None;
                  agentConfig := agentConfig;
                  os := get_os ext;
                  emitters := emitters;
                  metadata_interval := interval;
                  metadata_start := init_time ext;
                  run_count := 0;
                  continue_running := true;
                  metadata_cache := VNone;
                  initialized_checks_d := [];
                  init_failed_checks_d := InitFailedList;
                  _unix_system_checks := unix_checks ext;
                  _win32_system_checks := win32_checks ext;
                  _ganglia := Ganglia ext;
                  _dogstream := Dogstreams_init ext;
                  _ddforwarder := DdForwarder ext;
                  _agent_metrics := CollectorMetrics ext;
                  _metrics_checks := checks;
                  _event_checks := [Nagios ext];
                  _resources_checks := [ResProcesses ext]
                |};
                log := records;
                sent := [];
                persisted := [];
                stopped := [] |}
      | _ => Raise AttributeError
      end
  end.

(** ** [_is_first_run], [_should_send_metadata], [_get_metadata] *)

Definition _is_first_run (c : Collector) : bool := Nat.leb (run_count c) 1.

Definition _should_send_metadata (env : Env) : M bool :=
  c ← get_self;
  let now := time_time_metadata env in
  if metadata_interval c <=? now - metadata_start c then
    log_record DEBUG Metadata_interval_has_passed;;
    modify_self (set_metadata_start now);;
    mret true
  else mret false.

Definition _get_metadata (env : Env) : M value :=
  c ← get_self;
  metadata ← lift (EC2_get_metadata env);
  let hostname := default VNone (metadata !! "hostname") in
  let metadata :=
    if py_truthy hostname
    then delete "hostname" (<["ec2-hostname" := hostname]> metadata)
    else metadata in
  let agent_hostname := default VNone (agentConfig c !! "hostname") in
  let metadata :=
    if py_truthy agent_hostname
    then <["agent-hostname" := agent_hostname]> metadata
    else match socket_gethostname env with
         | Ok h => <["socket-hostname" := h]> metadata
         | Raise _ => metadata
         end in
  let metadata :=
    match socket_getfqdn env with
    | Ok h => <["socket-fqdn" := h]> metadata
    | Raise _ => metadata
    end in
  h ← lift (get_hostname_noarg env);
  mret (VDict (<["hostname" := h]> metadata)).

(** ** [_build_payload] *)

Definition startup_event (api_key host : value) (now : Z) (version : string)
  : value :=
  VDict (<["api_key" := api_key]>
        (<["host" := host]>
        (<["timestamp" := VNum now]>
        (<["event_type" := VStr "Agent Startup"]>
        (<["msg_text" := VStr ("Version " +:+ version)]> ∅))))).

Definition _build_payload (env : Env) (start_event : bool)
  : M (gmap string value) :=
  c ← get_self;
  let now := time_time env in
  agentVersion ← lift (py_item (agentConfig c) "version");
  apiKey ← lift (py_item (agentConfig c) "api_key");
  internalHostname ← lift (get_hostname env);
  uuid ← lift (get_uuid env);
  let payload : gmap string value :=
    <["collection_timestamp" := VNum now]>
    (<["os" := VStr (os c)]>
    (<["python" := VStr (sys_version env)]>
    (<["agentVersion" := agentVersion]>
    (<["apiKey" := apiKey]>
    (<["events" := VDict ∅]>
    (<["metrics" := VList []]>
    (<["resources" := VDict ∅]>
    (<["internalHostname" := internalHostname]>
    (<["uuid" := uuid]> ∅))))))))) in
  (* Include system stats on first postback *)
  payload ←
    (if (start_event && _is_first_run c)%bool then
       let payload :=
         <["systemStats" := default (VDict ∅) (agentConfig c !! "system_stats")]>
           payload in
       version ← lift (get_version env);
       mret (<["events" :=
                VDict {["System" :=
                  VList [startup_event apiKey internalHostname now version]]}]>
             payload)
     else mret payload);
  (* Periodically send the host metadata. *)
  send ← (if _is_first_run c then mret true else _should_send_metadata env);
  if send : bool then
    systemStats ← lift (get_system_stats env);
    meta ← _get_metadata env;
    modify_self (set_metadata_cache meta);;
    let payload := <["meta" := meta]> (<["systemStats" := systemStats]> payload) in
    tags ← lift (py_item (agentConfig c) "tags");
    let with_tags := match tags with VNone => false | _ => true end in
    let payload := if with_tags then <["tags" := tags]> payload else payload in
    (if _is_first_run c
     then log_record INFO
            (Hostnames meta (if with_tags then Some tags else None))
     else mret tt);;
    mret payload
  else mret payload.

(** ** The check groups of [run] *)

#[global] Instance result_ret : MRet result := @Ok.
#[global] Instance result_bind : MBind result :=
  fun A B f r => match r with Ok a => f a | Raise e => Raise e end.

(** The locals of [run].  [payload] holds the entries of the dictionary
    [payload], except that its entries 'metrics' and 'events' are left out as
    long as they are bound to the very objects the locals [metrics] and
    [events] name: they appear in [payload] only once an [update] has bound
    the key to another object. *)
Record Locals := mkLocals {
  payload : gmap string value;
  metrics : list value;
  events : gmap string value
}.

(** The dictionary [payload] as Python sees it. *)
Definition payload_view (L : Locals) : gmap string value :=
  payload L ∪ {[ "metrics" := VList (metrics L) ]} ∪ {[ "events" := VDict (events L) ]}.

Definition set_payload (p : gmap string value) (L : Locals) : Locals :=
  mkLocals p (metrics L) (events L).
Definition set_metrics (m : list value) (L : Locals) : Locals :=
  mkLocals (payload L) m (events L).
Definition set_events (e : gmap string value) (L : Locals) : Locals :=
  mkLocals (payload L) (metrics L) e.

(** Win32 system checks: one [try] around the six [metrics.extend] calls. *)
Fixpoint win32_extend (n : nat) (checks : list check_fn) (metrics : list value)
  : list value * option exn :=
  match checks with
  | [] => (metrics, None)
  | check :: rest =>
      match check n ≫= py_iter with
      | Ok l => win32_extend n rest (metrics ++ l)
      | Raise e => (metrics, Some e)
      end
  end.

Definition win32_system_checks (n : nat) (w : Win32Checks) (L : Locals)
  : M Locals :=
  let '(m, failure) :=
    win32_extend n [w_disk w; w_memory w; w_cpu w; w_network w; w_io w; w_proc w]
      (metrics L) in
  match failure with
  | Some e =>
      log_record ERROR (Unable_to_fetch_Windows_system_metrics e);;
      mret (set_metrics m L)
  | None => mret (set_metrics m L)
  end.

Definition memory_fields : list (string * string) :=
  [ ("memPhysUsed", "physUsed"); ("memPhysPctUsable", "physPctUsable");
    ("memPhysFree", "physFree"); ("memPhysTotal", "physTotal");
    ("memPhysUsable", "physUsable"); ("memSwapUsed", "swapUsed");
    ("memSwapFree", "swapFree"); ("memSwapPctFree", "swapPctFree");
    ("memSwapTotal", "swapTotal"); ("memCached", "physCached");
    ("memBuffers", "physBuffers"); ("memShared", "physShared") ].

Fixpoint memory_update (memory : value) (fields : list (string * string))
    (p : gmap string value) : result (gmap string value) :=
  match fields with
  | [] => Ok p
  | (k, f) :: rest =>
      v ← py_get memory f;
      memory_update memory rest (<[k := v]> p)
  end.

(** Unix system checks: no [try] around them. *)
Definition unix_system_checks (n : nat) (sys_checks : UnixChecks)
    (p : gmap string value) : result (gmap string value) :=
  diskUsage ← u_disk sys_checks n;
  two ← (if py_truthy diskUsage
         then len ← py_len diskUsage; Ok (Nat.eqb len 2)
         else Ok false);
  p ← (if two : bool
       then a ← py_getitem diskUsage 0;
            b ← py_getitem diskUsage 1;
            Ok (<["inodes" := b]> (<["diskUsage" := a]> p))
       else Ok p);
  load ← u_load sys_checks n;
  p ← py_update p load;
  memory ← u_memory sys_checks n;
  p ← (if py_truthy memory then memory_update memory memory_fields p else Ok p);
  ioStats ← u_io sys_checks n;
  let p := if py_truthy ioStats then <["ioStats" := ioStats]> p else p in
  processes ← u_processes sys_checks n;
  let p := <["processes" := processes]> p in
  cpuStats ← u_cpu sys_checks n;
  if py_truthy cpuStats then py_update p cpuStats else Ok p.

(** [events['dogstream'].extend(dogstreamEvents)] *)
Definition dogstream_extend (events : gmap string value) (dogstreamEvents : value)
  : result (gmap string value) :=
  match events !! "dogstream" with
  | None => Raise KeyError
  | Some (VList l) =>
      new ← py_iter dogstreamEvents;
      Ok (<["dogstream" := VList (l ++ new)]> events)
  | Some _ => Raise AttributeError
  end.

(** Old-style checks: ganglia, dogstream, forwarder. *)
Definition old_style_checks (n : nat) (c : Collector) (L : Locals)
  : result Locals :=
  gangliaData ← _ganglia c n;
  dogstreamData ← _dogstream c n;
  ddforwarderData ← _ddforwarder c n;
  let L :=
    match gangliaData with
    | VBool false | VNone => L
    | _ => set_payload (<["ganglia" := gangliaData]> (payload L)) L
    end in
  L ← (if py_truthy dogstreamData then
         dogstreamEvents ← py_get dogstreamData "dogstreamEvents";
         '(L, dogstreamData) ←
           (if py_truthy dogstreamEvents then
              present ← (payload_events ← py_item (payload_view L) "events";
                         py_contains "dogstream" payload_events);
              events ← (if present : bool
                        then dogstream_extend (events L) dogstreamEvents
                        else Ok (<["dogstream" := dogstreamEvents]> (events L)));
              Ok (set_events events L,
                  match dogstreamData with
                  | VDict d => VDict (delete "dogstreamEvents" d)
                  | other => other
                  end)
            else Ok (L, dogstreamData));
         p ← py_update (payload L) dogstreamData;
         Ok (set_payload p L)
       else Ok L);
  Ok (if py_truthy ddforwarderData
      then set_payload (<["datadog" := ddforwarderData]> (payload L)) L
      else L).

(** Event checks: the result, when there is one, is stored under the key of
    the check. *)
Fixpoint event_checks (n : nat) (checks : list EventCheck)
    (events : gmap string value) : result (gmap string value) :=
  match checks with
  | [] => Ok events
  | event_check_ :: rest =>
      event_data ← event_check event_check_ n;
      event_checks n rest
        (if py_truthy event_data
         then <[key event_check_ := event_data]> events
         else events)
  end.

(** [payload['resources'][k] = v] *)
Definition set_resource (k : string) (v : value) (L : Locals) : result Locals :=
  resources ← py_item (payload_view L) "resources";
  match resources with
  | VDict r => Ok (set_payload (<["resources" := VDict (<[k := v]> r)]> (payload L)) L)
  | _ => Raise TypeError
  end.

Definition res_value (snaps : list value) (format_version res_format : value)
  : value :=
  let v : gmap string value :=
    <["snaps" := VList snaps]> (<["format_version" := format_version]> ∅) in
  VDict (match res_format with
         | VNone => v
         | _ => <["format_description" := res_format]> v
         end).

Fixpoint resources_loop (n : nat) (checks : list ResourcesCheck)
    (has_resource : bool) (L : Locals) : result (bool * Locals) :=
  match checks with
  | [] => Ok (has_resource, L)
  | check :: rest =>
      resources_check check n;;
      snaps ← pop_snapshots check n;
      match snaps with
      | [] => resources_loop n rest has_resource L
      | _ =>
          format_version ← get_format_version check n;
          res_format ← describe_format_if_needed check n;
          L ← set_resource (RESOURCE_KEY check)
                (res_value snaps format_version res_format) L;
          resources_loop n rest true L
      end
  end.

Definition resources_meta (api_key host : value) : value :=
  VDict (<["api_key" := api_key]> (<["host" := host]> ∅)).

(** Resources checks (the caller runs them on a host that is not Windows). *)
Definition resources_checks (n : nat) (c : Collector) (L : Locals)
  : result Locals :=
  '(has_resource, L) ← resources_loop n (_resources_checks c) false L;
  if has_resource : bool then
    api_key ← py_item (agentConfig c) "api_key";
    host ← py_item (payload_view L) "internalHostname";
    set_resource "meta" (resources_meta api_key host) L
  else Ok L.

(** Newer-style metrics checks. *)
Fixpoint metrics_checks (n : nat) (checks : list MetricsCheck)
    (metrics : list value) : result (list value) :=
  match checks with
  | [] => Ok metrics
  | check :: rest =>
      res ← metrics_check check n;
      metrics ← (if py_truthy res
                 then new ← py_iter res; Ok (metrics ++ new)
                 else Ok metrics);
      metrics_checks n rest metrics
  end.

(** ** checks.d checks *)

(** [events[name] = new] when the key is absent, [events[name] += new]
    otherwise. *)
Definition merge_events (name : string) (new : list value)
    (events : gmap string value) : result (gmap string value) :=
  match events !! name with
  | None => Ok (<[name := VList new]> events)
  | Some (VList old) => Ok (<[name := VList (old ++ new)]> events)
  | Some _ => Raise TypeError
  end.

(** The body of the [try] of one checks.d check: the locals as the body
    leaves them, [instance_statuses], [metric_count], [event_count], and the
    exception when one was raised. *)
Definition check_d_try (n : nat) (check : CheckD) (L : Locals)
  : Locals * value * nat * nat * option exn :=
  match check_run check n with
  | Raise e => (L, VList [], 0%nat, 0%nat, Some e)
  | Ok instance_statuses =>
      match get_metrics check n with
      | Raise e => (L, instance_statuses, 0%nat, 0%nat, Some e)
      | Ok current_check_metrics =>
          match get_events check n with
          | Raise e => (L, instance_statuses, 0%nat, 0%nat, Some e)
          | Ok current_check_events =>
              let L := set_metrics (metrics L ++ current_check_metrics) L in
              match
                match current_check_events with
                | [] => Ok (events L)
                | _ => merge_events (name check) current_check_events (events L)
                end
              with
              | Raise e => (L, instance_statuses, 0%nat, 0%nat, Some e)
              | Ok events =>
                  (set_events events L, instance_statuses,
                   length current_check_metrics, length current_check_events,
                   None)
              end
          end
      end
  end.

Definition run_check_d (env : Env) (n i : nat) (check : CheckD) (L : Locals)
  : M (Locals * CheckStatus) :=
  log_record INFO (Running_check (name check));;
  interrupt env (DuringCheckD i);;
  let '(L, instance_statuses, metric_count, event_count, failure) :=
    check_d_try n check L in
  match failure with
  | Some e => log_record ERROR (Error_running_check (name check) e)
  | None => mret tt
  end;;
  mret (L, mkCheckStatus (name check) instance_statuses
             (Some metric_count) (Some event_count) None None).

(** How a loop of [run] ends: it runs out of elements, or hits [return]. *)
Inductive Loop (A : Type) :=
  | Done (a : A)
  | Return.
Arguments Done {A} a.
Arguments Return {A}.

Fixpoint checks_d_loop (env : Env) (n i : nat) (checks : list CheckD)
    (L : Locals) (statuses : list CheckStatus)
  : M (Loop (Locals * list CheckStatus)) :=
  match checks with
  | [] => mret (Done (L, statuses))
  | check :: rest =>
      c ← get_self;
      if negb (continue_running c) then mret Return
      else
        '(L, check_status) ← run_check_d env n i check L;
        checks_d_loop env n (S i) rest L (statuses ++ [check_status])
  end.

Fixpoint init_failed_loop (env : Env) (i : nat)
    (items : list (string * InitFailedInfo)) (statuses : list CheckStatus)
  : M (Loop (list CheckStatus)) :=
  match items with
  | [] => mret (Done statuses)
  | (check_name, info) :: rest =>
      c ← get_self;
      if negb (continue_running c) then mret Return
      else
        interrupt env (DuringInitFailed i);;
        let check_status :=
          mkCheckStatus check_name VNone None None
            (Some (error info)) (Some (traceback info)) in
        init_failed_loop env (S i) rest (statuses ++ [check_status])
  end.

(** [self.init_failed_checks_d.iteritems()]: a list has no such method. *)
Definition iteritems (d : InitFailed) : result (list (string * InitFailedInfo)) :=
  match d with
  | InitFailedList => Raise AttributeError
  | InitFailedDict items => Ok items
  end.

(** ** [_emit] *)

Fixpoint emit_loop (env : Env) (n i : nat) (payload : gmap string value)
    (emitters : list Emitter) (statuses : list EmitterStatus)
  : M (list EmitterStatus) :=
  match emitters with
  | [] => mret statuses
  | emitter :: rest =>
      c ← get_self;
      (* Don't try to send to an emitter if we're stopping *)
      if negb (continue_running c) then mret statuses
      else
        let name := __name__ emitter in
        interrupt env (DuringEmitter i);;
        record_sent name payload;;
        emitter_status ←
          match emit_call emitter n payload with
          | Ok _ => mret (mkEmitterStatus name None)
          | Raise e =>
              log_record ERROR (Error_running_emitter name e);;
              mret (mkEmitterStatus name (Some e))
          end;
        emit_loop env n (S i) payload rest (statuses ++ [emitter_status])
  end.

Definition _emit (env : Env) (payload : gmap string value)
  : M (list EmitterStatus) :=
  c ← get_self;
  emit_loop env (run_count c) 0 payload (emitters c) [].

(** ** [run] *)

Definition FLUSH_LOGGING_PERIOD : nat := 10.
Definition FLUSH_LOGGING_INITIAL : nat := 5.

(** [run] returns [None] in Python; here its result tells how the cycle
    ended: at a [return] of a stop checkpoint, or at the end of the method,
    with the payload the cycle built. *)
Inductive Cycle :=
  | Stopped
  | Completed (payload : gmap string value).

Definition as_list (v : value) : result (list value) :=
  match v with VList l => Ok l | _ => Raise AttributeError end.

Definition as_dict (v : value) : result (gmap string value) :=
  match v with VDict d => Ok d | _ => Raise AttributeError end.

(** The part of [run] after the checks.d loops. *)
Definition finish_run (env : Env) (L : Locals) (check_statuses : list CheckStatus)
  : M Cycle :=
  (* Store the metrics and events in the payload. *)
  let payload := <["events" := VDict (events L)]>
                 (<["metrics" := VList (metrics L)]> (payload L)) in
  let collect_duration := timer_step_collect env in
  interrupt env DuringAgentMetrics;;
  c ← get_self;
  let windows := String.eqb (os c) "windows" in
  agent ← lift (_agent_metrics c (run_count c) payload collect_duration
                  (emit_duration c)
                  (if windows then None else Some (clock_delta env))
                ≫= py_iter);
  let payload := <["metrics" := VList (metrics L ++ agent)]> payload in
  emitter_statuses ← _emit env payload;
  modify_self (set_emit_duration (Some (timer_step_emit env)));;
  (* Persist the status of the collection run. *)
  c ← get_self;
  let status := mkCollectorStatus check_statuses emitter_statuses (metadata_cache c) in
  record_persisted status;;
  match persist env status with
  | Ok _ => mret tt
  | Raise e => log_record ERROR (Error_persisting_collector_status e)
  end;;
  (if (Nat.leb (run_count c) FLUSH_LOGGING_INITIAL
       || Nat.eqb (run_count c mod FLUSH_LOGGING_PERIOD) 0)%bool
   then
     log_record INFO
       (Finished_run (run_count c) collect_duration (timer_step_emit env));;
     if Nat.eqb (run_count c) FLUSH_LOGGING_INITIAL
     then log_record INFO First_flushes_done
     else mret tt
   else
     log_record DEBUG
       (Finished_run (run_count c) collect_duration (timer_step_emit env)));;
  mret (Completed payload).

(** The start of [run], up to the system checks: the cycle number and the
    locals [payload], [metrics], [events]. *)
Definition begin_run (env : Env) (checksd : option ChecksD) (start_event : bool)
  : M (nat * Locals) :=
  modify_self (fun c => set_run_count (S (run_count c)) c);;
  c ← get_self;
  let n := run_count c in
  log_record DEBUG (Starting_collection_run n);;
  interrupt env DuringBuildPayload;;
  built ← _build_payload env start_event;
  metrics_ ← lift (py_item built "metrics" ≫= as_list);
  events_ ← lift (py_item built "events" ≫= as_dict);
  let L := mkLocals (delete "events" (delete "metrics" built)) metrics_ events_ in
  match checksd with
  | Some cd => modify_self (set_checks_d cd)
  | None => mret tt
  end;;
  interrupt env DuringChecks;;
  mret (n, L).

(** The check groups that come before the checks.d checks. *)
Definition collect (n : nat) (L : Locals) : M Locals :=
  c ← get_self;
  let windows := String.eqb (os c) "windows" in
  (* Run the system checks. Checks will depend on the OS *)
  L ← (if windows
       then win32_system_checks n (_win32_system_checks c) L
       else p ← lift (unix_system_checks n (_unix_system_checks c) (payload L));
            mret (set_payload p L));
  (* Run old-style checks *)
  L ← lift (old_style_checks n c L);
  (* Process the event checks. *)
  events_ ← lift (event_checks n (_event_checks c) (events L));
  let L := set_events events_ L in
  (* Resources checks *)
  L ← (if windows then mret L else lift (resources_checks n c L));
  (* newer-style checks (not checks.d style) *)
  metrics_ ← lift (metrics_checks n (_metrics_checks c) (metrics L));
  mret (set_metrics metrics_ L).

(** The checks.d checks, then the checks that failed to initialize. *)
Definition checks_d (env : Env) (n : nat) (L : Locals)
  : M (Loop (Locals * list CheckStatus)) :=
  c ← get_self;
  looped ← checks_d_loop env n 0 (initialized_checks_d c) L [];
  match looped with
  | Return => mret Return
  | Done (L, check_statuses) =>
      c ← get_self;
      items ← lift (iteritems (init_failed_checks_d c));
      looped ← init_failed_loop env 0 items check_statuses;
      match looped with
      | Return => mret Return
      | Done check_statuses => mret (Done (L, check_statuses))
      end
  end.

Definition run (env : Env) (checksd : option ChecksD) (start_event : bool)
  : M Cycle :=
  '(n, L) ← begin_run env checksd start_event;
  L ← collect n L;
  looped ← checks_d env n L;
  match looped with
  | Return => mret Stopped
  | Done (L, check_statuses) => finish_run env L check_statuses
  end.

(** * Vocabulary of the properties *)

(** [m] takes every world to one related to it by [R], however it ends. *)
Definition preserves {A} (R : World → World → Prop) (m : M A) : Prop :=
  ∀ w r w', m w = (r, w') → R w w'.

(** Nothing was sent to an emitter and nothing was handed to the persistence
    of the run status. *)
Definition quiet (w w' : World) : Prop :=
  sent w' = sent w ∧ persisted w' = persisted w.

(** What every step of a cycle respects: the log only grows, what is fixed
    at construction stays, and the stop flag is a latch (once
    [continue_running] is false it stays false). *)
Definition frame (w w' : World) : Prop :=
  (∃ l, log w' = log w ++ l) ∧
  (continue_running (self w) = false → continue_running (self w') = false) ∧
  agentConfig (self w') = agentConfig (self w) ∧
  os (self w') = os (self w) ∧
  emitters (self w') = emitters (self w) ∧
  metadata_interval (self w') = metadata_interval (self w) ∧
  _resources_checks (self w') = _resources_checks (self w) ∧
  _event_checks (self w') = _event_checks (self w) ∧
  _metrics_checks (self w') = _metrics_checks (self w) ∧
  _agent_metrics (self w') = _agent_metrics (self w) ∧
  _unix_system_checks (self w') = _unix_system_checks (self w) ∧
  _win32_system_checks (self w') = _win32_system_checks (self w) ∧
  _ganglia (self w') = _ganglia (self w) ∧
  _dogstream (self w') = _dogstream (self w) ∧
  _ddforwarder (self w') = _ddforwarder (self w).

(** The stored checks.d checks are the same. *)
Definition same_checks_d (w w' : World) : Prop :=
  initialized_checks_d (self w') = initialized_checks_d (self w) ∧
  init_failed_checks_d (self w') = init_failed_checks_d (self w).

(** Within one cycle: the counter and the stored checks.d checks are the
    same. *)
Definition same_cycle (w w' : World) : Prop :=
  run_count (self w') = run_count (self w) ∧ same_checks_d w w'.

(** The exception a checks.d check raises when it is invoked in cycle [n]:
    by [run()], or else by [get_metrics()], or else by [get_events()]. *)
Definition invocation_failure (n : nat) (check : CheckD) : option exn :=
  match check_run check n with
  | Raise e => Some e
  | Ok _ =>
      match get_metrics check n with
      | Raise e => Some e
      | Ok _ =>
          match get_events check n with
          | Raise e => Some e
          | Ok _ => None
          end
      end
  end.

(** [status] is a status of the checks.d check [check] run in cycle [n]:
    it carries the name of the check and no initialization failure; its
    counts are zero when the invocation raised, and its instance results are
    empty as well when it is [run()] that raised. *)
Definition status_of_check (n : nat) (check : CheckD) (status : CheckStatus)
  : Prop :=
  cs_name status = name check ∧
  cs_init_failed_error status = None ∧
  cs_init_failed_traceback status = None ∧
  (∃ mc ec, cs_metric_count status = Some mc ∧ cs_event_count status = Some ec) ∧
  (∀ e, invocation_failure n check = Some e →
        cs_metric_count status = Some 0%nat ∧ cs_event_count status = Some 0%nat) ∧
  (∀ e, check_run check n = Raise e →
        status = mkCheckStatus (name check) (VList []) (Some 0%nat) (Some 0%nat)
                   None None).

(** The instance results and the counts in the status of the checks.d check
    [check] run in cycle [n]: the instance results are what [run()]
    returned, and are empty when [run()] raised; when the three calls
    returned, the counts are the numbers of metrics and events the check
    gave, unless merging the events raised, in which case they are zero. *)
Definition status_details (n : nat) (check : CheckD) (status : CheckStatus)
  : Prop :=
  cs_instance_statuses status =
    match check_run check n with
    | Ok instance_statuses => instance_statuses
    | Raise _ => VList []
    end ∧
  ∀ current_check_metrics current_check_events,
    invocation_failure n check = None →
    get_metrics check n = Ok current_check_metrics →
    get_events check n = Ok current_check_events →
    (cs_metric_count status = Some (length current_check_metrics) ∧
     cs_event_count status = Some (length current_check_events)) ∨
    (current_check_events ≠ [] ∧
     cs_metric_count status = Some 0%nat ∧ cs_event_count status = Some 0%nat).

(** [status] is the status of a check that failed to initialize. *)
Definition status_of_init_failure (item : string * InitFailedInfo)
    (status : CheckStatus) : Prop :=
  status = mkCheckStatus item.1 VNone None None
             (Some (error item.2)) (Some (traceback item.2)).

(** The step returned normally / what it returned ([d] otherwise). *)
Definition is_ok {A} (x : result A * World) : bool :=
  match x.1 with
  | Ok _ => true
  | Raise _ => false
  end.

Definition returned {A} (d : A) (x : result A * World) : A :=
  match x.1 with
  | Ok a => a
  | Raise _ => d
  end.

Definition no_locals : Locals := mkLocals ∅ [] ∅.

(** * Concrete hosts, used to run the model *)

Module Scenario.

Definition nothing : check_fn := λ _, Ok VNone.
Definition no_metrics : check_fn := λ _, Ok (VList []).
Definition failing (msg : string) : check_fn := λ _, Raise (Failure msg).

Definition unix : UnixChecks :=
  {| u_disk := nothing; u_io := nothing; u_load := λ _, Ok (VDict ∅);
     u_memory := nothing; u_processes := nothing; u_cpu := nothing |}.

Definition win32 (disk memory : check_fn) : Win32Checks :=
  {| w_disk := disk; w_io := no_metrics; w_proc := no_metrics;
     w_memory := memory; w_network := no_metrics; w_cpu := no_metrics |}.

Definition nagios (k : string) (data : value) : EventCheck :=
  {| key := k; event_check := λ _, Ok data |}.

Definition processes (snaps : list value) : ResourcesCheck :=
  {| RESOURCE_KEY := "processes";
     resources_check := λ _, Ok tt;
     pop_snapshots := λ _, Ok snaps;
     get_format_version := λ _, Ok (VNum 3);
     describe_format_if_needed := λ _, Ok VNone |}.

Definition modules (os_name : string) (w32 : Win32Checks) (ev : EventCheck)
    (res : ResourcesCheck) (custom : result MetricsCheck) : Modules :=
  {| get_os := os_name;
     init_time := 0;
     unix_checks := unix;
     win32_checks := w32;
     Ganglia := nothing;
     Dogstreams_init := nothing;
     DdForwarder := nothing;
     CollectorMetrics := λ _ _ _ _ _, Ok (VList []);
     modules_load := λ _, custom;
     Nagios := ev;
     ResProcesses := res |}.

Definition config (custom_checks : string) : gmap string value :=
  <["version" := VStr "3.6.0"]>
  (<["api_key" := VStr "0123abcd"]>
  (<["tags" := VNone]>
  (<["custom_checks" := VStr custom_checks]> ∅))).

Definition env (now : Z) (signal : Phase → bool) : Env :=
  {| time_time := now;
     time_time_metadata := now;
     sys_version := "2.7.3";
     get_hostname := Ok (VStr "web01");
     get_hostname_noarg := Ok (VStr "web01");
     get_uuid := Ok (VStr "5f1c");
     get_version := Ok "3.6.0";
     get_system_stats := Ok (VDict {["cpuCores" := VNum 4]});
     EC2_get_metadata := Ok ∅;
     socket_gethostname := Ok (VStr "web01");
     socket_getfqdn := Ok (VStr "web01.example.com");
     timer_step_collect := 2;
     timer_step_emit := 1;
     clock_delta := 1;
     persist := λ _, Ok tt;
     stop_signal := signal |}.

Definition never : Phase → bool := λ _, false.

Definition idle : World :=
  {| self := {| emit_duration := None; agentConfig := ∅; os := "linux";
                emitters := []; metadata_interval := 600; metadata_start := 0;
                run_count := 0; continue_running := true;
                metadata_cache := VNone; initialized_checks_d := [];
                init_failed_checks_d := InitFailedList;
                _unix_system_checks := unix;
                _win32_system_checks := win32 no_metrics no_metrics;
                _ganglia := nothing; _dogstream := nothing;
                _ddforwarder := nothing;
                _agent_metrics := λ _ _ _ _ _, Ok (VList []);
                _metrics_checks := []; _event_checks := [];
                _resources_checks := [] |};
     log := []; sent := []; persisted := []; stopped := [] |}.

(** The collector [Collector(agentConfig, emitters, systemStats)] builds. *)
Definition constructed (ext : Modules) (agentConfig : gmap string value)
    (emitters : list Emitter) : World :=
  match __init__ ext agentConfig emitters (VDict ∅) with
  | Ok w => w
  | Raise _ => idle
  end.

Definition http_emitter : Emitter :=
  {| __name__ := "http_emitter"; emit_call := λ _ _, Ok tt |}.
Definition broken_emitter : Emitter :=
  {| __name__ := "broken_emitter";
     emit_call := λ _ _, Raise (Failure "connection refused") |}.

Definition linux (emitters : list Emitter) : World :=
  constructed
    (modules "linux" (win32 no_metrics no_metrics) (nagios "Nagios" VNone)
       (processes []) (Raise (Failure "no such module")))
    (config "") emitters.

Definition two_emitters : World := linux [broken_emitter; http_emitter].

(** A cycle at time 100 during which no shutdown is requested. *)
Definition calm : Env := env 100 never.

Definition no_checks_d : ChecksD :=
  {| initialized_checks := []; init_failed_checks := [] |}.

Definition disk_extra : CheckD :=
  {| name := "disk_extra";
     check_run := λ _, Raise (Failure "boom");
     get_metrics := λ _, Ok [];
     get_events := λ _, Ok [] |}.
Definition redis : CheckD :=
  {| name := "redis";
     check_run := λ _, Ok (VList [VStr "instance #0 OK"]);
     get_metrics := λ _, Ok [VStr "redis.clients"; VStr "redis.keys"];
     get_events := λ _, Ok [VStr "redis restarted"] |}.
(** A check whose [run()] returns and whose [get_metrics()] raises. *)
Definition flaky_metrics : CheckD :=
  {| name := "flaky_metrics";
     check_run := λ _, Ok (VList [VStr "instance #0 OK"]);
     get_metrics := λ _, Raise (Failure "boom");
     get_events := λ _, Ok [] |}.
Definition bad_plugin : string * InitFailedInfo :=
  ("bad_plugin", {| error := VStr "ImportError: x"; traceback := VStr "Traceback" |}).

Definition two_checks : ChecksD :=
  {| initialized_checks := [disk_extra; redis];
     init_failed_checks := [bad_plugin] |}.

Definition second_emitter : Emitter :=
  {| __name__ := "second_emitter"; emit_call := λ _ _, Ok tt |}.

(** The shutdown handler runs while the checks before the checks.d checks
    run. *)
Definition stop_during_checks : Phase → bool :=
  λ ph, match ph with DuringChecks => true | _ => false end.

(** The shutdown handler runs while the first emitter sends. *)
Definition stop_during_first_emitter : Phase → bool :=
  λ ph, match ph with DuringEmitter 0 => true | _ => false end.

(** The shutdown handler runs while the first checks.d check runs. *)
Definition stop_during_first_check : Phase → bool :=
  λ ph, match ph with DuringCheckD 0 => true | _ => false end.

(** A cycle without checks.d checks, stopped before the emitter's turn. *)
Definition stopped_before_emitter : result Cycle * World :=
  run (env 100 stop_during_checks) (Some no_checks_d) true (linux [http_emitter]).

(** A cycle stopped while the first of two emitters sends. *)
Definition stopped_between_emitters : result Cycle * World :=
  run (env 100 stop_during_first_emitter) (Some no_checks_d) true
    (linux [http_emitter; second_emitter]).

(** A cycle stopped while the first of two checks.d checks runs. *)
Definition stopped_between_checks : result Cycle * World :=
  run (env 100 stop_during_first_check) (Some two_checks) true
    (linux [http_emitter]).

(** A custom check whose [check()] raises, on a Linux host. *)
Definition linux_with_failing_custom_check : World :=
  constructed
    (modules "linux" (win32 no_metrics no_metrics) (nagios "Nagios" VNone)
       (processes []) (Ok {| metrics_check := failing "boom" |}))
    (config "my.custom_check") [http_emitter].


Definition memory_metrics : check_fn := λ _, Ok (VList [VStr "system.mem.free"]).

(** A Windows host whose disk check raises. *)
Definition windows_with_failing_disk : World :=
  constructed
    (modules "windows" (win32 (failing "WMI error") memory_metrics)
       (nagios "Nagios" VNone) (processes []) (Raise (Failure "no such module")))
    (config "") [http_emitter].

Definition windows_cycle : result Cycle * World :=
  run calm (Some two_checks) true windows_with_failing_disk.



(** A Linux host whose resources check holds two snapshots; no emitters and
    no checks.d checks. *)
Definition linux_with_snapshots : World :=
  constructed
    (modules "linux" (win32 no_metrics no_metrics) (nagios "Nagios" VNone)
       (processes [VStr "snapshot 1"; VStr "snapshot 2"])
       (Raise (Failure "no such module")))
    (config "") [].

Definition snapshots_cycle : result Cycle * World :=
  run calm (Some no_checks_d) true linux_with_snapshots.



(** The world in which [run] calls [_build_payload] in the first cycle. *)
Definition first_build : World :=
  with_self (set_run_count 1) (linux []).

(** A first cycle on a Linux host without emitters, given [two_checks]. *)
Definition first_cycle : result Cycle * World :=
  run calm (Some two_checks) true (linux []).

(** A Linux host whose event check reports under the key 'System'. *)
Definition linux_with_system_events : World :=
  constructed
    (modules "linux" (win32 no_metrics no_metrics)
       (nagios "System" (VList [VStr "host web02 is DOWN"]))
       (processes []) (Raise (Failure "no such module")))
    (config "") [].

Definition system_events_cycle : result Cycle * World :=
  run calm (Some no_checks_d) true linux_with_system_events.

(** A checks.d check named 'System' that produces one event. *)
Definition system_check : CheckD :=
  {| name := "System";
     check_run := λ _, Ok (VList []);
     get_metrics := λ _, Ok [];
     get_events := λ _, Ok [VStr "host web02 is DOWN"] |}.

Definition system_check_cycle : result Cycle * World :=
  run calm
    (Some {| initialized_checks := [system_check]; init_failed_checks := [] |})
    true (linux []).

(** The next cycle, run without a [checksd] argument. *)
Definition second_cycle : result Cycle * World :=
  run (env 200 never) None true first_cycle.2.

End Scenario.

(** The cycle ran to the end of [run]. *)
Definition completes (x : result Cycle * World) : bool :=
  match x.1 with
  | Ok (Completed _) => true
  | _ => false
  end.

(** The payload of a cycle that ran to the end of [run]. *)
Definition built_payload (x : result Cycle * World) : gmap string value :=
  match x.1 with
  | Ok (Completed p) => p
  | _ => ∅
  end.

(** [p.update(v)] leaves the entry [k] of [p] as it is. *)
Definition keeps (k : string) (v : value) : Prop :=
  ∀ p p', py_update p v = Ok p' → p' !! k = p !! k.

(** In cycle [n] the checks whose result is flattened into the payload (the
    load check, the CPU check, the dogstreams) return no field named [k]. *)
Definition flattened_checks_keep (k : string) (c : Collector) (n : nat) : Prop :=
  ∀ v, u_load (_unix_system_checks c) n = Ok v ∨
       u_cpu (_unix_system_checks c) n = Ok v ∨
       _dogstream c n = Ok v →
       keeps k v.

(** A resources check of the collector gave at least one snapshot in cycle
    [n]. *)
Definition some_snapshot (c : Collector) (n : nat) : Prop :=
  ∃ check snaps, check ∈ _resources_checks c ∧
                 pop_snapshots check n = Ok snaps ∧ snaps ≠ [].

(** The entries [_build_payload] always sets. *)
Definition base_payload (c : Collector) (env : Env)
    (agentVersion apiKey internalHostname uuid : value) : gmap string value :=
  <["collection_timestamp" := VNum (time_time env)]>
  (<["os" := VStr (os c)]>
  (<["python" := VStr (sys_version env)]>
  (<["agentVersion" := agentVersion]>
  (<["apiKey" := apiKey]>
  (<["events" := VDict ∅]>
  (<["metrics" := VList []]>
  (<["resources" := VDict ∅]>
  (<["internalHostname" := internalHostname]>
  (<["uuid" := uuid]> ∅))))))))).

(** What the startup branch of [_build_payload] adds. *)
Definition with_startup (c : Collector) (env : Env) (apiKey host : value)
    (version : string) (p : gmap string value) : gmap string value :=
  <["events" :=
     VDict {["System" := VList [startup_event apiKey host (time_time env) version]]}]>
  (<["systemStats" := default (VDict ∅) (agentConfig c !! "system_stats")]> p).

(** What the metadata branch of [_build_payload] adds. *)
Definition with_metadata (systemStats meta tags : value) (p : gmap string value)
  : gmap string value :=
  let p := <["meta" := meta]> (<["systemStats" := systemStats]> p) in
  match tags with
  | VNone => p
  | _ => <["tags" := tags]> p
  end.

(** The interval test of [_should_send_metadata]. *)
Definition interval_passed (c : Collector) (env : Env) : bool :=
  metadata_interval c <=? time_time_metadata env - metadata_start c.

(** The condition under which [_build_payload] takes its metadata branch. *)
Definition sends_metadata (c : Collector) (env : Env) : bool :=
  (_is_first_run c || interval_passed c env)%bool.

(** The call returns normally. *)
Definition succeeds {A} (r : result A) : Prop := ∃ a, r = Ok a.

(** Every key of [p] is a key of [p']: no section of [p] is missing from
    [p']. *)
Definition keeps_keys (p p' : gmap string value) : Prop :=
  ∀ k, is_Some (p !! k) → is_Some (p' !! k).

(** The cycle counter is the same. *)
Definition same_run_count (w w' : World) : Prop :=
  run_count (self w') = run_count (self w).

(** The duration of the last emit, as the collector remembers it, is the
    same. *)
Definition same_emit_duration (w w' : World) : Prop :=
  emit_duration (self w') = emit_duration (self w).

(** The cached host metadata is the same. *)
Definition same_metadata_cache (w w' : World) : Prop :=
  metadata_cache (self w') = metadata_cache (self w).

(** The environment [env] with another behaviour of
    [CollectorStatus.persist]. *)
Definition with_persist (f : CollectorStatus → result unit) (env : Env) : Env :=
  {| time_time := time_time env;
     time_time_metadata := time_time_metadata env;
     sys_version := sys_version env;
     get_hostname := get_hostname env;
     get_hostname_noarg := get_hostname_noarg env;
     get_uuid := get_uuid env;
     get_version := get_version env;
     get_system_stats := get_system_stats env;
     EC2_get_metadata := EC2_get_metadata env;
     socket_gethostname := socket_gethostname env;
     socket_getfqdn := socket_getfqdn env;
     timer_step_collect := timer_step_collect env;
     timer_step_emit := timer_step_emit env;
     clock_delta := clock_delta env;
     persist := f;
     stop_signal := stop_signal env |}.

(** The metrics a checks.d check contributes to the payload in cycle [n]:
    what [get_metrics()] returned when [run()], [get_metrics()] and
    [get_events()] all returned, nothing otherwise. *)
Definition check_metrics (n : nat) (check : CheckD) : list value :=
  match invocation_failure n check, get_metrics check n with
  | None, Ok l => l
  | _, _ => []
  end.

(** The module specifications in the value of 'custom_checks': the
    comma-separated fields, stripped, without the empty ones. *)
Definition module_specs (custom : string) : list string :=
  filter (λ s, s ≠ "") (strip <$> split_comma custom).

(** The world in which [run] calls [_build_payload]: the cycle is counted,
    its start is logged, and a [stop()] signalled right then is served. *)
Definition build_world (env : Env) (w : World) : World :=
  (interrupt env DuringBuildPayload
     (mkWorld (set_run_count (S (run_count (self w))) (self w))
        (log w ++ [(DEBUG, Starting_collection_run (S (run_count (self w))))])
        (sent w) (persisted w) (stopped w))).2.

(** The metrics gathered in cycle [n] before the checks.d checks, starting
    from the empty list of the fresh payload: on Windows what the batch of
    system checks gathered, then the results of the custom metrics checks. *)
Definition collected_metrics (c : Collector) (n : nat) : result (list value) :=
  metrics_checks n (_metrics_checks c)
    (if String.eqb (os c) "windows"
     then (win32_extend n
             [w_disk (_win32_system_checks c); w_memory (_win32_system_checks c);
              w_cpu (_win32_system_checks c); w_network (_win32_system_checks c);
              w_io (_win32_system_checks c); w_proc (_win32_system_checks c)]
             []).1
     else []).

(** * More concrete hosts and cycles *)

Module Cases.

(** A Linux host with one emitter, after [stop()]. *)
Definition stopped_linux : World := stop (Scenario.linux [Scenario.http_emitter]).

(** A cycle on the stopped host. *)
Definition cycle_after_stop : result Cycle * World :=
  run Scenario.calm (Some Scenario.no_checks_d) true stopped_linux.

(** A cycle given [two_checks] in which a custom check raises. *)
Definition failing_cycle_with_checks : result Cycle * World :=
  run Scenario.calm (Some Scenario.two_checks) true
    Scenario.linux_with_failing_custom_check.

(** The first cycle of a fresh collector, run without [checksd]. *)
Definition cycle_without_checksd : result Cycle * World :=
  run Scenario.calm None true (Scenario.linux [Scenario.http_emitter]).

(** An environment in which persisting the status fails. *)
Definition unpersisted : Env :=
  with_persist (λ _, Raise (Failure "disk full")) Scenario.calm.

Definition unpersisted_cycle : result Cycle * World :=
  run unpersisted (Some Scenario.no_checks_d) true
    (Scenario.linux [Scenario.http_emitter]).

Definition no_status : CollectorStatus := mkCollectorStatus [] [] VNone.

(** An EC2 instance on which [socket.gethostname()] fails. *)
Definition on_ec2 : Env :=
  {| time_time := 100;
     time_time_metadata := 100;
     sys_version := "2.7.3";
     get_hostname := Ok (VStr "web01");
     get_hostname_noarg := Ok (VStr "web01");
     get_uuid := Ok (VStr "5f1c");
     get_version := Ok "3.6.0";
     get_system_stats := Ok (VDict {["cpuCores" := VNum 4]});
     EC2_get_metadata :=
       Ok (<["hostname" := VStr "ip-10-0-0-1"]> {["instance-id" := VStr "i-0abc"]});
     socket_gethostname := Raise (Failure "no network");
     socket_getfqdn := Ok (VStr "web01.example.com");
     timer_step_collect := 2;
     timer_step_emit := 1;
     clock_delta := 1;
     persist := λ _, Ok tt;
     stop_signal := Scenario.never |}.

(** The world in which [run] calls [_build_payload] in the second cycle. *)
Definition later_build : World :=
  with_self (set_run_count 2) (Scenario.linux []).

(** Unix system checks whose load check returns None. *)
Definition unix_without_load : UnixChecks :=
  {| u_disk := Scenario.nothing; u_io := Scenario.nothing;
     u_load := Scenario.nothing; u_memory := Scenario.nothing;
     u_processes := Scenario.nothing; u_cpu := Scenario.nothing |}.

(** Windows system checks whose cpu check raises. *)
Definition win32_cpu_fails : Win32Checks :=
  {| w_disk := λ _, Ok (VList [VStr "system.disk.free"]);
     w_io := Scenario.no_metrics; w_proc := Scenario.no_metrics;
     w_memory := Scenario.memory_metrics; w_network := Scenario.no_metrics;
     w_cpu := Scenario.failing "WMI error" |}.

(** A collector whose dogstreams report [data]. *)
Definition dogstream_host (data : value) : Collector :=
  {| emit_duration := None; agentConfig := ∅; os := "linux";
     emitters := []; metadata_interval := 600; metadata_start := 0;
     run_count := 1; continue_running := true;
     metadata_cache := VNone; initialized_checks_d := [];
     init_failed_checks_d := InitFailedList;
     _unix_system_checks := Scenario.unix;
     _win32_system_checks := Scenario.win32 Scenario.no_metrics Scenario.no_metrics;
     _ganglia := Scenario.nothing; _dogstream := λ _, Ok data;
     _ddforwarder := Scenario.nothing;
     _agent_metrics := λ _ _ _ _ _, Ok (VList []);
     _metrics_checks := []; _event_checks := [];
     _resources_checks := [] |}.

Definition syslog_data (found : value) : gmap string value :=
  <["dogstreamEvents" := found]> {["dogstream" := VList [VStr "syslog.errors"]]}.

(** Locals of [run] whose payload has the sections the resources checks
    use. *)
Definition with_resources : Locals :=
  mkLocals (<["resources" := VDict ∅]> {["internalHostname" := VStr "web01"]}) [] ∅.

(** A checks.d check named as the event check is keyed. *)
Definition nagios_check : CheckD :=
  {| name := "Nagios";
     check_run := λ _, Ok (VList [VStr "instance #0 OK"]);
     get_metrics := λ _, Ok [VStr "nagios.hosts"];
     get_events := λ _, Ok [VStr "host web02 is DOWN"] |}.

(** A loader of custom check modules that knows one module. *)
Definition plugins : Modules :=
  {| get_os := "linux";
     init_time := 0;
     unix_checks := Scenario.unix;
     win32_checks := Scenario.win32 Scenario.no_metrics Scenario.no_metrics;
     Ganglia := Scenario.nothing;
     Dogstreams_init := Scenario.nothing;
     DdForwarder := Scenario.nothing;
     CollectorMetrics := λ _ _ _ _ _, Ok (VList []);
     modules_load := λ s, if String.eqb s "checks.good"
                          then Ok {| metrics_check := Scenario.no_metrics |}
                          else Raise (Failure "ImportError");
     Nagios := Scenario.nagios "Nagios" VNone;
     ResProcesses := Scenario.processes [] |}.

(** Unix system checks whose disk check returns the list [l]. *)
Definition unix_with_disk (l : list value) : UnixChecks :=
  {| u_disk := λ _, Ok (VList l); u_io := Scenario.nothing;
     u_load := λ _, Ok (VDict ∅); u_memory := Scenario.nothing;
     u_processes := Scenario.nothing; u_cpu := Scenario.nothing |}.

Definition disk_payload (l : list value) : gmap string value :=
  match unix_system_checks 1 (unix_with_disk l) ∅ with
  | Ok p => p
  | Raise _ => ∅
  end.

(** A Linux host whose agent metrics check raises. *)
Definition without_agent_metrics : World :=
  Scenario.constructed
    {| get_os := "linux";
       init_time := 0;
       unix_checks := Scenario.unix;
       win32_checks := Scenario.win32 Scenario.no_metrics Scenario.no_metrics;
       Ganglia := Scenario.nothing;
       Dogstreams_init := Scenario.nothing;
       DdForwarder := Scenario.nothing;
       CollectorMetrics := λ _ _ _ _ _, Raise (Failure "no psutil");
       modules_load := λ _, Raise (Failure "no such module");
       Nagios := Scenario.nagios "Nagios" VNone;
       ResProcesses := Scenario.processes [] |}
    (Scenario.config "") [Scenario.http_emitter].

Definition cycle_without_agent_metrics : result Cycle * World :=
  run Scenario.calm (Some Scenario.no_checks_d) true without_agent_metrics.

(** A collector in its first cycle whose configuration has no 'tags'. *)
Definition untagged : World :=
  with_self (set_run_count 1)
    (Scenario.constructed
       (Scenario.modules "linux" (Scenario.win32 Scenario.no_metrics Scenario.no_metrics)
          (Scenario.nagios "Nagios" VNone) (Scenario.processes [])
          (Raise (Failure "no such module")))
       (<["version" := VStr "3.6.0"]> {["api_key" := VStr "0123abcd"]}) []).

(** Two checks.d checks, the first of which raises in [get_metrics()]. *)
Definition flaky_checks : ChecksD :=
  {| initialized_checks := [Scenario.flaky_metrics; Scenario.redis];
     init_failed_checks := [] |}.

Definition flaky_cycle : result Cycle * World :=
  run Scenario.calm (Some flaky_checks) true (Scenario.linux []).

(** The cycle [Scenario.stopped_between_checks], phase by phase. *)
Definition stopping_begun : result (nat * Locals) * World :=
  begin_run (Scenario.env 100 Scenario.stop_during_first_check)
    (Some Scenario.two_checks) true (Scenario.linux [Scenario.http_emitter]).

Definition stopping_collected : result Locals * World :=
  collect 1 (returned (0%nat, no_locals) stopping_begun).2 stopping_begun.2.

(** The locals of a cycle whose [events] hold one event of the dogstreams. *)
Definition with_dogstream_events : Locals :=
  mkLocals ∅ [] {["dogstream" := VList [VStr "login failed"]]}.

(** A checks.d check named 'dogstream' that produces one event. *)
Definition dogstream_check : CheckD :=
  {| name := "dogstream";
     check_run := λ _, Ok (VList []);
     get_metrics := λ _, Ok [];
     get_events := λ _, Ok [VStr "queue is full"] |}.

(** Unix system checks whose load check returns a field named 'resources'. *)
Definition unix_with_resources_field : UnixChecks :=
  {| u_disk := Scenario.nothing; u_io := Scenario.nothing;
     u_load := λ _, Ok (VDict {["resources" := VDict {["meta" := VStr "load"]}]});
     u_memory := Scenario.nothing; u_processes := Scenario.nothing;
     u_cpu := Scenario.nothing |}.

(** A Linux host with these system checks, whose resources check holds no
    snapshot; no emitters and no checks.d checks. *)
Definition linux_with_resources_field : World :=
  Scenario.constructed
    {| get_os := "linux";
       init_time := 0;
       unix_checks := unix_with_resources_field;
       win32_checks := Scenario.win32 Scenario.no_metrics Scenario.no_metrics;
       Ganglia := Scenario.nothing;
       Dogstreams_init := Scenario.nothing;
       DdForwarder := Scenario.nothing;
       CollectorMetrics := λ _ _ _ _ _, Ok (VList []);
       modules_load := λ _, Raise (Failure "no such module");
       Nagios := Scenario.nagios "Nagios" VNone;
       ResProcesses := Scenario.processes [] |}
    (Scenario.config "") [].

Definition resources_field_cycle : result Cycle * World :=
  run Scenario.calm (Some Scenario.no_checks_d) true linux_with_resources_field.

End Cases.

(** * Properties *)

(** ** Reasoning about the monad *)

Lemma bind_unfold {A B} (m : M A) (f : A → M B) w :
  (m ≫= f) w =
  match m w with
  | (Ok a, w') => f a w'
  | (Raise e, w') => (Raise e, w')
  end.
Proof. reflexivity. Qed.

Lemma bind_Ok {A B} (m : M A) (f : A → M B) w a w1 :
  m w = (Ok a, w1) → (m ≫= f) w = f a w1.
Proof. intros H. rewrite bind_unfold, H. reflexivity. Qed.

Lemma bind_Raise {A B} (m : M A) (f : A → M B) w e w1 :
  m w = (Raise e, w1) → (m ≫= f) w = (Raise e, w1).
Proof. intros H. rewrite bind_unfold, H. reflexivity. Qed.

Lemma bind_inv {A B} (m : M A) (f : A → M B) w r w' :
  (m ≫= f) w = (r, w') →
  (∃ a w1, m w = (Ok a, w1) ∧ f a w1 = (r, w')) ∨
  (∃ e, m w = (Raise e, w') ∧ r = Raise e).
Proof.
  rewrite bind_unfold. destruct (m w) as [[a|e] w1]; intros H.
  - left. eauto.
  - right. inversion H; subst. eauto.
Qed.

Ltac msimpl :=
  unfold mbind, M_bind, bind, mret, M_ret, ret, lift, get_self, modify_self,
    log_record, record_sent, record_persisted, interrupt, raise, with_self,
    result_bind, result_ret in *;
  cbn beta iota zeta delta [self log sent persisted stopped fst snd] in *.

(** ** The emitter dispatcher *)

Lemma emit_loop_spec env n payload es : ∀ i acc w,
  ∃ attempted skipped statuses w',
    emit_loop env n i payload es acc w = (Ok (acc ++ statuses), w') ∧
    es = attempted ++ skipped ∧
    Forall2 (λ e s, es_name s = __name__ e ∧
                    es_error s = match emit_call e n payload with
                                 | Ok _ => None
                                 | Raise x => Some x
                                 end) attempted statuses ∧
    sent w' = sent w ++ ((λ e, (__name__ e, payload)) <$> attempted) ∧
    persisted w' = persisted w ∧
    (∃ l, log w' = log w ++ l ∧
          ∀ e x, e ∈ attempted → emit_call e n payload = Raise x →
                 (ERROR, Error_running_emitter (__name__ e) x) ∈ l) ∧
    (skipped ≠ [] → continue_running (self w') = false) ∧
    (continue_running (self w) = false → attempted = []) ∧
    (continue_running (self w) = true →
     (∀ j, (i ≤ j)%nat → stop_signal env (DuringEmitter j) = false) →
     skipped = []).
Proof.
  induction es as [|e es IH]; intros i acc w.
  - exists [], [], [], w. cbn. rewrite !app_nil_r.
    repeat split; try done. exists []. rewrite app_nil_r.
    split; [done|]. intros ? ? Hin. by apply elem_of_nil in Hin.
  - cbn [emit_loop]. rewrite bind_unfold. cbn [get_self].
    destruct (continue_running (self w)) eqn:Hrun; cbn [negb].
    + (* the emitter is attempted *)
      set (w1 := if stop_signal env (DuringEmitter i) then stop w else w).
      set (st := mkEmitterStatus (__name__ e)
                   match emit_call e n payload with
                   | Ok _ => None | Raise x => Some x end).
      set (l1 := match emit_call e n payload with
                 | Ok _ => []
                 | Raise x => [(ERROR, Error_running_emitter (__name__ e) x)]
                 end).
      set (w2 := mkWorld (self w1) (log w1 ++ l1)
                   (sent w1 ++ [(__name__ e, payload)]) (persisted w1) (stopped w1)).
      destruct (IH (S i) (acc ++ [st]) w2)
        as (att & skip & sts & w' & Hrun' & Hes & Hall & Hsent & Hpers & Hlog & Hskip & _ & Hfull).
      exists (e :: att), skip, (st :: sts), w'.
      assert (Hw1 : log w1 = log w ∧ sent w1 = sent w ∧ persisted w1 = persisted w).
      { unfold w1. by destruct (stop_signal env (DuringEmitter i)). }
      destruct Hw1 as (Hl1 & Hs1 & Hp1).
      split.
      { rewrite cons_middle, (assoc_L (++) acc [st] sts), <- Hrun'.
        msimpl. fold w1. unfold st, l1, w2.
        destruct (emit_call e n payload); msimpl; rewrite ?app_nil_r;
          by destruct w1. }
      split; [by rewrite Hes|].
      split; [by constructor|].
      split.
      { rewrite Hsent. unfold w2. cbn. rewrite Hs1, <- (assoc_L (++)). done. }
      split; [by rewrite Hpers|].
      split.
      { destruct Hlog as (l & Hl & Hin). exists (l1 ++ l). split.
        - rewrite Hl. unfold w2. cbn. by rewrite Hl1, (assoc_L (++)).
        - intros e' x [->|He']%elem_of_cons Hx.
          + apply elem_of_app. left. unfold l1. rewrite Hx. apply list_elem_of_singleton. done.
          + apply elem_of_app. right. eauto. }
      split; [done|].
      split; [congruence|].
      intros _ Hsig. apply Hfull.
      * unfold w2, w1. cbn. rewrite Hsig by lia. done.
      * intros j Hj. apply Hsig. lia.
    + (* stopping: nothing more is sent *)
      exists [], (e :: es), [], w. msimpl. rewrite !app_nil_r.
      repeat split; try done.
      exists []. rewrite app_nil_r. split; [done|].
      intros ? ? Hin. by apply elem_of_nil in Hin.
Qed.

(** ** What the steps of a cycle leave alone *)

Section Preserves.
Context (R : World → World → Prop) `{!Reflexive R} `{!Transitive R}.

Lemma preserves_ret {A} (a : A) : preserves R (mret a).
Proof. intros w r w' [= <- <-]. reflexivity. Qed.

Lemma preserves_lift {A} (x : result A) : preserves R (lift x).
Proof. intros w r w' [= <- <-]. reflexivity. Qed.

Lemma preserves_get_self : preserves R get_self.
Proof. intros w r w' [= <- <-]. reflexivity. Qed.

Lemma preserves_bind {A B} (m : M A) (f : A → M B) :
  preserves R m → (∀ a, preserves R (f a)) → preserves R (m ≫= f).
Proof.
  intros Hm Hf w r w' [(a & w1 & H1 & H2)|(e & H1 & _)]%bind_inv.
  - etrans; [by eapply Hm | by eapply Hf].
  - by eapply Hm.
Qed.
End Preserves.

Ltac preserves_step :=
  lazymatch goal with
  | |- preserves _ (mret _) => apply preserves_ret; try apply _
  | |- preserves _ (lift _) => apply preserves_lift; try apply _
  | |- preserves _ get_self => apply preserves_get_self; try apply _
  | |- preserves _ (_ ≫= _) =>
      apply preserves_bind; [try apply _ | | intros ?]
  | |- preserves _ (if ?b then _ else _) => destruct b
  | |- preserves _ (match ?x with _ => _ end) => destruct x
  end.

#[local] Instance quiet_refl : Reflexive quiet.
Proof. intros w. by unfold quiet. Qed.
#[local] Instance quiet_trans : Transitive quiet.
Proof. unfold quiet. intros w1 w2 w3 [] []. split; congruence. Qed.
#[local] Instance frame_refl : Reflexive frame.
Proof.
  intros w. unfold frame. split; [|tauto]. exists []. by rewrite app_nil_r.
Qed.
#[local] Instance frame_trans : Transitive frame.
Proof.
  unfold frame. intros w1 w2 w3 H1 H2.
  destruct H1 as ([l1 Hl1]&?&?&?&?&?&?&?&?&?&?&?&?&?&?),
    H2 as ([l2 Hl2]&?&?&?&?&?&?&?&?&?&?&?&?&?&?).
  split.
  { exists (l1 ++ l2). by rewrite Hl2, Hl1, (assoc_L (++)). }
  repeat split; try congruence. auto.
Qed.
#[local] Instance same_checks_d_refl : Reflexive same_checks_d.
Proof. intros w. by unfold same_checks_d. Qed.
#[local] Instance same_checks_d_trans : Transitive same_checks_d.
Proof. unfold same_checks_d. intros w1 w2 w3 [] []. split; congruence. Qed.
#[local] Instance same_cycle_refl : Reflexive same_cycle.
Proof. intros w. by unfold same_cycle, same_checks_d. Qed.
#[local] Instance same_cycle_trans : Transitive same_cycle.
Proof.
  unfold same_cycle, same_checks_d. intros w1 w2 w3 (?&?&?) (?&?&?).
  repeat split; congruence.
Qed.

(** The primitive steps, by computation. *)
Ltac preserves_prim :=
  let w := fresh "w" in
  let H := fresh "H" in
  intros w ? ? H; msimpl;
  repeat case_match; simplify_eq;
  unfold frame, quiet, same_cycle, same_checks_d, stop,
    set_emit_duration, set_metadata_start, set_run_count, set_continue_running,
    set_metadata_cache, set_checks_d;
  repeat match goal with x : World |- _ => destruct x as [[] ? ? ? ?] end; cbn;
  repeat split; try done;
  try (eexists; symmetry; apply app_nil_r); try (eexists; reflexivity).

Ltac preserves_tac :=
  repeat preserves_step; try (by auto with preserves); try preserves_prim.

Create HintDb preserves.

Lemma frame_should_send_metadata env : preserves frame (_should_send_metadata env).
Proof. unfold _should_send_metadata. preserves_tac. Qed.
Lemma quiet_should_send_metadata env : preserves quiet (_should_send_metadata env).
Proof. unfold _should_send_metadata. preserves_tac. Qed.
Lemma same_cycle_should_send_metadata env :
  preserves same_cycle (_should_send_metadata env).
Proof. unfold _should_send_metadata. preserves_tac. Qed.
#[local] Hint Resolve frame_should_send_metadata quiet_should_send_metadata
  same_cycle_should_send_metadata : preserves.

Lemma frame_get_metadata env : preserves frame (_get_metadata env).
Proof. unfold _get_metadata. preserves_tac. Qed.
Lemma quiet_get_metadata env : preserves quiet (_get_metadata env).
Proof. unfold _get_metadata. preserves_tac. Qed.
Lemma same_cycle_get_metadata env : preserves same_cycle (_get_metadata env).
Proof. unfold _get_metadata. preserves_tac. Qed.
#[local] Hint Resolve frame_get_metadata quiet_get_metadata
  same_cycle_get_metadata : preserves.

Lemma frame_build_payload env se : preserves frame (_build_payload env se).
Proof. unfold _build_payload. preserves_tac. Qed.
Lemma quiet_build_payload env se : preserves quiet (_build_payload env se).
Proof. unfold _build_payload. preserves_tac. Qed.
Lemma same_cycle_build_payload env se :
  preserves same_cycle (_build_payload env se).
Proof. unfold _build_payload. preserves_tac. Qed.
#[local] Hint Resolve frame_build_payload quiet_build_payload
  same_cycle_build_payload : preserves.

Lemma frame_begin_run env cd se : preserves frame (begin_run env cd se).
Proof. unfold begin_run. preserves_tac. Qed.
Lemma quiet_begin_run env cd se : preserves quiet (begin_run env cd se).
Proof. unfold begin_run. preserves_tac. Qed.
Lemma same_checks_d_begin_run env se :
  preserves same_checks_d (begin_run env None se).
Proof.
  unfold begin_run. repeat preserves_step;
    try (intros w r w' H; by apply (same_cycle_build_payload _ _ _ _ _ H));
    preserves_prim.
Qed.

Lemma frame_win32_system_checks n w32 L :
  preserves frame (win32_system_checks n w32 L).
Proof. unfold win32_system_checks. preserves_tac. Qed.
Lemma quiet_win32_system_checks n w32 L :
  preserves quiet (win32_system_checks n w32 L).
Proof. unfold win32_system_checks. preserves_tac. Qed.
Lemma same_cycle_win32_system_checks n w32 L :
  preserves same_cycle (win32_system_checks n w32 L).
Proof. unfold win32_system_checks. preserves_tac. Qed.
#[local] Hint Resolve frame_win32_system_checks quiet_win32_system_checks
  same_cycle_win32_system_checks : preserves.

Lemma frame_collect n L : preserves frame (collect n L).
Proof. unfold collect. preserves_tac. Qed.
Lemma quiet_collect n L : preserves quiet (collect n L).
Proof. unfold collect. preserves_tac. Qed.
Lemma same_cycle_collect n L : preserves same_cycle (collect n L).
Proof. unfold collect. preserves_tac. Qed.

Lemma frame_run_check_d env n i check L :
  preserves frame (run_check_d env n i check L).
Proof. unfold run_check_d. preserves_tac. Qed.
Lemma quiet_run_check_d env n i check L :
  preserves quiet (run_check_d env n i check L).
Proof. unfold run_check_d. preserves_tac. Qed.
Lemma same_cycle_run_check_d env n i check L :
  preserves same_cycle (run_check_d env n i check L).
Proof. unfold run_check_d. preserves_tac. Qed.
#[local] Hint Resolve frame_run_check_d quiet_run_check_d
  same_cycle_run_check_d : preserves.

Lemma frame_checks_d_loop env n checks : ∀ i L statuses,
  preserves frame (checks_d_loop env n i checks L statuses).
Proof. induction checks; intros; cbn [checks_d_loop]; preserves_tac. Qed.
Lemma quiet_checks_d_loop env n checks : ∀ i L statuses,
  preserves quiet (checks_d_loop env n i checks L statuses).
Proof. induction checks; intros; cbn [checks_d_loop]; preserves_tac. Qed.
Lemma same_cycle_checks_d_loop env n checks : ∀ i L statuses,
  preserves same_cycle (checks_d_loop env n i checks L statuses).
Proof. induction checks; intros; cbn [checks_d_loop]; preserves_tac. Qed.
#[local] Hint Resolve frame_checks_d_loop quiet_checks_d_loop
  same_cycle_checks_d_loop : preserves.

Lemma frame_init_failed_loop env items : ∀ i statuses,
  preserves frame (init_failed_loop env i items statuses).
Proof. induction items; intros; cbn [init_failed_loop]; preserves_tac. Qed.
Lemma quiet_init_failed_loop env items : ∀ i statuses,
  preserves quiet (init_failed_loop env i items statuses).
Proof. induction items; intros; cbn [init_failed_loop]; preserves_tac. Qed.
Lemma same_cycle_init_failed_loop env items : ∀ i statuses,
  preserves same_cycle (init_failed_loop env i items statuses).
Proof. induction items; intros; cbn [init_failed_loop]; preserves_tac. Qed.
#[local] Hint Resolve frame_init_failed_loop quiet_init_failed_loop
  same_cycle_init_failed_loop : preserves.

Lemma frame_checks_d env n L : preserves frame (checks_d env n L).
Proof. unfold checks_d. preserves_tac. Qed.
Lemma quiet_checks_d env n L : preserves quiet (checks_d env n L).
Proof. unfold checks_d. preserves_tac. Qed.
Lemma same_cycle_checks_d env n L : preserves same_cycle (checks_d env n L).
Proof. unfold checks_d. preserves_tac. Qed.

Lemma frame_emit_loop env n payload es : ∀ i statuses,
  preserves frame (emit_loop env n i payload es statuses).
Proof. induction es; intros; cbn [emit_loop]; preserves_tac. Qed.
Lemma same_cycle_emit_loop env n payload es : ∀ i statuses,
  preserves same_cycle (emit_loop env n i payload es statuses).
Proof. induction es; intros; cbn [emit_loop]; preserves_tac. Qed.
#[local] Hint Resolve frame_emit_loop same_cycle_emit_loop : preserves.

Lemma frame_emit env payload : preserves frame (_emit env payload).
Proof. unfold _emit. preserves_tac. Qed.
Lemma same_cycle_emit env payload : preserves same_cycle (_emit env payload).
Proof. unfold _emit. preserves_tac. Qed.
#[local] Hint Resolve frame_emit same_cycle_emit : preserves.

Lemma frame_finish_run env L statuses : preserves frame (finish_run env L statuses).
Proof. unfold finish_run. preserves_tac. Qed.
Lemma same_cycle_finish_run env L statuses :
  preserves same_cycle (finish_run env L statuses).
Proof. unfold finish_run. preserves_tac. Qed.

(** ** checks.d checks: one failure boundary per check *)

Lemma check_d_try_failure n check L e :
  invocation_failure n check = Some e →
  check_d_try n check L =
    (L, match check_run check n with Ok v => v | Raise _ => VList [] end,
     0%nat, 0%nat, Some e).
Proof.
  unfold invocation_failure, check_d_try. intros H.
  destruct (check_run check n); [|by simplify_eq].
  destruct (get_metrics check n); [|by simplify_eq].
  destruct (get_events check n); by simplify_eq.
Qed.

Lemma check_d_try_counts n check L L' inst mc ec e :
  check_d_try n check L = (L', inst, mc, ec, Some e) → mc = 0%nat ∧ ec = 0%nat.
Proof.
  unfold check_d_try. intros H. repeat case_match; by simplify_eq.
Qed.

Lemma check_d_try_payload n check L L' inst mc ec failure :
  check_d_try n check L = (L', inst, mc, ec, failure) → payload L' = payload L.
Proof.
  unfold check_d_try. intros H. repeat case_match; by simplify_eq.
Qed.

Lemma run_check_d_unfold env n i check L w :
  run_check_d env n i check L w =
  let '(L', inst, mc, ec, failure) := check_d_try n check L in
  let w1 := mkWorld (self w) (log w ++ [(INFO, Running_check (name check))])
              (sent w) (persisted w) (stopped w) in
  let w2 := if stop_signal env (DuringCheckD i) then stop w1 else w1 in
  let w3 := match failure with
            | Some e => mkWorld (self w2)
                          (log w2 ++ [(ERROR, Error_running_check (name check) e)])
                          (sent w2) (persisted w2) (stopped w2)
            | None => w2
            end in
  (Ok (L', mkCheckStatus (name check) inst (Some mc) (Some ec) None None), w3).
Proof.
  unfold run_check_d. msimpl.
  destruct (check_d_try n check L) as [[[[L' inst] mc] ec] [e|]]; reflexivity.
Qed.

Lemma run_check_d_status env n i check L w L' status w' :
  run_check_d env n i check L w = (Ok (L', status), w') →
  status_of_check n check status.
Proof.
  rewrite run_check_d_unfold.
  destruct (check_d_try n check L) as [[[[L1 inst] mc] ec] failure] eqn:Htry.
  intros [= <- <- <-]. unfold status_of_check. cbn.
  split_and!; [done | done | done | by eauto | | ].
  - intros e He. rewrite (check_d_try_failure _ _ L _ He) in Htry. by simplify_eq.
  - intros e He. unfold check_d_try in Htry. rewrite He in Htry. by simplify_eq.
Qed.

Lemma run_check_d_total env n i check L w :
  ∃ L' status w', run_check_d env n i check L w = (Ok (L', status), w').
Proof.
  rewrite run_check_d_unfold.
  destruct (check_d_try n check L) as [[[[L1 inst] mc] ec] failure]. eauto.
Qed.

Lemma run_check_d_payload env n i check L w L' status w' :
  run_check_d env n i check L w = (Ok (L', status), w') → payload L' = payload L.
Proof.
  rewrite run_check_d_unfold.
  destruct (check_d_try n check L) as [[[[L1 inst] mc] ec] failure] eqn:Htry.
  intros [= <- <- <-]. by eapply check_d_try_payload.
Qed.

Lemma run_check_d_running env n i check L w L' status w' :
  run_check_d env n i check L w = (Ok (L', status), w') →
  continue_running (self w') =
    (continue_running (self w) && negb (stop_signal env (DuringCheckD i)))%bool.
Proof.
  rewrite run_check_d_unfold.
  destruct (check_d_try n check L) as [[[[L1 inst] mc] ec] failure].
  intros [= <- <- <-].
  destruct w as [[] ? ? ? ?], failure, (stop_signal env (DuringCheckD i)); cbn;
    by rewrite ?andb_true_r, ?andb_false_r.
Qed.

Lemma checks_d_loop_total env n checks : ∀ i L acc w,
  ∃ r w', checks_d_loop env n i checks L acc w = (Ok r, w').
Proof.
  induction checks as [|check checks IH]; intros i L acc w; cbn [checks_d_loop].
  - eexists _, _. reflexivity.
  - msimpl. destruct (continue_running (self w)); cbn [negb]; [|by eauto].
    destruct (run_check_d_total env n i check L w) as (L' & st & w' & ->).
    apply IH.
Qed.

Lemma checks_d_loop_done env n checks : ∀ i L acc w L' statuses w',
  checks_d_loop env n i checks L acc w = (Ok (Done (L', statuses)), w') →
  ∃ new, statuses = acc ++ new ∧ Forall2 (status_of_check n) checks new ∧
         payload L' = payload L.
Proof.
  induction checks as [|check checks IH]; intros i L acc w L' statuses w';
    cbn [checks_d_loop]; msimpl.
  - intros [= <- <- <-]. exists []. by rewrite app_nil_r.
  - destruct (continue_running (self w)); cbn [negb]; [|done].
    destruct (run_check_d env n i check L w) as [[[L1 st]|e] w1] eqn:Hone; [|done].
    intros (new & -> & Hall & Hp)%IH. exists (st :: new).
    rewrite <- (assoc_L (++)). split_and!; [done| |].
    + constructor; [by eapply run_check_d_status | done].
    + rewrite Hp. by eapply run_check_d_payload.
Qed.

Lemma checks_d_loop_runs env n checks : ∀ i L acc w,
  continue_running (self w) = true →
  (∀ j, (i ≤ j)%nat → stop_signal env (DuringCheckD j) = false) →
  ∃ L' statuses w',
    checks_d_loop env n i checks L acc w = (Ok (Done (L', statuses)), w') ∧
    continue_running (self w') = true.
Proof.
  induction checks as [|check checks IH]; intros i L acc w Hrun Hsig;
    cbn [checks_d_loop]; msimpl.
  - eauto.
  - rewrite Hrun. cbn [negb].
    destruct (run_check_d_total env n i check L w) as (L1 & st & w1 & Hone).
    rewrite Hone. apply IH.
    + rewrite (run_check_d_running _ _ _ _ _ _ _ _ _ Hone), Hrun, Hsig by lia. done.
    + intros j Hj. apply Hsig. lia.
Qed.

Lemma checks_d_loop_stopped env n check checks i L acc w :
  continue_running (self w) = false →
  checks_d_loop env n i (check :: checks) L acc w = (Ok Return, w).
Proof. intros H. cbn [checks_d_loop]. msimpl. by rewrite H. Qed.

Lemma checks_d_loop_signal env n checks : ∀ i L acc w r w' j,
  (i ≤ j < i + length checks)%nat →
  stop_signal env (DuringCheckD j) = true →
  checks_d_loop env n i checks L acc w = (r, w') →
  continue_running (self w') = false.
Proof.
  induction checks as [|check checks IH]; intros i L acc w r w' j Hj Hsig;
    cbn [checks_d_loop length] in *; msimpl.
  - lia.
  - destruct (continue_running (self w)) eqn:Hrun; cbn [negb].
    2: { by intros [= <- <-]. }
    destruct (run_check_d env n i check L w) as [[[L1 st]|e] w1] eqn:Hone.
    2: { destruct (run_check_d_total env n i check L w) as (? & ? & ? & ?).
         congruence. }
    intros Hloop. destruct (decide (j = i)) as [->|Hne].
    + pose proof (run_check_d_running _ _ _ _ _ _ _ _ _ Hone) as Hw1.
      rewrite Hsig, andb_false_r in Hw1.
      by apply (frame_checks_d_loop _ _ _ _ _ _ _ _ _ Hloop).
    + eapply (IH (S i)); [|done|done]. lia.
Qed.

(** ** The checks that failed to initialize *)

Lemma init_failed_loop_total env items : ∀ i acc w,
  ∃ r w', init_failed_loop env i items acc w = (Ok r, w').
Proof.
  induction items as [|[check_name info] items IH]; intros i acc w;
    cbn [init_failed_loop]; msimpl.
  - eauto.
  - destruct (continue_running (self w)); cbn [negb]; [apply IH | by eauto].
Qed.

Lemma init_failed_loop_done env items : ∀ i acc w statuses w',
  init_failed_loop env i items acc w = (Ok (Done statuses), w') →
  ∃ new, statuses = acc ++ new ∧ Forall2 status_of_init_failure items new.
Proof.
  induction items as [|[check_name info] items IH]; intros i acc w statuses w';
    cbn [init_failed_loop]; msimpl.
  - intros [= <- <-]. exists []. by rewrite app_nil_r.
  - destruct (continue_running (self w)); cbn [negb]; [|done].
    intros (new & -> & Hall)%IH. eexists (_ :: new).
    rewrite <- (assoc_L (++)). split; [done|]. by constructor.
Qed.

Lemma init_failed_loop_runs env items : ∀ i acc w,
  continue_running (self w) = true →
  (∀ j, (i ≤ j)%nat → stop_signal env (DuringInitFailed j) = false) →
  ∃ statuses w',
    init_failed_loop env i items acc w = (Ok (Done statuses), w') ∧
    continue_running (self w') = true.
Proof.
  induction items as [|[check_name info] items IH]; intros i acc w Hrun Hsig;
    cbn [init_failed_loop]; msimpl.
  - eauto.
  - rewrite Hrun. cbn [negb]. rewrite Hsig by lia. apply IH; [done|].
    intros j Hj. apply Hsig. lia.
Qed.

Lemma init_failed_loop_stopped env item items i acc w :
  continue_running (self w) = false →
  init_failed_loop env i (item :: items) acc w = (Ok Return, w).
Proof.
  intros H. destruct item. cbn [init_failed_loop]. msimpl. by rewrite H.
Qed.

(** ** The phases of [run] *)

Lemma checks_d_inv env n L w r w' :
  checks_d env n L w = (r, w') →
  match r with
  | Raise e => e = AttributeError ∧ init_failed_checks_d (self w) = InitFailedList
  | Ok Return => True
  | Ok (Done (L', statuses)) =>
      ∃ items s1 s2,
        init_failed_checks_d (self w) = InitFailedDict items ∧
        statuses = s1 ++ s2 ∧
        Forall2 (status_of_check n) (initialized_checks_d (self w)) s1 ∧
        Forall2 status_of_init_failure items s2 ∧
        payload L' = payload L
  end.
Proof.
  unfold checks_d. msimpl.
  destruct (checks_d_loop env n 0 (initialized_checks_d (self w)) L [] w)
    as [[[[L1 s1]|]|e] w1] eqn:Hloop.
  - apply checks_d_loop_done in Hloop as Hdone.
    destruct Hdone as (new & -> & Hall & Hp).
    apply same_cycle_checks_d_loop in Hloop as (_ & _ & Hif).
    unfold iteritems. rewrite Hif.
    destruct (init_failed_checks_d (self w)) as [|items]; [by intros [= <- <-]|].
    destruct (init_failed_loop env 0 items ([] ++ new) w1)
      as [[[s|]|e] w2] eqn:Hloop2.
    + intros [= <- <-]. apply init_failed_loop_done in Hloop2 as (s2 & -> & Hall2).
      by exists items, new, s2.
    + by intros [= <- <-].
    + destruct (init_failed_loop_total env items 0 ([] ++ new) w1) as (?&?&?).
      congruence.
  - by intros [= <- <-].
  - destruct (checks_d_loop_total env n (initialized_checks_d (self w)) 0 L [] w)
      as (?&?&?). congruence.
Qed.

Lemma run_inv env cd se w r w' :
  run env cd se w = (r, w') →
  (∃ e, r = Raise e ∧ begin_run env cd se w = (Raise e, w')) ∨
  ∃ n L0 w1, begin_run env cd se w = (Ok (n, L0), w1) ∧
    ((∃ e, r = Raise e ∧ collect n L0 w1 = (Raise e, w')) ∨
     ∃ L1 w2, collect n L0 w1 = (Ok L1, w2) ∧
       ((∃ e, r = Raise e ∧ checks_d env n L1 w2 = (Raise e, w')) ∨
        (r = Ok Stopped ∧ checks_d env n L1 w2 = (Ok Return, w')) ∨
        ∃ L2 statuses w3,
          checks_d env n L1 w2 = (Ok (Done (L2, statuses)), w3) ∧
          finish_run env L2 statuses w3 = (r, w'))).
Proof.
  unfold run. rewrite bind_unfold.
  destruct (begin_run env cd se w) as [[[n L0]|e] w1] eqn:Hbegin;
    [|intros [= <- <-]; eauto].
  rewrite bind_unfold.
  destruct (collect n L0 w1) as [[L1|e] w2] eqn:Hcollect.
  2: { intros [= <- <-]. right. exists n, L0, w1. split; [done|]. left. eauto. }
  rewrite bind_unfold.
  destruct (checks_d env n L1 w2) as [[[[L2 sts]|]|e] w3] eqn:Hchecks;
    intros H; right;
    exists n, L0, w1; (split; [done|]); right; exists L1, w2; (split; [done|]).
  - right. right. eauto.
  - injection H as <- <-. right. left. done.
  - injection H as <- <-. left. eauto.
Qed.

Lemma frame_interrupt env ph : preserves frame (interrupt env ph).
Proof. preserves_prim. Qed.
Lemma quiet_interrupt env ph : preserves quiet (interrupt env ph).
Proof. preserves_prim. Qed.

Lemma finish_run_inv env L statuses w r w' :
  finish_run env L statuses w = (r, w') →
  (∃ e, r = Raise e ∧ quiet w w' ∧
        ∃ k p d em c, _agent_metrics (self w) k p d em c ≫= py_iter = Raise e) ∨
  ∃ agent attempted skipped sent_statuses status,
    let p := <["metrics" := VList (metrics L ++ agent)]>
             (<["events" := VDict (events L)]>
             (<["metrics" := VList (metrics L)]> (payload L))) in
    r = Ok (Completed p) ∧
    emitters (self w) = attempted ++ skipped ∧
    sent w' = sent w ++ ((λ e, (__name__ e, p)) <$> attempted) ∧
    persisted w' = persisted w ++ [status] ∧
    check_statuses status = statuses ∧
    emitter_statuses status = sent_statuses ∧
    length sent_statuses = length attempted ∧
    (continue_running (self w) = false → attempted = []) ∧
    (skipped ≠ [] → continue_running (self w') = false).
Proof.
  unfold finish_run. rewrite bind_unfold. unfold interrupt at 1.
  set (w1 := if stop_signal env DuringAgentMetrics then stop w else w).
  assert (Hw1 : quiet w w1 ∧ frame w w1).
  { split; [by eapply (quiet_interrupt env DuringAgentMetrics w (Ok tt))
           |by eapply (frame_interrupt env DuringAgentMetrics w (Ok tt))]. }
  destruct Hw1 as ([Hs1 Hp1] & _ & Hstop & _ & _ & Hem & _ & _ & _ & _ & Hagent & _).
  rewrite bind_unfold. cbn [get_self]. rewrite bind_unfold. unfold lift at 1.
  set (p0 := <["events" := VDict (events L)]>
             (<["metrics" := VList (metrics L)]> (payload L))).
  destruct (_ ≫= py_iter) as [agent|e] eqn:Hcall.
  2: { intros [= <- <-]. left. eexists. split; [done|]. split; [by split|].
       rewrite Hagent in Hcall. eauto 8. }
  rewrite bind_unfold. unfold _emit at 1. rewrite bind_unfold. cbn [get_self].
  set (p := <["metrics" := VList (metrics L ++ agent)]> p0).
  destruct (emit_loop_spec env (run_count (self w1)) p (emitters (self w1)) 0 [] w1)
    as (att & skip & ests & w2 & -> & Hes & Hall & Hsent & Hpers & _ & Hskip & Hnone & _).
  intros H. right. exists agent, att, skip, ests.
  eexists (mkCollectorStatus statuses ests _).
  assert (Hfin : ∃ l, w' = mkWorld (set_emit_duration (Some (timer_step_emit env)) (self w2))
                   (log w2 ++ l) (sent w2)
                   (persisted w2 ++ [mkCollectorStatus statuses ests
                      (metadata_cache (set_emit_duration (Some (timer_step_emit env)) (self w2)))])
                   (stopped w2) ∧ r = Ok (Completed p)).
  { revert H. msimpl.
    destruct (persist env _); msimpl;
      (destruct (_ || _)%bool; msimpl; [destruct (Nat.eqb _ FLUSH_LOGGING_INITIAL)|]);
      msimpl; intros [= <- <-];
      eexists; (split; [|reflexivity]); rewrite <- ?(assoc_L (++)); try reflexivity.
    all: by rewrite app_nil_r. }
  destruct Hfin as (l & -> & ->). cbn.
  split_and!; try done.
  - congruence.
  - by rewrite Hsent, Hs1.
  - by rewrite Hpers, Hp1.
  - symmetry. by eapply Forall2_length.
  - auto.
  - intros Hne. specialize (Hskip Hne). by destruct (self w2).
Qed.

(** * Dispatch to the emitters *)

(** C8: [_emit] never raises and walks the configured emitters in order.
    Every emitter it attempts is sent the payload and gets exactly one
    EmitterStatus, in the order of the attempts, carrying the exception when
    the emitter raised (which is also logged) and no failure reason when it
    returned.  A raising emitter does not keep the later ones from being
    attempted: emitters are left out only when the stop flag was found set,
    and when no stop is requested all configured emitters are attempted. *)
Theorem emit_isolates_each_emitter env payload w :
  ∃ attempted skipped statuses w',
    _emit env payload w = (Ok statuses, w') ∧
    emitters (self w) = attempted ++ skipped ∧
    Forall2 (λ e s, es_name s = __name__ e ∧
                    es_error s = match emit_call e (run_count (self w)) payload with
                                 | Ok _ => None
                                 | Raise x => Some x
                                 end) attempted statuses ∧
    sent w' = sent w ++ ((λ e, (__name__ e, payload)) <$> attempted) ∧
    (∀ e x, e ∈ attempted →
            emit_call e (run_count (self w)) payload = Raise x →
            (ERROR, Error_running_emitter (__name__ e) x) ∈ log w') ∧
    (skipped ≠ [] → continue_running (self w') = false) ∧
    (continue_running (self w) = true →
     (∀ i, stop_signal env (DuringEmitter i) = false) →
     skipped = []).
Proof.
  destruct (emit_loop_spec env (run_count (self w)) payload (emitters (self w)) 0 [] w)
    as (att & skip & sts & w' & Hrun & Hes & Hall & Hsent & _ & Hlog & Hskip & _ & Hfull).
  exists att, skip, sts, w'. split_and!; try done.
  - destruct Hlog as (l & Hl & Hin). intros e x He Hx. rewrite Hl.
    apply elem_of_app. right. eauto.
  - intros Hrun' Hsig. apply Hfull; [done|]. intros j _. apply Hsig.
Qed.

Lemma emit_isolates_each_emitter_witness :
  continue_running (self Scenario.two_emitters) = true ∧
  (∀ i, stop_signal Scenario.calm (DuringEmitter i) = false) ∧
  (_emit Scenario.calm ∅ Scenario.two_emitters).1 =
    Ok [mkEmitterStatus "broken_emitter" (Some (Failure "connection refused"));
        mkEmitterStatus "http_emitter" None] ∧
  ∃ attempted skipped statuses w',
    _emit Scenario.calm ∅ Scenario.two_emitters = (Ok statuses, w') ∧
    emitters (self Scenario.two_emitters) = attempted ++ skipped ∧
    Forall2 (λ e s, es_name s = __name__ e ∧
                    es_error s =
                      match emit_call e (run_count (self Scenario.two_emitters)) ∅ with
                      | Ok _ => None
                      | Raise x => Some x
                      end) attempted statuses ∧
    sent w' = sent Scenario.two_emitters ++ ((λ e, (__name__ e, ∅)) <$> attempted) ∧
    (∀ e x, e ∈ attempted →
            emit_call e (run_count (self Scenario.two_emitters)) ∅ = Raise x →
            (ERROR, Error_running_emitter (__name__ e) x) ∈ log w') ∧
    (skipped ≠ [] → continue_running (self w') = false) ∧
    (continue_running (self Scenario.two_emitters) = true →
     (∀ i, stop_signal Scenario.calm (DuringEmitter i) = false) →
     skipped = []).
Proof.
  split; [reflexivity|]. split; [intros i; reflexivity|].
  split; [vm_compute; reflexivity|].
  apply (emit_isolates_each_emitter Scenario.calm ∅ Scenario.two_emitters).
Defined.

Lemma run_count_set_run_count x c : run_count (set_run_count x c) = x.
Proof. by destruct c. Qed.

Lemma begin_run_inv env cd se w n L0 w1 :
  begin_run env cd se w = (Ok (n, L0), w1) →
  n = S (run_count (self w)) ∧
  run_count (self w1) = n ∧
  initialized_checks_d (self w1) =
    match cd with
    | Some c => initialized_checks c
    | None => initialized_checks_d (self w)
    end ∧
  init_failed_checks_d (self w1) =
    match cd with
    | Some c => InitFailedDict (init_failed_checks c)
    | None => init_failed_checks_d (self w)
    end ∧
  ∃ built w0 w0' m e,
    _build_payload env se w0 = (Ok built, w0') ∧
    run_count (self w0) = n ∧
    frame w w0 ∧
    built !! "metrics" = Some (VList m) ∧
    built !! "events" = Some (VDict e) ∧
    L0 = mkLocals (delete "events" (delete "metrics" built)) m e.
Proof.
  unfold begin_run. msimpl.
  match goal with
  | |- context [_build_payload env se ?w0] =>
      set (W0 := w0);
      assert (HW0 : run_count (self W0) = S (run_count (self w)) ∧ frame w W0
                    ∧ same_checks_d w W0)
  end.
  { unfold W0, frame, same_checks_d, stop, set_run_count, set_continue_running.
    destruct w as [[] ? ? ? ?], (stop_signal env DuringBuildPayload); cbn;
      split_and!; try done; by eexists. }
  destruct HW0 as (Hn & Hframe & Hsame).
  destruct (_build_payload env se W0) as [[built|?] w0'] eqn:Hbuild; [|done].
  apply same_cycle_build_payload in Hbuild as Hcycle.
  destruct Hcycle as (Hn' & Hc1 & Hc2). destruct Hsame as [Hs1 Hs2].
  unfold py_item, as_list, as_dict.
  destruct (built !! "metrics") as [[| | | |m|]|] eqn:Hm; try done.
  destruct (built !! "events") as [[| | | | |e]|] eqn:He; try done.
  intros H.
  rewrite run_count_set_run_count in H.
  assert (Hrc : run_count (self W0) = n) by (destruct cd; by simplify_eq).
  assert (HL : L0 = mkLocals (delete "events" (delete "metrics" built)) m e)
    by (by destruct cd; simplify_eq).
  split_and!.
  - congruence.
  - rewrite <- Hrc, <- Hn'. clear -H.
    destruct cd, w0' as [[] ? ? ? ?], (stop_signal env DuringChecks);
      by simplify_eq.
  - rewrite <- Hs1, <- Hc1. clear -H.
    destruct cd, w0' as [[] ? ? ? ?], (stop_signal env DuringChecks);
      by simplify_eq.
  - rewrite <- Hs2, <- Hc2. clear -H.
    destruct cd, w0' as [[] ? ? ? ?], (stop_signal env DuringChecks);
      by simplify_eq.
  - exists built, W0, w0', m, e. by rewrite Hbuild.
Qed.

Lemma run_completed env cd se w p w' :
  run env cd se w = (Ok (Completed p), w') →
  ∃ n L0 w1 L1 w2 L2 statuses w3,
    begin_run env cd se w = (Ok (n, L0), w1) ∧
    collect n L0 w1 = (Ok L1, w2) ∧
    checks_d env n L1 w2 = (Ok (Done (L2, statuses)), w3) ∧
    finish_run env L2 statuses w3 = (Ok (Completed p), w').
Proof.
  intros [(e & [=] & _)|(n & L0 & w1 & Hb & H)]%run_inv.
  destruct H as [(e & [=] & _)|(L1 & w2 & Hc & H)].
  destruct H as [(e & [=] & _)|[([=] & _)|(L2 & sts & w3 & Hd & Hf)]].
  eauto 12.
Qed.

Lemma checks_d_loop_return env n checks : ∀ i L acc w w',
  checks_d_loop env n i checks L acc w = (Ok Return, w') →
  continue_running (self w') = false.
Proof.
  induction checks as [|check checks IH]; intros i L acc w w';
    cbn [checks_d_loop]; msimpl; [done|].
  destruct (continue_running (self w)) eqn:Hrun; cbn [negb].
  - destruct (run_check_d env n i check L w) as [[[L1 st]|e] w1]; [|done].
    apply IH.
  - by intros [= <-].
Qed.

(** The statuses a completed cycle hands to the persistence: one per stored
    checks.d check, in order, then one per check that failed to initialize. *)
Lemma run_completed_statuses env cd se w p w' :
  run env cd se w = (Ok (Completed p), w') →
  ∃ status s1 s2 items,
    persisted w' = persisted w ++ [status] ∧
    check_statuses status = s1 ++ s2 ∧
    Forall2 (status_of_check (run_count (self w')))
      (initialized_checks_d (self w')) s1 ∧
    init_failed_checks_d (self w') = InitFailedDict items ∧
    Forall2 status_of_init_failure items s2.
Proof.
  intros (n & L0 & w1 & L1 & w2 & L2 & sts & w3 & Hb & Hc & Hd & Hf)%run_completed.
  apply begin_run_inv in Hb as Hn. destruct Hn as (_ & Hn & _).
  apply quiet_begin_run in Hb as [_ Hp1].
  apply quiet_collect in Hc as Hq. destruct Hq as [_ Hp2].
  apply same_cycle_collect in Hc as (Hn2 & _).
  apply quiet_checks_d in Hd as Hq. destruct Hq as [_ Hp3].
  apply same_cycle_checks_d in Hd as Hs. destruct Hs as (Hn3 & Hi3 & Hf3).
  apply same_cycle_finish_run in Hf as Hs. destruct Hs as (Hn4 & Hi4 & Hf4).
  apply checks_d_inv in Hd as (items & s1 & s2 & Hitems & -> & Hall1 & Hall2 & _).
  apply finish_run_inv in Hf as [(e & [=] & _)|Hfin].
  destruct Hfin as (agent & att & skip & ests & status & _ & _ & _ & Hpers & Hcs & _).
  exists status, s1, s2, items. split_and!.
  - rewrite Hpers. congruence.
  - done.
  - rewrite Hi4, Hi3. replace (run_count (self w')) with n by congruence. done.
  - congruence.
  - done.
Qed.

Lemma completes_eq (x : result Cycle * World) :
  completes x = true → x = (Ok (Completed (built_payload x)), x.2).
Proof.
  unfold completes, built_payload. destruct x as [[[|p]|e] w]; by cbn.
Qed.

(** * checks.d checks that raise *)

Lemma run_check_d_details env n i check L w L' status w' :
  run_check_d env n i check L w = (Ok (L', status), w') →
  status_details n check status.
Proof.
  rewrite run_check_d_unfold. unfold check_d_try, status_details, invocation_failure.
  destruct (check_run check n) as [inst|]; [|by intros [= <- <- <-]].
  destruct (get_metrics check n) as [ms|]; [|by intros [= <- <- <-]].
  destruct (get_events check n) as [evs|]; [|by intros [= <- <- <-]].
  destruct (match evs with [] => _ | _ => _ end) as [events'|] eqn:Hmerge.
  - intros [= <- <- <-]. cbn. split; [done|]. intros ? ? _ [= <-] [= <-]. by left.
  - intros [= <- <- <-]. cbn. split; [done|]. intros ? ? _ [= <-] [= <-].
    right. by destruct evs.
Qed.

Lemma checks_d_loop_details env n checks : ∀ i L acc w L' statuses w',
  checks_d_loop env n i checks L acc w = (Ok (Done (L', statuses)), w') →
  ∃ new, statuses = acc ++ new ∧
         Forall2 (λ c s, status_of_check n c s ∧ status_details n c s) checks new.
Proof.
  induction checks as [|check checks IH]; intros i L acc w L' statuses w';
    cbn [checks_d_loop]; msimpl.
  - intros [= <- <- <-]. exists []. by rewrite app_nil_r.
  - destruct (continue_running (self w)); cbn [negb]; [|done].
    destruct (run_check_d env n i check L w) as [[[L1 st]|e] w1] eqn:Hone; [|done].
    intros (new & -> & Hall)%IH. exists (st :: new).
    rewrite <- (assoc_L (++)). split; [done|].
    constructor; [|done].
    split; [by eapply run_check_d_status | by eapply run_check_d_details].
Qed.

Lemma checks_d_details env n L w L' statuses w' :
  checks_d env n L w = (Ok (Done (L', statuses)), w') →
  ∃ s1 s2, statuses = s1 ++ s2 ∧
    Forall2 (λ c s, status_of_check n c s ∧ status_details n c s)
      (initialized_checks_d (self w)) s1.
Proof.
  unfold checks_d. msimpl.
  destruct (checks_d_loop env n 0 (initialized_checks_d (self w)) L [] w)
    as [[[[L1 s1]|]|e] w1] eqn:Hloop; [|done|done].
  apply checks_d_loop_details in Hloop as (new & -> & Hall).
  destruct (iteritems _) as [items|]; [|done].
  destruct (init_failed_loop env 0 items ([] ++ new) w1) as [[[s|]|e] w2] eqn:Hloop2;
    [|done|done].
  intros [= <- <- <-].
  apply init_failed_loop_done in Hloop2 as (s2 & -> & _).
  by exists new, s2.
Qed.

(** C2 (as the code has it): the loop over the checks.d checks never
    raises, whatever the checks do.  When it runs to its end it has produced
    exactly one CheckStatus per check, in order, each carrying the name of
    its check; the status of a check whose invocation raised has
    [metric_count] 0 and [event_count] 0; its instance results are empty
    when it is [run()] that raised, and are what [run()] returned when
    [get_metrics()] or [get_events()] raised afterwards.  The status of a
    check whose calls returned, its events merging, carries the results of
    [run()] and the numbers of its metrics and events.  A raising check
    does not keep the later ones from running: the loop is left early only
    at a stop checkpoint.  A cycle that completes hands these statuses, one
    per stored check, to the persistence of the run status. *)
Theorem raising_check_d_gets_zero_status env n checks L w :
  (∃ r w',
     checks_d_loop env n 0 checks L [] w = (Ok r, w') ∧
     match r with
     | Done (L', statuses) =>
         Forall2 (λ c s, status_of_check n c s ∧ status_details n c s)
           checks statuses
     | Return => continue_running (self w') = false
     end ∧
     (continue_running (self w) = true →
      (∀ j, stop_signal env (DuringCheckD j) = false) →
      r ≠ Return)) ∧
  (∀ i check instance_statuses current_check_metrics current_check_events,
     check_run check n = Ok instance_statuses →
     get_metrics check n = Ok current_check_metrics →
     get_events check n = Ok current_check_events →
     current_check_events = [] ∨ events L !! name check = None ∨
       (∃ old, events L !! name check = Some (VList old)) →
     ∃ L' w',
       run_check_d env n i check L w =
         (Ok (L', mkCheckStatus (name check) instance_statuses
                    (Some (length current_check_metrics))
                    (Some (length current_check_events)) None None), w')) ∧
  (∀ cd se p w',
     run env cd se w = (Ok (Completed p), w') →
     ∃ status s1 s2,
       persisted w' = persisted w ++ [status] ∧
       check_statuses status = s1 ++ s2 ∧
       Forall2 (λ c s, status_of_check (run_count (self w')) c s ∧
                       status_details (run_count (self w')) c s)
         (initialized_checks_d (self w')) s1).
Proof.
  split_and!.
  - destruct (checks_d_loop_total env n checks 0 L [] w) as (r & w' & Hloop).
    exists r, w'. split; [done|]. split.
    + destruct r as [[L' sts]|].
      * by apply checks_d_loop_details in Hloop as (new & -> & Hall).
      * by eapply checks_d_loop_return.
    + intros Hrun Hsig.
      assert (Hsig' : ∀ j, (0 ≤ j)%nat → stop_signal env (DuringCheckD j) = false)
        by (intros; apply Hsig).
      destruct (checks_d_loop_runs env n checks 0 L [] w Hrun Hsig')
        as (?&?&?&Hd&_).
      rewrite Hd in Hloop. by simplify_eq.
  - intros i check inst ms evs Hrun Hms Hevs Hmerge.
    rewrite run_check_d_unfold. unfold check_d_try. rewrite Hrun, Hms, Hevs.
    destruct evs as [|ev evs]; [by eexists _, _|].
    unfold merge_events. cbn [events set_metrics].
    destruct Hmerge as [?|[->|[old ->]]]; [done| |]; by eexists _, _.
  - intros cd se p w'
      (k & L0 & w1 & L1 & w2 & L2 & sts & w3 & Hb & Hc & Hd & Hf)%run_completed.
    apply begin_run_inv in Hb as Hn. destruct Hn as (_ & Hn & _).
    apply quiet_begin_run in Hb as [_ Hp1].
    apply quiet_collect in Hc as Hq. destruct Hq as [_ Hp2].
    apply same_cycle_collect in Hc as (Hn2 & _).
    apply quiet_checks_d in Hd as Hq. destruct Hq as [_ Hp3].
    apply same_cycle_checks_d in Hd as Hs. destruct Hs as (Hn3 & Hi3 & _).
    apply same_cycle_finish_run in Hf as Hs. destruct Hs as (Hn4 & Hi4 & _).
    apply checks_d_details in Hd as (s1 & s2 & -> & Hall).
    apply finish_run_inv in Hf as [(e & [=] & _)|Hfin].
    destruct Hfin as (agent & att & skip & ests & status & _ & _ & _ & Hpers & Hcs & _).
    exists status, s1, s2. split_and!.
    + rewrite Hpers. congruence.
    + done.
    + rewrite Hi4, Hi3. replace (run_count (self w')) with k by congruence. done.
Qed.

(** When [run()] returned and it is [get_metrics()] that raises, the counts
    are zero and the instance results are the ones [run()] returned. *)
Example get_metrics_failure_keeps_instance_statuses :
  check_d_try 1 Scenario.flaky_metrics no_locals
    = (no_locals, VList [VStr "instance #0 OK"], 0%nat, 0%nat,
       Some (Failure "boom")).
Proof. reflexivity. Qed.

(** C2, as stated, fails for a check whose [run()] returns and whose
    [get_metrics()] raises: the instance results in its status are not
    empty, they are the ones [run()] returned.  In a first cycle with such a
    check followed by a second check, both get their status and the status
    of the first carries the instance results with zero counts. *)
Lemma get_metrics_failure_keeps_instance_results :
  check_run Scenario.flaky_metrics 1%nat = Ok (VList [VStr "instance #0 OK"]) ∧
  invocation_failure 1 Scenario.flaky_metrics = Some (Failure "boom") ∧
  completes Cases.flaky_cycle = true ∧
  check_statuses <$> persisted Cases.flaky_cycle.2 =
    [[mkCheckStatus "flaky_metrics" (VList [VStr "instance #0 OK"])
        (Some 0%nat) (Some 0%nat) None None;
      mkCheckStatus "redis" (VList [VStr "instance #0 OK"])
        (Some 2%nat) (Some 1%nat) None None]].
Proof. vm_compute. repeat split. Qed.

Lemma raising_check_d_gets_zero_status_witness :
  continue_running (self (Scenario.linux [])) = true ∧
  (∀ j, stop_signal Scenario.calm (DuringCheckD j) = false) ∧
  Scenario.first_cycle =
    (Ok (Completed (built_payload Scenario.first_cycle)), Scenario.first_cycle.2) ∧
  check_statuses <$> persisted Scenario.first_cycle.2 =
    [[mkCheckStatus "disk_extra" (VList []) (Some 0%nat) (Some 0%nat) None None;
      mkCheckStatus "redis" (VList [VStr "instance #0 OK"])
        (Some 2%nat) (Some 1%nat) None None;
      mkCheckStatus "bad_plugin" VNone None None
        (Some (VStr "ImportError: x")) (Some (VStr "Traceback"))]] ∧
  (∃ r w',
     checks_d_loop Scenario.calm 1 0 [Scenario.disk_extra; Scenario.redis]
       (mkLocals ∅ [] ∅) [] (Scenario.linux []) = (Ok r, w') ∧
     match r with
     | Done (L', statuses) =>
         Forall2 (λ c s, status_of_check 1 c s ∧ status_details 1 c s)
           [Scenario.disk_extra; Scenario.redis] statuses
     | Return => continue_running (self w') = false
     end ∧
     (continue_running (self (Scenario.linux [])) = true →
      (∀ j, stop_signal Scenario.calm (DuringCheckD j) = false) →
      r ≠ Return)) ∧
  (∃ L' w',
     run_check_d Scenario.calm 1 1 Scenario.redis (mkLocals ∅ [] ∅)
       (Scenario.linux []) =
       (Ok (L', mkCheckStatus (name Scenario.redis) (VList [VStr "instance #0 OK"])
                  (Some (length [VStr "redis.clients"; VStr "redis.keys"]))
                  (Some (length [VStr "redis restarted"])) None None), w')) ∧
  (∃ status s1 s2,
     persisted Scenario.first_cycle.2
       = persisted (Scenario.linux []) ++ [status] ∧
     check_statuses status = s1 ++ s2 ∧
     Forall2 (λ c s, status_of_check (run_count (self Scenario.first_cycle.2)) c s ∧
                     status_details (run_count (self Scenario.first_cycle.2)) c s)
       (initialized_checks_d (self Scenario.first_cycle.2)) s1).
Proof.
  assert (Hrun : Scenario.first_cycle =
    (Ok (Completed (built_payload Scenario.first_cycle)), Scenario.first_cycle.2))
    by (apply completes_eq; vm_compute; reflexivity).
  split; [reflexivity|]. split; [intros j; reflexivity|].
  split; [exact Hrun|].
  split; [vm_compute; reflexivity|].
  destruct (raising_check_d_gets_zero_status Scenario.calm 1
              [Scenario.disk_extra; Scenario.redis] (mkLocals ∅ [] ∅)
              (Scenario.linux [])) as (Hloop & Hone & Hcycle).
  split; [exact Hloop|].
  split.
  - apply (Hone 1%nat Scenario.redis (VList [VStr "instance #0 OK"])
             [VStr "redis.clients"; VStr "redis.keys"] [VStr "redis restarted"]);
      [reflexivity..|].
    right. left. reflexivity.
  - exact (Hcycle (Some Scenario.two_checks) true _ _ Hrun).
Defined.

(** * Cooperative stop *)

Lemma init_failed_loop_return env items : ∀ i acc w w',
  init_failed_loop env i items acc w = (Ok Return, w') →
  continue_running (self w') = false.
Proof.
  induction items as [|[check_name info] items IH]; intros i acc w w';
    cbn [init_failed_loop]; msimpl; [done|].
  destruct (continue_running (self w)) eqn:Hrun; cbn [negb].
  - apply IH.
  - by intros [= <-].
Qed.

Lemma checks_d_return env n L w w' :
  checks_d env n L w = (Ok Return, w') → continue_running (self w') = false.
Proof.
  unfold checks_d. msimpl.
  destruct (checks_d_loop env n 0 (initialized_checks_d (self w)) L [] w)
    as [[[[L1 s1]|]|e] w1] eqn:Hloop; [| |done].
  - destruct (iteritems _) as [items|]; [|done].
    destruct (init_failed_loop env 0 items s1 w1) as [[[s|]|e] w2] eqn:Hloop2;
      try done.
    intros [= <-]. by eapply init_failed_loop_return.
  - intros [= <-]. by eapply checks_d_loop_return.
Qed.

Lemma checks_d_signal env n L w r w' j :
  (j < length (initialized_checks_d (self w)))%nat →
  stop_signal env (DuringCheckD j) = true →
  checks_d env n L w = (r, w') →
  continue_running (self w') = false.
Proof.
  intros Hj Hsig. unfold checks_d. msimpl.
  destruct (checks_d_loop env n 0 (initialized_checks_d (self w)) L [] w)
    as [[[[L1 s1]|]|e] w1] eqn:Hloop.
  - eapply (checks_d_loop_signal _ _ _ _ _ _ _ _ _ j) in Hloop as Hstop;
      [|lia|done].
    destruct (iteritems _) as [items|]; [|by intros [= <- <-]].
    destruct (init_failed_loop env 0 items s1 w1) as [[[s|]|e] w2] eqn:Hloop2;
      intros [= <- <-]; by apply (frame_init_failed_loop _ _ _ _ _ _ _ Hloop2).
  - intros [= <- <-]. by eapply checks_d_loop_return.
  - destruct (checks_d_loop_total env n (initialized_checks_d (self w)) 0 L [] w)
      as (?&?&?). congruence.
Qed.

(** The checkpoints: with the stop flag set, a turn of the checks.d loop and
    a turn of the loop over the checks that failed to initialize execute
    [return], and a turn of the emitter loop returns the statuses gathered
    so far; none of them touches the world. *)
Lemma stop_checkpoint env n i w :
  continue_running (self w) = false →
  (∀ check checks L acc,
     checks_d_loop env n i (check :: checks) L acc w = (Ok Return, w)) ∧
  (∀ item items acc,
     init_failed_loop env i (item :: items) acc w = (Ok Return, w)) ∧
  (∀ payload emitter emitters acc,
     emit_loop env n i payload (emitter :: emitters) acc w = (Ok acc, w)).
Proof.
  intros Hstop. split_and!; intros.
  - by apply checks_d_loop_stopped.
  - by apply init_failed_loop_stopped.
  - cbn [emit_loop]. msimpl. by rewrite Hstop.
Qed.

Lemma checks_d_stopped env n L w :
  continue_running (self w) = false →
  initialized_checks_d (self w) ≠ [] ∨
    (∃ item items, init_failed_checks_d (self w) = InitFailedDict (item :: items)) →
  checks_d env n L w = (Ok Return, w).
Proof.
  intros Hstop Hsome. unfold checks_d. msimpl.
  destruct (initialized_checks_d (self w)) as [|check checks] eqn:Hchecks.
  - destruct Hsome as [?|(item & items & Hitems)]; [done|].
    cbn [checks_d_loop]. msimpl. rewrite Hitems. cbn [iteritems].
    by rewrite init_failed_loop_stopped.
  - by rewrite checks_d_loop_stopped.
Qed.

Lemma checks_d_loop_signal_return env n checks : ∀ i L acc w r w' j,
  (i ≤ j)%nat → (S j < i + length checks)%nat →
  stop_signal env (DuringCheckD j) = true →
  checks_d_loop env n i checks L acc w = (r, w') →
  r = Ok Return.
Proof.
  induction checks as [|check checks IH]; intros i L acc w r w' j Hi Hj Hsig;
    cbn [checks_d_loop length] in *; msimpl.
  - lia.
  - destruct (continue_running (self w)) eqn:Hrun; cbn [negb].
    2: { by intros [= <- _]. }
    destruct (run_check_d env n i check L w) as [[[L1 st]|e] w1] eqn:Hone.
    2: { destruct (run_check_d_total env n i check L w) as (? & ? & ? & ?).
         congruence. }
    intros Hloop. destruct (decide (j = i)) as [->|Hne].
    + pose proof (run_check_d_running _ _ _ _ _ _ _ _ _ Hone) as Hw1.
      rewrite Hsig, andb_false_r in Hw1.
      destruct checks as [|check' checks]; [cbn in Hj; lia|].
      rewrite (checks_d_loop_stopped _ _ _ _ _ _ _ _ Hw1) in Hloop.
      by injection Hloop as <- _.
    + eapply (IH (S i)); [| |done|done]; lia.
Qed.

Lemma init_failed_loop_signal_return env items : ∀ i acc w r w' j,
  (i ≤ j)%nat → (S j < i + length items)%nat →
  stop_signal env (DuringInitFailed j) = true →
  init_failed_loop env i items acc w = (r, w') →
  r = Ok Return.
Proof.
  induction items as [|[check_name info] items IH]; intros i acc w r w' j Hi Hj Hsig;
    cbn [init_failed_loop length] in *; msimpl.
  - lia.
  - destruct (continue_running (self w)) eqn:Hrun; cbn [negb].
    2: { by intros [= <- _]. }
    intros Hloop. destruct (decide (j = i)) as [->|Hne].
    + rewrite Hsig in Hloop.
      destruct items as [|item items]; [cbn in Hj; lia|].
      rewrite init_failed_loop_stopped in Hloop.
      * by injection Hloop as <- _.
      * by destruct w as [[] ? ? ? ?].
    + eapply (IH (S i)); [| |done|done]; lia.
Qed.

(** A stop request that arrives while a checks.d check runs, or while a
    check that failed to initialize is recorded, is found at the next turn
    of the two loops, when there is one. *)
Lemma checks_d_signal_return env n L w r w' :
  (∃ j, stop_signal env (DuringCheckD j) = true ∧
        ((S j < length (initialized_checks_d (self w)))%nat ∨
         (j < length (initialized_checks_d (self w)))%nat ∧
         ∃ item items,
           init_failed_checks_d (self w) = InitFailedDict (item :: items))) ∨
  (∃ j items, stop_signal env (DuringInitFailed j) = true ∧
              init_failed_checks_d (self w) = InitFailedDict items ∧
              (S j < length items)%nat) →
  checks_d env n L w = (r, w') →
  r = Ok Return.
Proof.
  intros Hsignal. unfold checks_d. rewrite bind_unfold. cbn [get_self].
  rewrite bind_unfold.
  destruct (checks_d_loop env n 0 (initialized_checks_d (self w)) L [] w)
    as [[[[L1 s1]|]|e] w1] eqn:Hloop.
  - apply same_cycle_checks_d_loop in Hloop as Hsame.
    destruct Hsame as (_ & _ & Hitems).
    rewrite bind_unfold. cbn [get_self]. rewrite bind_unfold. unfold lift at 1.
    rewrite Hitems.
    destruct Hsignal as [(j & Hsig & [Hj|(Hj & item & items & Hi)])
                        |(j & items & Hsig & Hi & Hj)].
    + by apply (checks_d_loop_signal_return _ _ _ _ _ _ _ _ _ j) in Hloop;
        [|lia|lia|done].
    + apply (checks_d_loop_signal _ _ _ _ _ _ _ _ _ j) in Hloop as Hstop;
        [|lia|done].
      rewrite Hi. cbn [iteritems]. rewrite bind_unfold.
      rewrite (init_failed_loop_stopped _ _ _ _ _ _ Hstop).
      by intros [= <- _].
    + rewrite Hi. cbn [iteritems]. rewrite bind_unfold.
      destruct (init_failed_loop env 0 items s1 w1) as [r2 w2] eqn:Hloop2.
      apply (init_failed_loop_signal_return _ _ _ _ _ _ _ j) in Hloop2 as ->;
        [|lia|lia|done].
      by intros [= <- _].
  - by intros [= <- _].
  - destruct (checks_d_loop_total env n (initialized_checks_d (self w)) 0 L [] w)
      as (?&?&?). congruence.
Qed.

(** C3 (as the code has it): a cycle that ends at the [return] of a stop
    checkpoint (the start of a turn of the checks.d loop or of the loop over
    the checks that failed to initialize, with the stop flag set) has sent
    nothing to any emitter and handed nothing to the persistence.  The cycle
    ends that way whenever the flag is found set at such a checkpoint: when
    it is set as the loops are reached and there is a check to iterate
    over, and when [stop()] is called during a turn of either loop that is
    followed by another turn (of the same loop, or of the loop over the
    checks that failed to initialize).  A cycle that reaches the emitters
    invokes a prefix of them, leaves the others out only with the stop flag
    set, and still hands one status of the run, with one EmitterStatus per
    emitter invoked, to the persistence.  When [stop()] is called while a
    checks.d check runs, no emitter is invoked in that cycle.  The three
    checkpoints themselves: with the flag set, a turn of either checks.d
    loop executes [return] and a turn of the emitter loop returns the
    statuses gathered so far, each without touching anything. *)
Theorem stop_checkpoints env cd se w r w' :
  run env cd se w = (r, w') →
  (r = Ok Stopped →
   sent w' = sent w ∧ persisted w' = persisted w ∧
   continue_running (self w') = false) ∧
  (∀ n L0 w1 L1 w2,
     begin_run env cd se w = (Ok (n, L0), w1) →
     collect n L0 w1 = (Ok L1, w2) →
     continue_running (self w2) = false →
     initialized_checks_d (self w2) ≠ [] ∨
       (∃ item items,
          init_failed_checks_d (self w2) = InitFailedDict (item :: items)) →
     r = Ok Stopped) ∧
  (∀ n L0 w1 L1 w2,
     begin_run env cd se w = (Ok (n, L0), w1) →
     collect n L0 w1 = (Ok L1, w2) →
     (∃ j, stop_signal env (DuringCheckD j) = true ∧
           ((S j < length (initialized_checks_d (self w2)))%nat ∨
            (j < length (initialized_checks_d (self w2)))%nat ∧
            ∃ item items,
              init_failed_checks_d (self w2) = InitFailedDict (item :: items))) ∨
     (∃ j items, stop_signal env (DuringInitFailed j) = true ∧
                 init_failed_checks_d (self w2) = InitFailedDict items ∧
                 (S j < length items)%nat) →
     r = Ok Stopped ∧ sent w' = sent w ∧ persisted w' = persisted w) ∧
  (∀ p, r = Ok (Completed p) →
     ∃ attempted skipped status,
       emitters (self w) = attempted ++ skipped ∧
       sent w' = sent w ++ ((λ e, (__name__ e, p)) <$> attempted) ∧
       persisted w' = persisted w ++ [status] ∧
       length (emitter_statuses status) = length attempted ∧
       (skipped ≠ [] → continue_running (self w') = false)) ∧
  ((∃ j, (j < length (initialized_checks_d (self w')))%nat ∧
         stop_signal env (DuringCheckD j) = true) →
   sent w' = sent w) ∧
  (∀ n i w0,
     continue_running (self w0) = false →
     (∀ check checks L acc,
        checks_d_loop env n i (check :: checks) L acc w0 = (Ok Return, w0)) ∧
     (∀ item items acc,
        init_failed_loop env i (item :: items) acc w0 = (Ok Return, w0)) ∧
     (∀ payload emitter emitters acc,
        emit_loop env n i payload (emitter :: emitters) acc w0 = (Ok acc, w0))).
Proof.
  intros Hrun.
  assert (Hstopped : r = Ok Stopped →
    sent w' = sent w ∧ persisted w' = persisted w ∧
    continue_running (self w') = false).
  { intros ->.
    apply run_inv in Hrun as [(e & [=] & _)|(n & L0 & w1 & Hb & H)].
    destruct H as [(e & [=] & _)|(L1 & w2 & Hc & H)].
    destruct H as [(e & [=] & _)|[(_ & Hd)|(L2 & sts & w3 & Hd & Hf)]].
    + apply quiet_begin_run in Hb as [Hs1 Hp1].
      apply quiet_collect in Hc as [Hs2 Hp2].
      apply checks_d_return in Hd as Hstop.
      apply quiet_checks_d in Hd as [Hs3 Hp3].
      split_and!; congruence.
    + apply finish_run_inv in Hf as [(e & [=] & _)|Hfin].
      by destruct Hfin as (?&?&?&?&?&[=]&_). }
  split_and!.
  - done.
  - intros n L0 w1 L1 w2 Hb Hc Hstop Hsome.
    unfold run in Hrun. rewrite (bind_Ok _ _ _ _ _ Hb) in Hrun.
    rewrite (bind_Ok _ _ _ _ _ Hc) in Hrun.
    rewrite (bind_Ok _ _ _ _ _ (checks_d_stopped env n L1 w2 Hstop Hsome)) in Hrun.
    by injection Hrun as <- _.
  - intros n L0 w1 L1 w2 Hb Hc Hsignal.
    assert (r = Ok Stopped) as Hr.
    { unfold run in Hrun. rewrite (bind_Ok _ _ _ _ _ Hb) in Hrun.
      rewrite (bind_Ok _ _ _ _ _ Hc), bind_unfold in Hrun.
      destruct (checks_d env n L1 w2) as [r2 w3] eqn:Hd.
      apply (checks_d_signal_return _ _ _ _ _ _ Hsignal) in Hd as ->.
      by injection Hrun as <- _. }
    split; [done|]. by destruct (Hstopped Hr) as (? & ? & _).
  - intros p ->.
    apply run_completed in Hrun
      as (n & L0 & w1 & L1 & w2 & L2 & sts & w3 & Hb & Hc & Hd & Hf).
    apply quiet_begin_run in Hb as Hq1. destruct Hq1 as [Hs1 Hp1].
    apply frame_begin_run in Hb as (_ & _ & _ & _ & He1 & _).
    apply quiet_collect in Hc as Hq2. destruct Hq2 as [Hs2 Hp2].
    apply frame_collect in Hc as (_ & _ & _ & _ & He2 & _).
    apply quiet_checks_d in Hd as Hq3. destruct Hq3 as [Hs3 Hp3].
    apply frame_checks_d in Hd as (_ & _ & _ & _ & He3 & _).
    apply finish_run_inv in Hf as [(e & [=] & _)|Hfin].
    destruct Hfin as (agent & att & skip & ests & status & [= <-] & Hes & Hsent
                      & Hpers & _ & Hests & Hlen & _ & Hskip).
    exists att, skip, status. split_and!; try congruence; done.
  - intros (j & Hj & Hsig).
    apply run_inv in Hrun as [(e & _ & Hb)|(n & L0 & w1 & Hb & H)].
    { by apply quiet_begin_run in Hb as [? _]. }
    apply quiet_begin_run in Hb as [Hs1 _].
    destruct H as [(e & _ & Hc)|(L1 & w2 & Hc & H)].
    { apply quiet_collect in Hc as [? _]. congruence. }
    apply quiet_collect in Hc as [Hs2 _].
    destruct H as [(e & _ & Hd)|[(_ & Hd)|(L2 & sts & w3 & Hd & Hf)]].
    { apply quiet_checks_d in Hd as [? _]. congruence. }
    { apply quiet_checks_d in Hd as [? _]. congruence. }
    apply same_cycle_checks_d in Hd as Hs. destruct Hs as (_ & Hi3 & _).
    apply same_cycle_finish_run in Hf as Hs. destruct Hs as (_ & Hi4 & _).
    rewrite Hi4, Hi3 in Hj.
    apply (checks_d_signal _ _ _ _ _ _ _ Hj Hsig) in Hd as Hstop.
    apply quiet_checks_d in Hd as [Hs3 _].
    apply finish_run_inv in Hf as [(e & _ & [Hs4 _] & _)|Hfin]; [congruence|].
    destruct Hfin as (agent & att & skip & ests & status & _ & _ & Hsent & _ & _
                      & _ & _ & Hnone & _).
    rewrite Hsent, (Hnone Hstop). cbn. rewrite app_nil_r. congruence.
  - intros n i w0. apply stop_checkpoint.
Qed.

Lemma outcome_eq {A} (x : result A * World) (r : result A) :
  x.1 = r → x = (r, x.2).
Proof. destruct x. cbn. by intros ->. Qed.

Lemma returned_eq {A} (d : A) (x : result A * World) :
  is_ok x = true → x = (Ok (returned d x), x.2).
Proof. unfold is_ok, returned. destruct x as [[a|e] w]; by cbn. Qed.

(** C3, as stated, fails at the emitter checkpoint.  On a host with one
    emitter and no checks.d checks, [stop()] arrives while the first check
    groups run: the flag is found set before the emitter's turn, the emitter
    is not invoked, yet the cycle runs to its end and the status of the run
    (with no EmitterStatus) is handed to the persistence.  With two emitters
    and [stop()] arriving while the first one sends, the payload has been
    emitted to the first, the second is left out, and the status is
    persisted as well. *)
Lemma stop_at_emitter_checkpoint_still_persists :
  (completes Scenario.stopped_before_emitter = true ∧
   __name__ <$> emitters (self Scenario.stopped_before_emitter.2) = ["http_emitter"] ∧
   continue_running (self Scenario.stopped_before_emitter.2) = false ∧
   sent Scenario.stopped_before_emitter.2 = [] ∧
   emitter_statuses <$> persisted Scenario.stopped_before_emitter.2 = [[]]) ∧
  (completes Scenario.stopped_between_emitters = true ∧
   __name__ <$> emitters (self Scenario.stopped_between_emitters.2)
     = ["http_emitter"; "second_emitter"] ∧
   (sent Scenario.stopped_between_emitters.2).*1 = ["http_emitter"] ∧
   emitter_statuses <$> persisted Scenario.stopped_between_emitters.2
     = [[mkEmitterStatus "http_emitter" None]]).
Proof. vm_compute. repeat split. Qed.

Lemma stop_checkpoints_witness :
  (∃ j, (j < length (initialized_checks_d (self Scenario.stopped_between_checks.2)))%nat ∧
        stop_signal (Scenario.env 100 Scenario.stop_during_first_check)
          (DuringCheckD j) = true) ∧
  Cases.stopping_begun
    = (Ok (1%nat, (returned (0%nat, no_locals) Cases.stopping_begun).2),
       Cases.stopping_begun.2) ∧
  Cases.stopping_collected
    = (Ok (returned no_locals Cases.stopping_collected), Cases.stopping_collected.2) ∧
  continue_running (self Cases.stopping_collected.2) = true ∧
  stop_signal (Scenario.env 100 Scenario.stop_during_first_check)
    (DuringCheckD 0) = true ∧
  (1 < length (initialized_checks_d (self Cases.stopping_collected.2)))%nat ∧
  Scenario.stopped_between_checks.1 = Ok Stopped ∧
  sent Scenario.stopped_between_checks.2 = sent (Scenario.linux [Scenario.http_emitter]) ∧
  persisted Scenario.stopped_between_checks.2
    = persisted (Scenario.linux [Scenario.http_emitter]) ∧
  continue_running (self Scenario.stopped_between_checks.2) = false.
Proof.
  assert (Hrun : run (Scenario.env 100 Scenario.stop_during_first_check)
                   (Some Scenario.two_checks) true
                   (Scenario.linux [Scenario.http_emitter])
                 = (Scenario.stopped_between_checks.1,
                    Scenario.stopped_between_checks.2))
    by (vm_compute; reflexivity).
  assert (Hb : Cases.stopping_begun
    = (Ok (1%nat, (returned (0%nat, no_locals) Cases.stopping_begun).2),
       Cases.stopping_begun.2))
    by (apply outcome_eq; vm_compute; reflexivity).
  assert (Hc : Cases.stopping_collected
    = (Ok (returned no_locals Cases.stopping_collected), Cases.stopping_collected.2))
    by (apply returned_eq; vm_compute; reflexivity).
  assert (Hlen : (1 < length (initialized_checks_d (self Cases.stopping_collected.2)))%nat)
    by (vm_compute; lia).
  pose proof (stop_checkpoints _ _ _ _ _ _ Hrun) as (Hstopped & _ & Hsignal & _).
  destruct (Hsignal _ _ _ _ _ Hb Hc) as (Hr & Hsent & Hpers).
  { left. exists 0%nat. split; [reflexivity|]. left. exact Hlen. }
  split; [exists 0%nat; split; [vm_compute; lia | reflexivity]|].
  split; [exact Hb|]. split; [exact Hc|].
  split; [vm_compute; reflexivity|].
  split; [reflexivity|]. split; [exact Hlen|].
  split; [exact Hr|]. split; [exact Hsent|]. split; [exact Hpers|].
  exact (proj2 (proj2 (Hstopped Hr))).
Defined.

(** * Failures of checks *)

Lemma win32_system_checks_unfold n w32 L w :
  win32_system_checks n w32 L w =
  let '(m, failure) :=
    win32_extend n [w_disk w32; w_memory w32; w_cpu w32; w_network w32;
                    w_io w32; w_proc w32] (metrics L) in
  (Ok (set_metrics m L),
   match failure with
   | Some e => mkWorld (self w)
                 (log w ++ [(ERROR, Unable_to_fetch_Windows_system_metrics e)])
                 (sent w) (persisted w) (stopped w)
   | None => w
   end).
Proof.
  unfold win32_system_checks.
  destruct (win32_extend _ _ _) as [m [e|]]; reflexivity.
Qed.

Lemma win32_extend_prefix n pre : ∀ rest ls m,
  Forall2 (λ (check : check_fn) l, check n ≫= py_iter = Ok l) pre ls →
  win32_extend n (pre ++ rest) m = win32_extend n rest (m ++ concat ls).
Proof.
  induction pre as [|check pre IH]; intros rest ls m Hall.
  - apply Forall2_nil_inv_l in Hall as ->. cbn. by rewrite app_nil_r.
  - apply Forall2_cons_inv_l in Hall as (l & ls' & Hl & Hall & ->).
    cbn [app win32_extend concat]. rewrite Hl, (IH _ _ _ Hall).
    by rewrite (assoc_L (++)).
Qed.






(** * The resources section *)

Lemma keeps_dict k d : keeps k (VDict d) → d !! k = None.
Proof.
  intros H. specialize (H ∅ _ eq_refl).
  by rewrite (right_id_L ∅ (∪)), lookup_empty in H.
Qed.

Lemma memory_update_lookup memory k fields : ∀ p p',
  k ∉ fields.*1 →
  memory_update memory fields p = Ok p' → p' !! k = p !! k.
Proof.
  induction fields as [|[k' f] fields IH]; intros p p' Hk; cbn [memory_update].
  - by intros [= <-].
  - cbn in Hk. apply not_elem_of_cons in Hk as [Hne Hk]. msimpl.
    destruct (py_get memory f); [|done].
    intros H. rewrite (IH _ _ Hk H). by rewrite lookup_insert_ne.
Qed.

Lemma unix_system_checks_resources n u p p' :
  (∀ v, u_load u n = Ok v ∨ u_cpu u n = Ok v → keeps "resources" v) →
  unix_system_checks n u p = Ok p' →
  p' !! "resources" = p !! "resources".
Proof.
  intros Hkeep. unfold unix_system_checks. msimpl.
  destruct (u_disk u n) as [diskUsage|]; [|done].
  destruct (if py_truthy diskUsage then _ else _) as [two|]; [|done].
  destruct (if two then _ else _) as [p1|] eqn:Hp1; [|done].
  assert (H1 : p1 !! "resources" = p !! "resources").
  { destruct two; [|by simplify_eq].
    destruct (py_getitem diskUsage 0); [|done].
    destruct (py_getitem diskUsage 1); [|done].
    simplify_eq. by rewrite !lookup_insert_ne. }
  destruct (u_load u n) as [load|] eqn:Hload; [|done].
  destruct (py_update p1 load) as [p2|] eqn:Hp2; [|done].
  assert (H2 : p2 !! "resources" = p1 !! "resources") by (eapply Hkeep; eauto).
  destruct (u_memory u n) as [memory|]; [|done].
  destruct (if py_truthy memory then _ else _) as [p3|] eqn:Hp3; [|done].
  assert (H3 : p3 !! "resources" = p2 !! "resources").
  { destruct (py_truthy memory); [|by simplify_eq].
    eapply memory_update_lookup; [|done].
    apply (bool_decide_unpack _). by vm_compute. }
  destruct (u_io u n) as [ioStats|]; [|done].
  destruct (u_processes u n) as [processes|]; [|done].
  destruct (u_cpu u n) as [cpuStats|] eqn:Hcpu; [|done].
  intros H.
  assert (H4 : p' !! "resources"
               = (if py_truthy ioStats then <["ioStats" := ioStats]> p3 else p3)
                   !! "resources").
  { destruct (py_truthy cpuStats).
    - rewrite (Hkeep cpuStats (or_intror eq_refl) _ _ H).
      by rewrite lookup_insert_ne.
    - simplify_eq. by rewrite lookup_insert_ne. }
  rewrite H4, <- H1, <- H2, <- H3.
  destruct (py_truthy ioStats); [by rewrite lookup_insert_ne|done].
Qed.

Lemma payload_view_lookup L k :
  k ≠ "metrics" → k ≠ "events" → payload_view L !! k = payload L !! k.
Proof.
  intros Hm He. unfold payload_view.
  destruct (payload L !! k) as [v|] eqn:Hk.
  - apply lookup_union_Some_l, lookup_union_Some_l. done.
  - apply lookup_union_None. split; [apply lookup_union_None; split; [done|]|];
      by rewrite lookup_singleton_ne.
Qed.

Lemma old_style_checks_resources n c L L' :
  (∀ v, _dogstream c n = Ok v → keeps "resources" v) →
  old_style_checks n c L = Ok L' →
  payload L' !! "resources" = payload L !! "resources".
Proof.
  intros Hkeep. unfold old_style_checks. msimpl.
  destruct (_ganglia c n) as [gangliaData|]; [|done].
  destruct (_dogstream c n) as [dogstreamData|] eqn:Hdog; [|done].
  destruct (_ddforwarder c n) as [ddforwarderData|]; [|done].
  set (L1 := match gangliaData with
             | VBool false | VNone => L
             | _ => set_payload (<["ganglia" := gangliaData]> (payload L)) L
             end).
  assert (H1 : payload L1 !! "resources" = payload L !! "resources").
  { unfold L1. destruct gangliaData as [|[]| | | |]; cbn;
      by rewrite ?lookup_insert_ne. }
  clearbody L1.
  destruct (if py_truthy dogstreamData then _ else _) as [L2|] eqn:HL2; [|done].
  intros [= <-].
  assert (H2 : payload L2 !! "resources" = payload L1 !! "resources").
  { destruct (py_truthy dogstreamData); [|by simplify_eq].
    destruct (py_get dogstreamData "dogstreamEvents") as [dogstreamEvents|] eqn:Hget;
      [|done].
    destruct dogstreamData as [| | | | |d]; try done.
    pose proof (keeps_dict _ _ (Hkeep _ eq_refl)) as Hd.
    destruct (if py_truthy dogstreamEvents then _ else _) as [[L3 data]|] eqn:H3;
      [|done].
    assert (payload L3 = payload L1 ∧
            (data = VDict d ∨ data = VDict (delete "dogstreamEvents" d)))
      as [Hp3 Hdata].
    { destruct (py_truthy dogstreamEvents); [|simplify_eq; eauto].
      repeat case_match; simplify_eq; eauto. }
    destruct (py_update (payload L3) data) as [p|] eqn:Hp; [|done].
    simplify_eq. cbn. destruct Hdata as [->| ->]; cbn in Hp; simplify_eq.
    - rewrite lookup_union_r by done. by rewrite Hp3.
    - rewrite lookup_union_r by (by rewrite lookup_delete_ne). by rewrite Hp3. }
  destruct (py_truthy ddforwarderData); cbn; rewrite ?lookup_insert_ne by done;
    congruence.
Qed.

Lemma set_resource_inv k v L L' :
  set_resource k v L = Ok L' →
  ∃ r, payload L !! "resources" = Some (VDict r) ∧
       L' = set_payload (<["resources" := VDict (<[k := v]> r)]> (payload L)) L.
Proof.
  unfold set_resource, py_item. rewrite payload_view_lookup by done. msimpl.
  destruct (payload L !! "resources") as [[| | | | |r]|]; try done.
  intros [= <-]. eauto.
Qed.

Lemma resources_loop_spec n checks : ∀ has L has' L' r,
  payload L !! "resources" = Some (VDict r) →
  resources_loop n checks has L = Ok (has', L') →
  ∃ r', payload L' !! "resources" = Some (VDict r') ∧
        (has' = true ↔
         has = true ∨ ∃ check snaps, check ∈ checks ∧
                        pop_snapshots check n = Ok snaps ∧ snaps ≠ []) ∧
        (is_Some (r' !! "meta") → is_Some (r !! "meta") ∨ has' = true) ∧
        (∀ k, k ≠ "resources" → payload L' !! k = payload L !! k) ∧
        metrics L' = metrics L ∧ events L' = events L.
Proof.
  induction checks as [|check checks IH]; intros has L has' L' r Hr;
    cbn [resources_loop]; msimpl.
  - intros [= <- <-]. exists r. split_and!; try done; [|by left].
    split; [by left|]. intros [?|(?&?&[]%elem_of_nil&_)]. done.
  - destruct (resources_check check n); [|done].
    destruct (pop_snapshots check n) as [snaps|] eqn:Hsnaps; [|done].
    destruct snaps as [|snap snaps].
    + intros (r' & Hr' & Hhas & Hmeta & Hk & Hm & He)%(IH _ _ _ _ _ Hr).
      exists r'. split_and!; try done. rewrite Hhas. split.
      * intros [?|(c & s & Hin & Hs & Hne)]; [by left|right].
        exists c, s. split_and!; try done. by apply elem_of_cons; right.
      * intros [?|(c & s & [->|Hin]%elem_of_cons & Hs & Hne)]; [by left| |].
        { rewrite Hsnaps in Hs. by simplify_eq. }
        right. eauto.
    + destruct (get_format_version check n) as [fv|]; [|done].
      destruct (describe_format_if_needed check n) as [fmt|]; [|done].
      destruct (set_resource _ _ L) as [L1|] eqn:Hset; [|done].
      apply set_resource_inv in Hset as (r0 & Hr0 & ->).
      intros H.
      assert (Hins : payload (set_payload
                (<["resources" := VDict (<[RESOURCE_KEY check :=
                     res_value (snap :: snaps) fv fmt]> r0)]> (payload L)) L)
                !! "resources"
              = Some (VDict (<[RESOURCE_KEY check :=
                     res_value (snap :: snaps) fv fmt]> r0)))
        by (cbn [payload set_payload]; apply lookup_insert_eq).
      destruct (IH _ _ _ _ _ Hins H) as (r' & Hr' & Hhas & Hmeta & Hk & Hm & He).
      exists r'. split_and!; try done.
      * split; [|intros _; apply Hhas; by left]. intros _. right.
        exists check, (snap :: snaps). split_and!; [by left|done|done].
      * intros _. right. apply Hhas. by left.
      * intros k Hne. rewrite Hk by done. cbn [payload set_payload].
        by rewrite lookup_insert_ne.
Qed.

Lemma resources_checks_spec n c L L' r :
  payload L !! "resources" = Some (VDict r) →
  r !! "meta" = None →
  resources_checks n c L = Ok L' →
  ∃ r', payload L' !! "resources" = Some (VDict r') ∧
        (is_Some (r' !! "meta") ↔ some_snapshot c n) ∧
        (∀ m, r' !! "meta" = Some m →
              ∃ api_key host,
                agentConfig c !! "api_key" = Some api_key ∧
                payload L' !! "internalHostname" = Some host ∧
                m = resources_meta api_key host) ∧
        metrics L' = metrics L ∧ events L' = events L.
Proof.
  intros Hr Hnometa. unfold resources_checks. msimpl.
  destruct (resources_loop n (_resources_checks c) false L) as [[has L1]|] eqn:Hloop;
    [|done].
  apply (resources_loop_spec _ _ _ _ _ _ _ Hr) in Hloop
    as (r1 & Hr1 & Hhas & Hmeta & Hk & Hm & He).
  assert (Hsome : has = true ↔ some_snapshot c n).
  { rewrite Hhas. unfold some_snapshot. split; [|by right]. by intros [?|?]. }
  destruct has.
  - unfold py_item. destruct (agentConfig c !! "api_key") as [api_key|] eqn:Hapi;
      [|done].
    rewrite payload_view_lookup by done.
    destruct (payload L1 !! "internalHostname") as [host|] eqn:Hhost; [|done].
    intros (r0 & Hr0 & ->)%set_resource_inv. eexists.
    cbn [payload set_payload metrics events].
    split; [apply lookup_insert_eq|]. rewrite lookup_insert_eq.
    split_and!; try done.
    + split; [intros _; by apply Hsome|by eauto].
    + intros m [= <-]. exists api_key, host. by rewrite lookup_insert_ne.
  - intros [= <-]. exists r1. split_and!; try done.
    + split.
      * intros [Hin|?]%Hmeta; [|done]. rewrite Hnometa in Hin. by destruct Hin.
      * intros ?%Hsome. done.
    + intros m Hm'. destruct Hmeta as [Hin|?]; [by eauto| |done].
      rewrite Hnometa in Hin. by destruct Hin.
Qed.

(** * The payload builder *)

Lemma get_metadata_state env w r w' : _get_metadata env w = (r, w') → w' = w.
Proof.
  unfold _get_metadata. msimpl. repeat case_match; by intros [= _ <-].
Qed.

Lemma should_send_metadata_unfold env w :
  _should_send_metadata env w =
  if interval_passed (self w) env
  then (Ok true,
        mkWorld (set_metadata_start (time_time_metadata env) (self w))
          (log w ++ [(DEBUG, Metadata_interval_has_passed)])
          (sent w) (persisted w) (stopped w))
  else (Ok false, w).
Proof.
  unfold _should_send_metadata, interval_passed. msimpl.
  by destruct (_ <=? _).
Qed.

Lemma build_payload_inv env se w p w' :
  _build_payload env se w = (Ok p, w') →
  ∃ agentVersion apiKey host uuid p1,
    agentConfig (self w) !! "version" = Some agentVersion ∧
    agentConfig (self w) !! "api_key" = Some apiKey ∧
    get_hostname env = Ok host ∧
    get_uuid env = Ok uuid ∧
    (if (se && _is_first_run (self w))%bool
     then ∃ version, get_version env = Ok version ∧
            p1 = with_startup (self w) env apiKey host version
                   (base_payload (self w) env agentVersion apiKey host uuid)
     else p1 = base_payload (self w) env agentVersion apiKey host uuid) ∧
    (if sends_metadata (self w) env
     then ∃ systemStats meta tags,
            get_system_stats env = Ok systemStats ∧
            agentConfig (self w) !! "tags" = Some tags ∧
            p = with_metadata systemStats meta tags p1 ∧
            metadata_cache (self w') = meta
     else p = p1 ∧ metadata_cache (self w') = metadata_cache (self w)) ∧
    metadata_start (self w') =
      (if _is_first_run (self w) then metadata_start (self w)
       else if interval_passed (self w) env then time_time_metadata env
            else metadata_start (self w)).
Proof.
  unfold _build_payload, sends_metadata. rewrite bind_unfold. cbn [get_self].
  rewrite bind_unfold. unfold lift at 1, py_item at 1.
  destruct (agentConfig (self w) !! "version") as [agentVersion|]; [|done].
  rewrite bind_unfold. unfold lift at 1, py_item at 1.
  destruct (agentConfig (self w) !! "api_key") as [apiKey|]; [|done].
  rewrite bind_unfold. unfold lift at 1.
  destruct (get_hostname env) as [host|]; [|done].
  rewrite bind_unfold. unfold lift at 1.
  destruct (get_uuid env) as [uuid|]; [|done].
  fold (base_payload (self w) env agentVersion apiKey host uuid).
  intros H. exists agentVersion, apiKey, host, uuid.
  rewrite bind_unfold in H.
  match type of H with
  | match ?m w with _ => _ end = _ => destruct (m w) as [[p1|] w1] eqn:H1; [|done]
  end.
  exists p1.
  assert (w1 = w ∧
    if (se && _is_first_run (self w))%bool
    then ∃ version, get_version env = Ok version ∧
           p1 = with_startup (self w) env apiKey host version
                  (base_payload (self w) env agentVersion apiKey host uuid)
    else p1 = base_payload (self w) env agentVersion apiKey host uuid) as [-> Hp1].
  { destruct (se && _is_first_run (self w))%bool; msimpl.
    - destruct (get_version env) as [version|]; [|done].
      injection H1 as <- <-. eauto.
    - by injection H1 as <- <-. }
  clear H1. do 5 (split; [done|]).
  rewrite bind_unfold in H.
  destruct (_is_first_run (self w)) eqn:Hfirst; cbn [orb].
  - msimpl. destruct (get_system_stats env) as [systemStats|]; [|done].
    destruct (_get_metadata env w) as [[meta|] w2] eqn:Hmeta; [|done].
    apply get_metadata_state in Hmeta as ->.
    unfold py_item in H.
    destruct (agentConfig (self w) !! "tags") as [tags|]; [|done].
    assert (Hp : p = with_metadata systemStats meta tags p1 ∧
                 w' = mkWorld (set_metadata_cache meta (self w))
                        (log w ++ [(INFO, Hostnames meta
                           (match tags with VNone => None | _ => Some tags end))])
                        (sent w) (persisted w) (stopped w)).
    { unfold with_metadata. destruct tags; by injection H as <- <-. }
    destruct Hp as [-> ->]. cbn.
    split; [|by destruct (self w)].
    exists systemStats, meta, tags. split_and!; try done. by destruct (self w).
  - rewrite should_send_metadata_unfold in H.
    destruct (interval_passed (self w) env) eqn:Hpassed.
    + msimpl. destruct (get_system_stats env) as [systemStats|]; [|done].
      match type of H with
      | context [_get_metadata env ?w0] =>
          destruct (_get_metadata env w0) as [[meta|] w2] eqn:Hmeta; [|done]
      end.
      apply get_metadata_state in Hmeta as ->. cbn in H.
      unfold py_item in H.
      destruct (agentConfig (self w) !! "tags") as [tags|]; [|done].
      assert (Hp : p = with_metadata systemStats meta tags p1 ∧
                   self w' = set_metadata_cache meta
                               (set_metadata_start (time_time_metadata env) (self w))).
      { unfold with_metadata. destruct tags; by injection H as <- <-. }
      destruct Hp as [-> ->].
      split; [|by destruct (self w)].
      exists systemStats, meta, tags. split_and!; try done. by destruct (self w).
    + msimpl. by injection H as <- <-.
Qed.

Lemma build_payload_lookups env se w p w' :
  _build_payload env se w = (Ok p, w') →
  p !! "metrics" = Some (VList []) ∧
  p !! "resources" = Some (VDict ∅) ∧
  (∃ e, p !! "events" = Some (VDict e)) ∧
  (∃ host, get_hostname env = Ok host ∧ p !! "internalHostname" = Some host).
Proof.
  intros (agentVersion & apiKey & host & uuid & p1 & _ & _ & Hhost & _ & Hp1 & Hp & _)
    %build_payload_inv.
  assert (H1 : p1 !! "metrics" = Some (VList []) ∧
               p1 !! "resources" = Some (VDict ∅) ∧
               (∃ e, p1 !! "events" = Some (VDict e)) ∧
               p1 !! "internalHostname" = Some host).
  { destruct (se && _)%bool.
    - destruct Hp1 as (version & _ & ->). unfold with_startup, base_payload.
      split_and!; [by simplify_map_eq..| |by simplify_map_eq].
      eexists. by simplify_map_eq.
    - subst p1. unfold base_payload.
      split_and!; [by simplify_map_eq..| |by simplify_map_eq].
      eexists. by simplify_map_eq. }
  destruct H1 as (Hm & Hr & [e He] & Hh).
  destruct (sends_metadata _ _).
  - destruct Hp as (systemStats & meta & tags & _ & _ & -> & _).
    unfold with_metadata.
    destruct tags; (split_and!; [by simplify_map_eq..| |];
      [exists e; by simplify_map_eq | exists host; by simplify_map_eq]).
  - destruct Hp as [-> _]. eauto 10.
Qed.

Lemma collect_resources n L w L' w' r :
  String.eqb (os (self w)) "windows" = false →
  flattened_checks_keep "resources" (self w) n →
  payload L !! "resources" = Some (VDict r) →
  r !! "meta" = None →
  collect n L w = (Ok L', w') →
  ∃ r', payload L' !! "resources" = Some (VDict r') ∧
        (is_Some (r' !! "meta") ↔ some_snapshot (self w) n) ∧
        (∀ m, r' !! "meta" = Some m →
              ∃ api_key host,
                agentConfig (self w) !! "api_key" = Some api_key ∧
                payload L' !! "internalHostname" = Some host ∧
                m = resources_meta api_key host).
Proof.
  intros Hos Hkeep Hr Hnometa. unfold collect. msimpl. rewrite Hos.
  destruct (unix_system_checks n _ (payload L)) as [p1|] eqn:Hunix; [|done].
  apply unix_system_checks_resources in Hunix as H1.
  2: { intros v [?|?]; apply Hkeep; eauto. }
  destruct (old_style_checks n (self w) _) as [L2|] eqn:Hold; [|done].
  apply old_style_checks_resources in Hold as H2.
  2: { intros v ?; apply Hkeep; eauto. }
  destruct (event_checks n _ _) as [ev|]; [|done].
  destruct (resources_checks n (self w) _) as [L3|] eqn:Hres; [|done].
  cbn [payload set_payload set_events] in H2.
  assert (H3 : payload (set_events ev L2) !! "resources" = Some (VDict r))
    by (cbn [payload set_events]; congruence).
  destruct (resources_checks_spec _ _ _ _ r H3 Hnometa Hres)
    as (r' & Hr' & Hmeta & Hval & _).
  destruct (metrics_checks n _ _) as [m|]; [|done].
  intros [= <- <-]. exists r'. cbn. done.
Qed.

Lemma finish_run_payload env L statuses w p w' k :
  finish_run env L statuses w = (Ok (Completed p), w') →
  k ≠ "metrics" → k ≠ "events" → p !! k = payload L !! k.
Proof.
  intros [(e & [=] & _)|Hfin]%finish_run_inv Hm He.
  destruct Hfin as (agent & ? & ? & ? & ? & [= ->] & _).
  by rewrite !lookup_insert_ne.
Qed.

Lemma resources_checks_once n c L L' :
  resources_checks n c L = Ok L' →
  ∃ has_resource L1,
    resources_loop n (_resources_checks c) false L = Ok (has_resource, L1) ∧
    if has_resource : bool
    then ∃ api_key host,
           agentConfig c !! "api_key" = Some api_key ∧
           payload_view L1 !! "internalHostname" = Some host ∧
           set_resource "meta"
             (VDict (<["api_key" := api_key]> (<["host" := host]> ∅))) L1 = Ok L'
    else L' = L1.
Proof.
  unfold resources_checks. msimpl.
  destruct (resources_loop n (_resources_checks c) false L) as [[has L1]|]; [|done].
  intros H. exists has, L1. split; [done|]. destruct has; [|by simplify_eq].
  unfold py_item in H.
  destruct (agentConfig c !! "api_key") as [api_key|]; [|done].
  destruct (payload_view L1 !! "internalHostname") as [host|]; [|done].
  by exists api_key, host.
Qed.

(** C5 (as the code has it): on a host that is not Windows, where the
    checks whose result is flattened into the payload (load, CPU,
    dogstreams) return no field named 'resources', the payload of a
    completed cycle has a 'resources' section that contains a 'meta' entry
    if and only if some resources check gave at least one snapshot in the
    cycle; the 'meta' entry is the dictionary with the configured API key
    under 'api_key' and the internal hostname of the payload under 'host',
    and nothing else.  The entry is written by one assignment, after the loop
    over the resources checks, however many of them gave snapshots. *)
Theorem resources_meta_iff_snapshots env cd se w p w' :
  os (self w) ≠ "windows" →
  flattened_checks_keep "resources" (self w) (S (run_count (self w))) →
  run env cd se w = (Ok (Completed p), w') →
  (∃ r, p !! "resources" = Some (VDict r) ∧
        (is_Some (r !! "meta") ↔ some_snapshot (self w) (S (run_count (self w)))) ∧
        (∀ m, r !! "meta" = Some m →
              ∃ api_key host,
                agentConfig (self w) !! "api_key" = Some api_key ∧
                p !! "internalHostname" = Some host ∧
                m = VDict (<["api_key" := api_key]> (<["host" := host]> ∅)))) ∧
  (∀ n L L',
     resources_checks n (self w) L = Ok L' →
     ∃ has_resource L1,
       resources_loop n (_resources_checks (self w)) false L
         = Ok (has_resource, L1) ∧
       if has_resource : bool
       then ∃ api_key host,
              agentConfig (self w) !! "api_key" = Some api_key ∧
              payload_view L1 !! "internalHostname" = Some host ∧
              set_resource "meta"
                (VDict (<["api_key" := api_key]> (<["host" := host]> ∅))) L1
                = Ok L'
       else L' = L1).
Proof.
  intros Hos Hkeep Hrun. split; [|intros n L L'; apply resources_checks_once].
  revert Hrun.
  intros (n & L0 & w1 & L1 & w2 & L2 & sts & w3 & Hb & Hc & Hd & Hf)%run_completed.
  apply begin_run_inv in Hb as Hinv.
  destruct Hinv as (-> & _ & _ & _ & built & w0 & w0' & m & e & Hbuild & _ & _
                    & _ & _ & ->).
  apply build_payload_lookups in Hbuild as (_ & Hres & _).
  apply frame_begin_run in Hb
    as (_ & _ & Hcfg & Hos1 & _ & _ & Hrc & _ & _ & _ & Hunix & _ & _ & Hdog & _).
  assert (Hos' : String.eqb (os (self w1)) "windows" = false)
    by (rewrite Hos1; by apply String.eqb_neq).
  assert (Hkeep' : flattened_checks_keep "resources" (self w1) (S (run_count (self w)))).
  { unfold flattened_checks_keep in *. by rewrite Hunix, Hdog. }
  eapply (collect_resources _ _ _ _ _ ∅) in Hc as (r & Hr & Hmeta & Hval);
    [|done|done|cbn; by rewrite !lookup_delete_ne|done].
  apply checks_d_inv in Hd as (_ & _ & _ & _ & _ & _ & _ & Hp2).
  exists r. split_and!.
  - rewrite (finish_run_payload _ _ _ _ _ _ _ Hf) by done. congruence.
  - rewrite Hmeta. unfold some_snapshot. by rewrite Hrc.
  - intros meta (api_key & host & Hapi & Hhost & ->)%Hval.
    exists api_key, host. split_and!; [congruence| |done].
    rewrite (finish_run_payload _ _ _ _ _ _ _ Hf) by done. congruence.
Qed.

(** C5, as stated, fails when a check whose result is flattened into the
    payload returns a field named 'resources': [payload.update] then binds
    the section to that field.  On a Linux host whose load check returns
    such a field holding a 'meta' entry, and whose resources check gave no
    snapshot, the cycle completes with a 'meta' entry in the 'resources'
    section, and the entry holds neither the API key nor the hostname. *)
Lemma resources_meta_without_snapshots :
  os (self Cases.linux_with_resources_field) = "linux" ∧
  (λ check, pop_snapshots check 1%nat)
    <$> _resources_checks (self Cases.linux_with_resources_field) = [Ok []] ∧
  completes Cases.resources_field_cycle = true ∧
  built_payload Cases.resources_field_cycle !! "resources"
    = Some (VDict {["meta" := VStr "load"]}).
Proof. vm_compute. repeat split. Qed.

Lemma resources_meta_iff_snapshots_witness :
  os (self Scenario.linux_with_snapshots) ≠ "windows" ∧
  flattened_checks_keep "resources" (self Scenario.linux_with_snapshots) 1 ∧
  Scenario.snapshots_cycle
    = (Ok (Completed (built_payload Scenario.snapshots_cycle)),
       Scenario.snapshots_cycle.2) ∧
  built_payload Scenario.snapshots_cycle !! "resources"
    = Some (VDict
        (<["processes" :=
             VDict (<["snaps" := VList [VStr "snapshot 1"; VStr "snapshot 2"]]>
                    (<["format_version" := VNum 3]> ∅))]>
        (<["meta" := VDict (<["api_key" := VStr "0123abcd"]>
                           (<["host" := VStr "web01"]> ∅))]> ∅))) ∧
  (∃ r, built_payload Scenario.snapshots_cycle !! "resources" = Some (VDict r) ∧
        (is_Some (r !! "meta") ↔ some_snapshot (self Scenario.linux_with_snapshots) 1) ∧
        (∀ m, r !! "meta" = Some m →
              ∃ api_key host,
                agentConfig (self Scenario.linux_with_snapshots) !! "api_key"
                  = Some api_key ∧
                built_payload Scenario.snapshots_cycle !! "internalHostname"
                  = Some host ∧
                m = VDict (<["api_key" := api_key]> (<["host" := host]> ∅)))) ∧
  (∀ n L L',
     resources_checks n (self Scenario.linux_with_snapshots) L = Ok L' →
     ∃ has_resource L1,
       resources_loop n (_resources_checks (self Scenario.linux_with_snapshots))
         false L = Ok (has_resource, L1) ∧
       if has_resource : bool
       then ∃ api_key host,
              agentConfig (self Scenario.linux_with_snapshots) !! "api_key"
                = Some api_key ∧
              payload_view L1 !! "internalHostname" = Some host ∧
              set_resource "meta"
                (VDict (<["api_key" := api_key]> (<["host" := host]> ∅))) L1
                = Ok L'
       else L' = L1).
Proof.
  assert (Hos : os (self Scenario.linux_with_snapshots) ≠ "windows")
    by (vm_compute; discriminate).
  assert (Hkeep : flattened_checks_keep "resources"
                    (self Scenario.linux_with_snapshots) 1).
  { intros v [H|[H|H]]; vm_compute in H; injection H as <-;
      intros p p' Hp; cbn [py_update] in Hp; [|done..].
    injection Hp as <-. change (GMap GEmpty) with (∅ : gmap string value).
    by rewrite (left_id_L ∅ (∪)). }
  assert (Hrun : Scenario.snapshots_cycle
                 = (Ok (Completed (built_payload Scenario.snapshots_cycle)),
                    Scenario.snapshots_cycle.2))
    by (apply completes_eq; vm_compute; reflexivity).
  split; [exact Hos|]. split; [exact Hkeep|]. split; [exact Hrun|].
  split; [vm_compute; reflexivity|].
  exact (resources_meta_iff_snapshots Scenario.calm (Some Scenario.no_checks_d) true
           Scenario.linux_with_snapshots _ _ Hos Hkeep Hrun).
Defined.





Lemma get_metadata_total env w :
  succeeds (EC2_get_metadata env) → succeeds (get_hostname_noarg env) →
  ∃ meta, _get_metadata env w = (Ok meta, w).
Proof.
  intros [metadata Hec2] [h Hh]. unfold _get_metadata. msimpl.
  rewrite Hec2, Hh. eauto.
Qed.

Lemma build_payload_total env se w :
  (run_count (self w) ≤ 1)%nat →
  is_Some (agentConfig (self w) !! "version") →
  is_Some (agentConfig (self w) !! "api_key") →
  is_Some (agentConfig (self w) !! "tags") →
  succeeds (get_hostname env) →
  succeeds (get_uuid env) →
  (se = true → succeeds (get_version env)) →
  succeeds (get_system_stats env) →
  succeeds (EC2_get_metadata env) →
  succeeds (get_hostname_noarg env) →
  ∃ p w', _build_payload env se w = (Ok p, w').
Proof.
  intros Hfirst [agentVersion Hv] [apiKey Hk] [tags Ht] [host Hh] [uuid Hu] Hver
    [stats Hs] Hec2 Hnoarg.
  destruct (get_metadata_total env w Hec2 Hnoarg) as [meta Hmeta].
  unfold _build_payload. msimpl. unfold py_item, _is_first_run.
  apply Nat.leb_le in Hfirst. rewrite Hv, Hk, Hh, Hu, Hfirst, Ht.
  destruct se; cbn [andb].
  - destruct (Hver eq_refl) as [version ->]. rewrite Hs, Hmeta. cbn.
    destruct tags; eauto.
  - rewrite Hs, Hmeta. cbn. destruct tags; eauto.
Qed.

(** C7: on the first cycle ([run_count] is 1 when [run] builds the payload),
    with the configuration holding a version, an API key and the tags entry
    and the hostname, uuid, version, system stats and metadata providers
    answering, [_build_payload] returns a payload that has the 'meta'
    section whether or not the startup event was requested; when it was
    requested, the payload also has 'systemStats', and events['System'] is
    the one event of type 'Agent Startup' whose text is 'Version ' followed
    by the running version. *)
Theorem first_cycle_payload env se w :
  run_count (self w) = 1%nat →
  is_Some (agentConfig (self w) !! "version") →
  is_Some (agentConfig (self w) !! "api_key") →
  is_Some (agentConfig (self w) !! "tags") →
  succeeds (get_hostname env) →
  succeeds (get_uuid env) →
  (se = true → succeeds (get_version env)) →
  succeeds (get_system_stats env) →
  succeeds (EC2_get_metadata env) →
  succeeds (get_hostname_noarg env) →
  ∃ p w',
    _build_payload env se w = (Ok p, w') ∧
    is_Some (p !! "meta") ∧
    (se = true →
     is_Some (p !! "systemStats") ∧
     ∃ version e d,
       get_version env = Ok version ∧
       p !! "events" = Some (VDict e) ∧
       e !! "System" = Some (VList [VDict d]) ∧
       d !! "event_type" = Some (VStr "Agent Startup") ∧
       d !! "msg_text" = Some (VStr ("Version " +:+ version))).
Proof.
  intros Hrc Hv Hk Ht Hh Hu Hver Hs Hec2 Hnoarg.
  destruct (build_payload_total env se w) as (p & w' & Hbuild); try done; [lia|].
  exists p, w'. split; [done|].
  apply build_payload_inv in Hbuild
    as (agentVersion & apiKey & host & uuid & p1 & _ & _ & _ & _ & Hp1 & Hp & _).
  assert (Hfirst : _is_first_run (self w) = true)
    by (unfold _is_first_run; by rewrite Hrc).
  unfold sends_metadata in Hp. rewrite Hfirst in Hp, Hp1. cbn [orb] in Hp.
  destruct Hp as (systemStats & meta & tags & _ & _ & -> & _).
  split.
  - unfold with_metadata. destruct tags; by simplify_map_eq.
  - intros ->. cbn [andb] in Hp1. destruct Hp1 as (version & Hversion & ->).
    split.
    + unfold with_metadata. destruct tags; by simplify_map_eq.
    + exists version. eexists _, _. split; [done|].
      split; [|split; [apply lookup_singleton_eq|]].
      * unfold with_metadata, with_startup. destruct tags; by simplify_map_eq.
      * unfold startup_event. by simplify_map_eq.
Qed.

Lemma first_cycle_payload_witness :
  run_count (self Scenario.first_build) = 1%nat ∧
  ∃ p w',
    _build_payload Scenario.calm true Scenario.first_build = (Ok p, w') ∧
    is_Some (p !! "meta") ∧
    (true = true →
     is_Some (p !! "systemStats") ∧
     ∃ version e d,
       get_version Scenario.calm = Ok version ∧
       p !! "events" = Some (VDict e) ∧
       e !! "System" = Some (VList [VDict d]) ∧
       d !! "event_type" = Some (VStr "Agent Startup") ∧
       d !! "msg_text" = Some (VStr ("Version " +:+ version))).
Proof.
  split; [reflexivity|].
  apply (first_cycle_payload Scenario.calm true Scenario.first_build).
  - reflexivity.
  - vm_compute. eauto.
  - vm_compute. eauto.
  - vm_compute. eauto.
  - eexists. reflexivity.
  - eexists. reflexivity.
  - intros _. eexists. reflexivity.
  - eexists. reflexivity.
  - eexists. reflexivity.
  - eexists. reflexivity.
Defined.

(** * Sections of the payload are never removed *)

#[local] Instance keeps_keys_refl : Reflexive keeps_keys.
Proof. by intros p k. Qed.
#[local] Instance keeps_keys_trans : Transitive keeps_keys.
Proof. intros p1 p2 p3 H1 H2 k Hk. by apply H2, H1. Qed.

Lemma keeps_keys_insert k v p : keeps_keys p (<[k := v]> p).
Proof. intros k' Hk. apply lookup_insert_is_Some'. by right. Qed.

Lemma keeps_keys_union d p : keeps_keys p (d ∪ p).
Proof. intros k Hk. apply lookup_union_is_Some. by right. Qed.

Lemma update_pairs_keys l : ∀ p p', update_pairs p l = Ok p' → keeps_keys p p'.
Proof.
  induction l as [|x l IH]; intros p p'; cbn [update_pairs].
  - intros [= <-]. reflexivity.
  - destruct (py_pair x) as [[[k v]|]|]; [| |done].
    + intros H%IH. etrans; [apply keeps_keys_insert|done].
    + apply IH.
Qed.

Lemma py_update_keys p v p' : py_update p v = Ok p' → keeps_keys p p'.
Proof.
  destruct v; cbn [py_update]; try done.
  - apply update_pairs_keys.
  - apply update_pairs_keys.
  - intros [= <-]. apply keeps_keys_union.
Qed.

Lemma memory_update_keys memory fields : ∀ p p',
  memory_update memory fields p = Ok p' → keeps_keys p p'.
Proof.
  induction fields as [|[k f] fields IH]; intros p p'; cbn [memory_update]; msimpl.
  - intros [= <-]. reflexivity.
  - destruct (py_get memory f); [|done]. intros H%IH.
    etrans; [apply keeps_keys_insert|done].
Qed.

Lemma unix_system_checks_keys n u p p' :
  unix_system_checks n u p = Ok p' → keeps_keys p p'.
Proof.
  unfold unix_system_checks. msimpl.
  destruct (u_disk u n) as [diskUsage|]; [|done].
  destruct (if py_truthy diskUsage then _ else _) as [two|]; [|done].
  destruct (if two then _ else _) as [p1|] eqn:Hp1; [|done].
  assert (H1 : keeps_keys p p1).
  { destruct two; [|simplify_eq; reflexivity].
    destruct (py_getitem diskUsage 0); [|done].
    destruct (py_getitem diskUsage 1); [|done].
    simplify_eq. etrans; apply keeps_keys_insert. }
  destruct (u_load u n) as [load|]; [|done].
  destruct (py_update p1 load) as [p2|] eqn:Hp2; [|done].
  apply py_update_keys in Hp2.
  destruct (u_memory u n) as [memory|]; [|done].
  destruct (if py_truthy memory then _ else _) as [p3|] eqn:Hp3; [|done].
  assert (H3 : keeps_keys p2 p3).
  { destruct (py_truthy memory); [|simplify_eq; reflexivity].
    by eapply memory_update_keys. }
  destruct (u_io u n) as [ioStats|]; [|done].
  destruct (u_processes u n) as [processes|]; [|done].
  destruct (u_cpu u n) as [cpuStats|]; [|done].
  intros H.
  assert (H4 : keeps_keys p3 p').
  { set (p4 := if py_truthy ioStats then <["ioStats" := ioStats]> p3 else p3) in *.
    assert (keeps_keys p3 p4)
      by (unfold p4; destruct (py_truthy ioStats);
          [apply keeps_keys_insert|reflexivity]).
    etrans; [done|].
    etrans; [apply (keeps_keys_insert "processes" processes)|].
    destruct (py_truthy cpuStats);
      [by eapply py_update_keys|simplify_eq; reflexivity]. }
  by repeat (etrans; [eassumption|]).
Qed.

Lemma old_style_checks_keys n c L L' :
  old_style_checks n c L = Ok L' → keeps_keys (payload L) (payload L').
Proof.
  unfold old_style_checks. msimpl.
  destruct (_ganglia c n) as [gangliaData|]; [|done].
  destruct (_dogstream c n) as [dogstreamData|]; [|done].
  destruct (_ddforwarder c n) as [ddforwarderData|]; [|done].
  set (L1 := match gangliaData with
             | VBool false | VNone => L
             | _ => set_payload (<["ganglia" := gangliaData]> (payload L)) L
             end).
  assert (H1 : keeps_keys (payload L) (payload L1)).
  { unfold L1. destruct gangliaData as [|[]| | | |]; cbn;
      reflexivity || apply keeps_keys_insert. }
  clearbody L1.
  destruct (if py_truthy dogstreamData then _ else _) as [L2|] eqn:HL2; [|done].
  intros [= <-].
  assert (H2 : keeps_keys (payload L1) (payload L2)).
  { destruct (py_truthy dogstreamData); [|simplify_eq; reflexivity].
    destruct (py_get dogstreamData "dogstreamEvents") as [dogstreamEvents|];
      [|done].
    destruct (if py_truthy dogstreamEvents then _ else _) as [[L3 data]|] eqn:H3;
      [|done].
    assert (payload L3 = payload L1) as Hp3.
    { destruct (py_truthy dogstreamEvents); [|by simplify_eq].
      repeat case_match; by simplify_eq. }
    destruct (py_update (payload L3) data) as [p|] eqn:Hp; [|done].
    simplify_eq. cbn. rewrite <- Hp3. by eapply py_update_keys. }
  etrans; [done|]. etrans; [done|].
  destruct (py_truthy ddforwarderData); cbn;
    reflexivity || apply keeps_keys_insert.
Qed.

Lemma resources_checks_keys n c L L' :
  resources_checks n c L = Ok L' → keeps_keys (payload L) (payload L').
Proof.
  assert (Hset : ∀ k v L L', set_resource k v L = Ok L' →
                             keeps_keys (payload L) (payload L')).
  { intros k v L1 L2 (r & _ & ->)%set_resource_inv. apply keeps_keys_insert. }
  assert (Hloop : ∀ checks has L has' L',
            resources_loop n checks has L = Ok (has', L') →
            keeps_keys (payload L) (payload L')).
  { induction checks as [|check checks IH]; intros has L1 has' L2;
      cbn [resources_loop]; msimpl.
    - intros [= _ <-]. reflexivity.
    - destruct (resources_check check n); [|done].
      destruct (pop_snapshots check n) as [[|snap snaps]|]; [apply IH| |done].
      destruct (get_format_version check n); [|done].
      destruct (describe_format_if_needed check n); [|done].
      destruct (set_resource _ _ L1) as [L3|] eqn:H3; [|done].
      intros H%IH. etrans; [by eapply Hset|done]. }
  unfold resources_checks. msimpl.
  destruct (resources_loop n _ false L) as [[has L1]|] eqn:H1; [|done].
  apply Hloop in H1. destruct has; [|by intros [= <-]].
  destruct (py_item _ _); [|done]. destruct (py_item _ _); [|done].
  intros H%Hset. by etrans.
Qed.

Lemma collect_keys n L w L' w' :
  collect n L w = (Ok L', w') → keeps_keys (payload L) (payload L').
Proof.
  unfold collect. rewrite bind_unfold. cbn [get_self]. rewrite bind_unfold.
  destruct (String.eqb (os (self w)) "windows").
  - rewrite win32_system_checks_unfold.
    destruct (win32_extend _ _ _) as [m failure]. msimpl.
    destruct (old_style_checks n (self w) _) as [L2|] eqn:Hold; [|done].
    apply old_style_checks_keys in Hold.
    destruct (event_checks n _ _) as [ev|]; [|done].
    destruct (metrics_checks n _ _) as [m'|]; [|done].
    intros [= <- <-]. done.
  - msimpl.
    destruct (unix_system_checks n _ (payload L)) as [p1|] eqn:Hunix; [|done].
    apply unix_system_checks_keys in Hunix.
    destruct (old_style_checks n (self w) _) as [L2|] eqn:Hold; [|done].
    apply old_style_checks_keys in Hold.
    destruct (event_checks n _ _) as [ev|]; [|done].
    destruct (resources_checks n (self w) _) as [L3|] eqn:Hres; [|done].
    apply resources_checks_keys in Hres.
    destruct (metrics_checks n _ _) as [m'|]; [|done].
    intros [= <- <-]. cbn in *. by repeat (etrans; [eassumption|]).
Qed.

Lemma run_quiet_unless_completed env cd se w r w' :
  run env cd se w = (r, w') → (∀ p, r ≠ Ok (Completed p)) → quiet w w'.
Proof.
  intros Hrun Hnot.
  apply run_inv in Hrun as [(e' & _ & Hb)|(n & L0 & w1 & Hb & H)].
  { by apply quiet_begin_run in Hb. }
  apply quiet_begin_run in Hb.
  destruct H as [(e' & _ & Hc)|(L1 & w2 & Hc & H)].
  { apply quiet_collect in Hc. by etrans. }
  apply quiet_collect in Hc.
  destruct H as [(e' & _ & Hd)|[(_ & Hd)|(L2 & sts & w3 & Hd & Hf)]].
  { apply quiet_checks_d in Hd. by repeat (etrans; [eassumption|]). }
  { apply quiet_checks_d in Hd. by repeat (etrans; [eassumption|]). }
  apply quiet_checks_d in Hd.
  apply finish_run_inv in Hf as [(e' & _ & Hq & _)|Hfin].
  - by repeat (etrans; [eassumption|]).
  - destruct Hfin as (?&?&?&?&?&Hr&_). by eapply Hnot in Hr.
Qed.

Lemma begin_run_build_world env cd se w n L0 w1 :
  begin_run env cd se w = (Ok (n, L0), w1) →
  ∃ built w0' m e,
    _build_payload env se (build_world env w) = (Ok built, w0') ∧
    built !! "metrics" = Some (VList m) ∧
    built !! "events" = Some (VDict e) ∧
    L0 = mkLocals (delete "events" (delete "metrics" built)) m e.
Proof.
  unfold begin_run, build_world. msimpl.
  replace (run_count (set_run_count (S (run_count (self w))) (self w)))
    with (S (run_count (self w))) by (by destruct (self w)).
  match goal with
  | |- context [_build_payload env se ?w0] => set (W0 := w0)
  end.
  destruct (_build_payload env se W0) as [[built|?] w0'] eqn:Hbuild; [|done].
  unfold py_item, as_list, as_dict.
  destruct (built !! "metrics") as [[| | | |m|]|] eqn:Hm; try done.
  destruct (built !! "events") as [[| | | | |e]|] eqn:He; try done.
  intros H. exists built, w0', m, e. split_and!; try done.
  by destruct cd; simplify_eq.
Qed.

Lemma payload_view_built built m e :
  built !! "metrics" = Some (VList m) →
  built !! "events" = Some (VDict e) →
  payload_view (mkLocals (delete "events" (delete "metrics" built)) m e) = built.
Proof.
  intros Hm He. unfold payload_view. cbn [payload metrics events].
  apply map_eq. intros k.
  destruct (decide (k = "events")) as [->|Hne].
  { rewrite He. apply lookup_union_Some_raw. right.
    split; [|by rewrite lookup_singleton_eq].
    apply lookup_union_None. split; [by rewrite lookup_delete_eq|].
    by rewrite lookup_singleton_ne. }
  destruct (decide (k = "metrics")) as [->|Hnm].
  { rewrite Hm. apply lookup_union_Some_raw. left.
    apply lookup_union_Some_raw. right.
    split; [|by rewrite lookup_singleton_eq].
    by rewrite lookup_delete_ne, lookup_delete_eq. }
  destruct (built !! k) as [v|] eqn:Hk.
  - apply lookup_union_Some_raw. left. apply lookup_union_Some_raw. left.
    by rewrite !lookup_delete_ne.
  - apply lookup_union_None. split; [|by rewrite lookup_singleton_ne].
    apply lookup_union_None. split; [|by rewrite lookup_singleton_ne].
    by rewrite !lookup_delete_ne.
Qed.

Lemma keeps_keys_payload_view L L' :
  keeps_keys (payload L) (payload L') →
  keeps_keys (payload_view L) (payload_view L').
Proof.
  intros H k. unfold payload_view. rewrite !lookup_union_is_Some.
  intros [[Hk|[v Hk]]|[v Hk]].
  - left. left. by apply H.
  - apply lookup_singleton_Some in Hk as [<- _]. left. right.
    by rewrite lookup_singleton_eq.
  - apply lookup_singleton_Some in Hk as [<- _]. right.
    by rewrite lookup_singleton_eq.
Qed.

Lemma finish_run_keys env L statuses w p w' :
  finish_run env L statuses w = (Ok (Completed p), w') →
  keeps_keys (payload_view L) p.
Proof.
  intros [(e & [=] & _)|Hfin]%finish_run_inv.
  destruct Hfin as (agent & ? & ? & ? & ? & [= ->] & _).
  intros k. unfold payload_view. rewrite !lookup_union_is_Some.
  rewrite !lookup_insert_is_Some'.
  intros [[Hk|[v Hk]]|[v Hk]].
  - by do 3 right.
  - apply lookup_singleton_Some in Hk as [<- _]. by left.
  - apply lookup_singleton_Some in Hk as [<- _]. right. by left.
Qed.

(** C9: the payload [_build_payload] returns has the keys 'events' and
    'metrics' (an empty list of metrics and a dictionary of events), whatever
    else it holds.  Every payload [run] hands to an emitter has both keys,
    and so has the payload of a completed cycle, which is the one handed to
    the emitters.  No section is removed in the course of the cycle: every
    key of the payload that [_build_payload] returned to this call of [run]
    is a key of the payload of the completed cycle, and so it goes step by
    step: the payload after the call of [_build_payload] is the one it
    returned, and the check groups before the checks.d checks, the checks.d
    checks and the end of [run] each leave a payload with every key of the
    payload they were given. *)
Theorem events_and_metrics_always_present env cd se w r w' :
  run env cd se w = (r, w') →
  (∀ w0 built w0',
     _build_payload env se w0 = (Ok built, w0') →
     built !! "metrics" = Some (VList []) ∧
     ∃ e, built !! "events" = Some (VDict e)) ∧
  (∃ new, sent w' = sent w ++ new ∧
          ∀ x, x ∈ new → is_Some (x.2 !! "events") ∧ is_Some (x.2 !! "metrics")) ∧
  (∀ p, r = Ok (Completed p) →
     (∃ m e, p !! "metrics" = Some (VList m) ∧ p !! "events" = Some (VDict e)) ∧
     (∃ new, sent w' = sent w ++ new ∧ ∀ x, x ∈ new → x.2 = p) ∧
     ∃ built w0',
       _build_payload env se (build_world env w) = (Ok built, w0') ∧
       keeps_keys built p) ∧
  (∀ n L0 w1,
     begin_run env cd se w = (Ok (n, L0), w1) →
     ∃ built w0',
       _build_payload env se (build_world env w) = (Ok built, w0') ∧
       payload_view L0 = built) ∧
  (∀ n L w1 L' w1',
     collect n L w1 = (Ok L', w1') →
     keeps_keys (payload_view L) (payload_view L')) ∧
  (∀ n L w1 L' statuses w1',
     checks_d env n L w1 = (Ok (Done (L', statuses)), w1') →
     keeps_keys (payload_view L) (payload_view L')) ∧
  (∀ L statuses w1 p w1',
     finish_run env L statuses w1 = (Ok (Completed p), w1') →
     keeps_keys (payload_view L) p).
Proof.
  intros Hrun.
  assert (Hbegin : ∀ n L0 w1,
     begin_run env cd se w = (Ok (n, L0), w1) →
     ∃ built w0',
       _build_payload env se (build_world env w) = (Ok built, w0') ∧
       payload_view L0 = built).
  { intros n L0 w1 (built & w0' & m & e & Hbuild & Hm & He & ->)%begin_run_build_world.
    exists built, w0'. split; [done|]. by apply payload_view_built. }
  assert (Hcollect : ∀ n L w1 L' w1',
     collect n L w1 = (Ok L', w1') →
     keeps_keys (payload_view L) (payload_view L')).
  { intros n L w1 L' w1' Hc%collect_keys. by apply keeps_keys_payload_view. }
  assert (Hchecks : ∀ n L w1 L' statuses w1',
     checks_d env n L w1 = (Ok (Done (L', statuses)), w1') →
     keeps_keys (payload_view L) (payload_view L')).
  { intros n L w1 L' sts w1' Hd.
    apply checks_d_inv in Hd as (_ & _ & _ & _ & _ & _ & _ & Hp).
    apply keeps_keys_payload_view. by rewrite Hp. }
  assert (Hcompleted : ∀ p, r = Ok (Completed p) →
     (∃ m e, p !! "metrics" = Some (VList m) ∧ p !! "events" = Some (VDict e)) ∧
     (∃ new, sent w' = sent w ++ new ∧ ∀ x, x ∈ new → x.2 = p) ∧
     ∃ built w0',
       _build_payload env se (build_world env w) = (Ok built, w0') ∧
       keeps_keys built p).
  { intros p ->.
    apply run_completed in Hrun
      as (n & L0 & w1 & L1 & w2 & L2 & sts & w3 & Hb & Hc & Hd & Hf).
    destruct (Hbegin _ _ _ Hb) as (built & w0' & Hbuild & Hview).
    apply quiet_begin_run in Hb as [Hs1 _].
    apply quiet_collect in Hc as Hq. destruct Hq as [Hs2 _].
    apply Hcollect in Hc.
    apply quiet_checks_d in Hd as Hq. destruct Hq as [Hs3 _].
    apply Hchecks in Hd.
    apply finish_run_keys in Hf as Hkeys.
    apply finish_run_inv in Hf as [(e' & [=] & _)|Hfin].
    destruct Hfin as (agent & att & skip & ests & status & [= ->] & _ & Hsent & _).
    split_and!.
    - eexists _, _. by simplify_map_eq.
    - eexists. split; [rewrite Hsent, Hs3, Hs2, Hs1; reflexivity|].
      intros x (em & -> & _)%list_elem_of_fmap. done.
    - exists built, w0'. split; [done|]. rewrite <- Hview.
      by repeat (etrans; [eassumption|]). }
  split_and!; [| |done|done|done|done|].
  - intros w0 built w0' (Hm & _ & He & _)%build_payload_lookups. done.
  - destruct r as [[|p]|e].
    + exists []. rewrite app_nil_r. split; [|by intros x []%elem_of_nil].
      by destruct (run_quiet_unless_completed _ _ _ _ _ _ Hrun) as [-> _].
    + destruct (Hcompleted p eq_refl) as ((m & e & Hm & He) & (new & Hsent & Hnew) & _).
      exists new. split; [done|]. intros x ->%Hnew. by rewrite Hm, He.
    + exists []. rewrite app_nil_r. split; [|by intros x []%elem_of_nil].
      by destruct (run_quiet_unless_completed _ _ _ _ _ _ Hrun) as [-> _].
  - intros L sts w1 p w1'. apply finish_run_keys.
Qed.

Lemma events_and_metrics_always_present_witness :
  Scenario.windows_cycle
    = (Ok (Completed (built_payload Scenario.windows_cycle)), Scenario.windows_cycle.2) ∧
  (sent Scenario.windows_cycle.2).*1 = ["http_emitter"] ∧
  (∃ new, sent Scenario.windows_cycle.2
            = sent Scenario.windows_with_failing_disk ++ new ∧
          ∀ x, x ∈ new → is_Some (x.2 !! "events") ∧ is_Some (x.2 !! "metrics")) ∧
  (∃ m e, built_payload Scenario.windows_cycle !! "metrics" = Some (VList m) ∧
          built_payload Scenario.windows_cycle !! "events" = Some (VDict e)) ∧
  (∃ built w0',
     _build_payload Scenario.calm true
       (build_world Scenario.calm Scenario.windows_with_failing_disk)
       = (Ok built, w0') ∧
     keeps_keys built (built_payload Scenario.windows_cycle)) ∧
  is_Some (returned ∅ (_build_payload Scenario.calm true
             (build_world Scenario.calm Scenario.windows_with_failing_disk))
           !! "meta").
Proof.
  assert (H : Scenario.windows_cycle
    = (Ok (Completed (built_payload Scenario.windows_cycle)),
       Scenario.windows_cycle.2))
    by (apply completes_eq; vm_compute; reflexivity).
  split; [exact H|]. split; [vm_compute; reflexivity|].
  pose proof (events_and_metrics_always_present _ _ _ _ _ _ H) as (_ & Hsent & Hp & _).
  split; [exact Hsent|].
  destruct (Hp _ eq_refl) as (Hkeys & _ & Hbuilt).
  split; [exact Hkeys|]. split; [exact Hbuilt|].
  vm_compute. eexists. reflexivity.
Defined.

(** * [run] without a [checksd] argument *)

Lemma same_checks_d_run_None env se : preserves same_checks_d (run env None se).
Proof.
  intros w r w' Hrun.
  apply run_inv in Hrun as [(e' & _ & Hb)|(n & L0 & w1 & Hb & H)].
  { by apply same_checks_d_begin_run in Hb. }
  apply same_checks_d_begin_run in Hb.
  destruct H as [(e' & _ & Hc)|(L1 & w2 & Hc & H)].
  { apply same_cycle_collect in Hc as [_ Hc]. by etrans. }
  apply same_cycle_collect in Hc as [_ Hc].
  destruct H as [(e' & _ & Hd)|[(_ & Hd)|(L2 & sts & w3 & Hd & Hf)]].
  { apply same_cycle_checks_d in Hd as [_ Hd]. by repeat (etrans; [eassumption|]). }
  { apply same_cycle_checks_d in Hd as [_ Hd]. by repeat (etrans; [eassumption|]). }
  apply same_cycle_checks_d in Hd as [_ Hd].
  apply same_cycle_finish_run in Hf as [_ Hf].
  by repeat (etrans; [eassumption|]).
Qed.

Lemma run_Some_stores env cd se w c w' :
  run env (Some cd) se w = (Ok c, w') →
  initialized_checks_d (self w') = initialized_checks cd ∧
  init_failed_checks_d (self w') = InitFailedDict (init_failed_checks cd).
Proof.
  intros Hrun.
  apply run_inv in Hrun as [(e' & [=] & _)|(n & L0 & w1 & Hb & H)].
  apply begin_run_inv in Hb as (_ & _ & Hi & Hf & _).
  assert (Hsame : same_checks_d w1 w').
  { destruct H as [(e' & [=] & _)|(L1 & w2 & Hc & H)].
    apply same_cycle_collect in Hc as [_ Hc].
    destruct H as [(e' & [=] & _)|[(_ & Hd)|(L2 & sts & w3 & Hd & Hfin)]].
    - apply same_cycle_checks_d in Hd as [_ Hd]. by etrans.
    - apply same_cycle_checks_d in Hd as [_ Hd].
      apply same_cycle_finish_run in Hfin as [_ Hfin].
      by repeat (etrans; [eassumption|]). }
  destruct Hsame as [Hs1 Hs2]. split; congruence.
Qed.

Lemma init_checks_d ext agentConfig emitters systemStats w :
  __init__ ext agentConfig emitters systemStats = Ok w →
  initialized_checks_d (self w) = [] ∧
  init_failed_checks_d (self w) = InitFailedList.
Proof.
  unfold __init__. repeat case_match; try done. by intros [= <-].
Qed.

(** C10: a call of [run] without a [checksd] argument leaves
    [initialized_checks_d] and [init_failed_checks_d] as they are, however
    the cycle ends; on a freshly constructed collector they are the empty
    list; when the collector comes out of a cycle that was given [checksd]
    (and got as far as storing it), a cycle without the argument that
    completes hands to the persistence one CheckStatus per check of that
    [checksd], in order, followed by one per check that failed to
    initialize. *)
Theorem run_without_checksd_reuses_stored_checks env se w r w' :
  run env None se w = (r, w') →
  (initialized_checks_d (self w') = initialized_checks_d (self w) ∧
   init_failed_checks_d (self w') = init_failed_checks_d (self w)) ∧
  (∀ ext agentConfig emitters systemStats,
     __init__ ext agentConfig emitters systemStats = Ok w →
     initialized_checks_d (self w) = [] ∧
     init_failed_checks_d (self w) = InitFailedList) ∧
  (∀ env0 cd se0 w0 c0 p,
     run env0 (Some cd) se0 w0 = (Ok c0, w) →
     r = Ok (Completed p) →
     ∃ status s1 s2,
       persisted w' = persisted w ++ [status] ∧
       check_statuses status = s1 ++ s2 ∧
       Forall2 (status_of_check (run_count (self w'))) (initialized_checks cd) s1 ∧
       Forall2 status_of_init_failure (init_failed_checks cd) s2).
Proof.
  intros Hrun. apply same_checks_d_run_None in Hrun as Hsame.
  split; [done|]. split; [intros; by eapply init_checks_d|].
  intros env0 cd se0 w0 c0 p [Hi Hf]%run_Some_stores ->.
  apply run_completed_statuses in Hrun
    as (status & s1 & s2 & items & Hpers & Hcs & Hall1 & Hitems & Hall2).
  destruct Hsame as [Hs1 Hs2].
  exists status, s1, s2. split_and!; try done.
  - by rewrite <- Hi, <- Hs1.
  - rewrite Hs2, Hf in Hitems. by simplify_eq.
Qed.

Lemma run_without_checksd_reuses_stored_checks_witness :
  Scenario.first_cycle
    = (Ok (Completed (built_payload Scenario.first_cycle)), Scenario.first_cycle.2) ∧
  Scenario.second_cycle
    = (Ok (Completed (built_payload Scenario.second_cycle)), Scenario.second_cycle.2) ∧
  check_statuses <$> persisted Scenario.second_cycle.2 =
    [[mkCheckStatus "disk_extra" (VList []) (Some 0%nat) (Some 0%nat) None None;
      mkCheckStatus "redis" (VList [VStr "instance #0 OK"])
        (Some 2%nat) (Some 1%nat) None None;
      mkCheckStatus "bad_plugin" VNone None None
        (Some (VStr "ImportError: x")) (Some (VStr "Traceback"))];
     [mkCheckStatus "disk_extra" (VList []) (Some 0%nat) (Some 0%nat) None None;
      mkCheckStatus "redis" (VList [VStr "instance #0 OK"])
        (Some 2%nat) (Some 1%nat) None None;
      mkCheckStatus "bad_plugin" VNone None None
        (Some (VStr "ImportError: x")) (Some (VStr "Traceback"))]] ∧
  (name <$> initialized_checks_d (self Scenario.second_cycle.2)
     = ["disk_extra"; "redis"]) ∧
  ∃ status s1 s2,
    persisted Scenario.second_cycle.2
      = persisted Scenario.first_cycle.2 ++ [status] ∧
    check_statuses status = s1 ++ s2 ∧
    Forall2 (status_of_check (run_count (self Scenario.second_cycle.2)))
      (initialized_checks Scenario.two_checks) s1 ∧
    Forall2 status_of_init_failure (init_failed_checks Scenario.two_checks) s2.
Proof.
  assert (H1 : Scenario.first_cycle
    = (Ok (Completed (built_payload Scenario.first_cycle)), Scenario.first_cycle.2))
    by (apply completes_eq; vm_compute; reflexivity).
  assert (H2 : Scenario.second_cycle
    = (Ok (Completed (built_payload Scenario.second_cycle)), Scenario.second_cycle.2))
    by (apply completes_eq; vm_compute; reflexivity).
  split; [exact H1|]. split; [exact H2|].
  split; [vm_compute; reflexivity|]. split; [vm_compute; reflexivity|].
  exact (proj2 (proj2 (run_without_checksd_reuses_stored_checks _ _ _ _ _ H2))
           _ _ _ _ _ _ H1 eq_refl).
Defined.

(** On a freshly constructed collector, [run] without a [checksd] argument
    gets as far as the loop over [init_failed_checks_d], which is still the
    list [__init__] made, and raises there. *)
Example fresh_collector_without_checksd :
  (run Scenario.calm None true (Scenario.linux [])).1 = Raise AttributeError.
Proof. vm_compute. reflexivity. Qed.

(** * Merging events *)

(** The events of a checks.d check are appended to the sequence already
    under its name, or stored when the name is new. *)
Lemma merge_events_append_or_create name new events events' :
  merge_events name new events = Ok events' →
  (events !! name = None ∧ events' = <[name := VList new]> events) ∨
  (∃ old, events !! name = Some (VList old) ∧
          events' = <[name := VList (old ++ new)]> events).
Proof.
  unfold merge_events.
  destruct (events !! name) as [[| | | |old|]|]; try done; intros [= <-]; eauto.
Qed.

(** An event check stores its result under its key, whatever is there. *)
Lemma event_check_stores n check events data :
  event_check check n = Ok data → py_truthy data = true →
  event_checks n [check] events = Ok (<[key check := data]> events).
Proof. intros Hdata Htrue. cbn. rewrite Hdata. cbn. by rewrite Htrue. Qed.

Lemma truthy_dict d k v : d !! k = Some v → py_truthy (VDict d) = true.
Proof.
  intros Hk. cbn. destruct (Nat.eqb (size d) 0) eqn:Hsize; [|done].
  apply Nat.eqb_eq, map_size_empty_inv in Hsize. by simplify_map_eq.
Qed.

Lemma payload_view_events L :
  payload L !! "events" = None →
  payload_view L !! "events" = Some (VDict (events L)).
Proof.
  intros H. unfold payload_view.
  destruct (decide (is_Some (payload L !! "metrics"))) as [[m Hm]|Hm].
  - rewrite lookup_union_r; [by simplify_map_eq|].
    apply lookup_union_None. by simplify_map_eq.
  - rewrite lookup_union_r; [by simplify_map_eq|].
    apply lookup_union_None. by simplify_map_eq.
Qed.

(** The events of the dogstreams: [events['dogstream']] is extended when the
    key is there, and bound to the events otherwise. *)
Lemma dogstream_events_merge n c L ganglia data forwarder found :
  _ganglia c n = Ok ganglia →
  _dogstream c n = Ok (VDict data) →
  _ddforwarder c n = Ok forwarder →
  data !! "dogstreamEvents" = Some found →
  py_truthy found = true →
  payload L !! "events" = None →
  (events L !! "dogstream" = None →
   ∃ L', old_style_checks n c L = Ok L' ∧
         events L' = <["dogstream" := found]> (events L)) ∧
  (∀ old new,
     events L !! "dogstream" = Some (VList old) →
     py_iter found = Ok new →
     ∃ L', old_style_checks n c L = Ok L' ∧
           events L' = <["dogstream" := VList (old ++ new)]> (events L)).
Proof.
  intros Hg Hd Hf Hfound Htruthy Hevents.
  unfold old_style_checks. msimpl. rewrite Hg, Hd, Hf.
  rewrite (truthy_dict _ _ _ Hfound). cbn [py_get]. rewrite Hfound.
  cbn [from_option id]. rewrite Htruthy.
  set (L1 := match ganglia with
             | VBool false | VNone => L
             | _ => set_payload (<["ganglia" := ganglia]> (payload L)) L
             end).
  assert (HL1 : events L1 = events L ∧ payload L1 !! "events" = None).
  { unfold L1. destruct ganglia as [|[]| | | |]; cbn; by simplify_map_eq. }
  destruct HL1 as (He1 & Hp1). clearbody L1.
  unfold py_item. rewrite (payload_view_events _ Hp1). cbn [py_contains].
  rewrite He1. split.
  - intros Hnone. rewrite Hnone.
    rewrite bool_decide_eq_false_2 by (by intros [? ?]).
    cbn [py_update]. eexists. split; [reflexivity|].
    by destruct (py_truthy forwarder).
  - intros old new Hold Hnew. rewrite Hold.
    rewrite bool_decide_eq_true_2 by done.
    unfold dogstream_extend. rewrite Hold, Hnew. cbn [py_update].
    msimpl. eexists. split; [reflexivity|].
    by destruct (py_truthy forwarder).
Qed.

(** C4 (as the code has it), for the three places where [run] writes into
    [events], in cycle [n] with the locals [L].  The events of the dogstreams
    and the events of a checks.d check are merged: appended after the
    sequence already under the key, or stored under the key when it is new
    (the events of a checks.d check are left out when the key holds
    something that is not a sequence).  The result of an event check is not
    merged: when there is one, it is stored under the key of the check,
    whatever [events] held there. *)
Theorem events_are_merged_or_stored n L :
  (∀ c ganglia data forwarder found,
     _ganglia c n = Ok ganglia →
     _dogstream c n = Ok (VDict data) →
     _ddforwarder c n = Ok forwarder →
     data !! "dogstreamEvents" = Some found →
     py_truthy found = true →
     payload L !! "events" = None →
     (events L !! "dogstream" = None →
      ∃ L', old_style_checks n c L = Ok L' ∧
            events L' = <["dogstream" := found]> (events L)) ∧
     (∀ old new,
        events L !! "dogstream" = Some (VList old) →
        py_iter found = Ok new →
        ∃ L', old_style_checks n c L = Ok L' ∧
              events L' = <["dogstream" := VList (old ++ new)]> (events L))) ∧
  (∀ env i check w instance_statuses current_check_metrics current_check_events,
     check_run check n = Ok instance_statuses →
     get_metrics check n = Ok current_check_metrics →
     get_events check n = Ok current_check_events →
     ∃ L' status w',
       run_check_d env n i check L w = (Ok (L', status), w') ∧
       match current_check_events, events L !! name check with
       | [], _ => events L' = events L
       | _ :: _, None =>
           events L' = <[name check := VList current_check_events]> (events L)
       | _ :: _, Some (VList old) =>
           events L' =
             <[name check := VList (old ++ current_check_events)]> (events L)
       | _ :: _, Some _ => events L' = events L
       end) ∧
  (∀ check rest event_data,
     event_check check n = Ok event_data →
     event_checks n (check :: rest) (events L) =
       event_checks n rest
         (if py_truthy event_data
          then <[key check := event_data]> (events L)
          else events L)).
Proof.
  split_and!.
  - intros c ganglia data forwarder found. apply dogstream_events_merge.
  - intros env i check w inst ms evs Hrun Hms Hevs.
    rewrite run_check_d_unfold. unfold check_d_try. rewrite Hrun, Hms, Hevs.
    destruct evs as [|ev evs]; [by eexists _, _, _|].
    unfold merge_events. cbn [events set_metrics].
    destruct (events L !! name check) as [[| | | |old|]|];
      by eexists _, _, _.
  - intros check rest data Hdata. cbn [event_checks]. by rewrite Hdata.
Qed.

Lemma events_are_merged_or_stored_witness :
  (∃ L',
     old_style_checks 1
       (Cases.dogstream_host (VDict (Cases.syslog_data (VList [VStr "disk full"]))))
       Cases.with_dogstream_events = Ok L' ∧
     events L' =
       <["dogstream" := VList ([VStr "login failed"] ++ [VStr "disk full"])]>
         (events Cases.with_dogstream_events)) ∧
  (∃ L' status w',
     run_check_d Scenario.calm 1 0 Cases.dogstream_check Cases.with_dogstream_events
       Scenario.idle = (Ok (L', status), w') ∧
     events L' =
       <["dogstream" := VList ([VStr "login failed"] ++ [VStr "queue is full"])]>
         (events Cases.with_dogstream_events)) ∧
  event_checks 1 [Scenario.nagios "dogstream" (VList [VStr "host web02 is DOWN"])]
    (events Cases.with_dogstream_events)
    = Ok (<["dogstream" := VList [VStr "host web02 is DOWN"]]>
            (events Cases.with_dogstream_events)).
Proof.
  pose proof (events_are_merged_or_stored 1 Cases.with_dogstream_events)
    as (Hdog & Hcheck & Hevent).
  split_and!.
  - apply (proj2 (Hdog
             (Cases.dogstream_host
                (VDict (Cases.syslog_data (VList [VStr "disk full"]))))
             VNone (Cases.syslog_data (VList [VStr "disk full"])) VNone
             (VList [VStr "disk full"])
             eq_refl eq_refl eq_refl eq_refl eq_refl eq_refl)
             [VStr "login failed"] [VStr "disk full"]); reflexivity.
  - apply (Hcheck Scenario.calm 0%nat Cases.dogstream_check Scenario.idle
             (VList []) [] [VStr "queue is full"]); reflexivity.
  - apply (Hevent (Scenario.nagios "dogstream" (VList [VStr "host web02 is DOWN"]))
             [] (VList [VStr "host web02 is DOWN"])). reflexivity.
Defined.

(** C4, as stated, fails for the event checks.  An event check whose key
    is 'System' reports an event in the first cycle, with the startup event
    requested.  [_build_payload] has put the startup event under
    events['System']; the cycle completes with events['System'] holding the
    event of the check alone: the startup event was replaced, not preceded.
    A checks.d check named 'System' reporting the same event, merged a few
    lines later, leaves the startup event first and its own event after
    it. *)
Lemma event_check_overwrites_earlier_events :
  (∃ e startup,
     returned ∅ (_build_payload Scenario.calm true Scenario.first_build) !! "events"
       = Some (VDict e) ∧
     e !! "System" = Some (VList [startup])) ∧
  completes Scenario.system_events_cycle = true ∧
  built_payload Scenario.system_events_cycle !! "events"
    = Some (VDict {["System" := VList [VStr "host web02 is DOWN"]]}) ∧
  completes Scenario.system_check_cycle = true ∧
  built_payload Scenario.system_check_cycle !! "events"
    = Some (VDict {["System" :=
         VList [startup_event (VStr "0123abcd") (VStr "web01") 100 "3.6.0";
                VStr "host web02 is DOWN"]]}).
Proof.
  split; [eexists _, _; split; vm_compute; reflexivity|].
  vm_compute. repeat split.
Qed.

(** * The stop flag is a latch *)

Lemma frame_run env cd se : preserves frame (run env cd se).
Proof.
  unfold run. repeat preserves_step;
    eauto using frame_begin_run, frame_collect, frame_checks_d, frame_finish_run.
  all: preserves_tac.
Qed.

Lemma run_stopped_sends_nothing env cd se w r w' :
  continue_running (self w) = false →
  run env cd se w = (r, w') →
  sent w' = sent w ∧ continue_running (self w') = false.
Proof.
  intros Hstop Hrun. split.
  2: { by apply (frame_run _ _ _ _ _ _ Hrun). }
  destruct r as [[|p]|e].
  2: { apply run_completed in Hrun
      as (n & L0 & w1 & L1 & w2 & L2 & sts & w3 & Hb & Hc & Hd & Hf).
    assert (continue_running (self w3) = false) as Hstop3.
    { apply (frame_checks_d _ _ _ _ _ _ Hd), (frame_collect _ _ _ _ _ Hc),
        (frame_begin_run _ _ _ _ _ _ Hb), Hstop. }
    apply finish_run_inv in Hf as [(e & ? & _)|Hf]; [done|].
    destruct Hf as (agent & att & skip & ests & status & _ & _ & Hsent & _ & _ & _ & _ & Hnone & _).
    rewrite Hsent, (Hnone Hstop3). cbn. rewrite app_nil_r.
    rewrite (proj1 (quiet_checks_d _ _ _ _ _ _ Hd)),
      (proj1 (quiet_collect _ _ _ _ _ Hc)).
    apply (quiet_begin_run _ _ _ _ _ _ Hb). }
  all: by apply (run_quiet_unless_completed _ _ _ _ _ _ Hrun).
Qed.

(** X1: [stop()] clears [continue_running] and forwards the request to every
    initialized checks.d check, in order.  Once the flag is cleared, a call
    of [run] hands the payload to no emitter, however the call ends, and
    leaves the flag cleared: nothing in [run] sets it again. *)
Theorem stop_prevents_emission env cd se w :
  (continue_running (self (stop w)) = false ∧
   stopped (stop w) = stopped w ++ (name <$> initialized_checks_d (self w)) ∧
   sent (run env cd se (stop w)).2 = sent w) ∧
  (continue_running (self w) = false →
   sent (run env cd se w).2 = sent w ∧
   continue_running (self (run env cd se w).2) = false).
Proof.
  assert (Hs : continue_running (self (stop w)) = false).
  { by destruct w as [[] ? ? ? ?]. }
  split; [split_and!; [done|done|]|].
  - destruct (run env cd se (stop w)) as [r w'] eqn:Hrun. cbn [snd].
    by destruct (run_stopped_sends_nothing _ _ _ _ _ _ Hs Hrun) as [-> _].
  - intros Hstop. destruct (run env cd se w) as [r w'] eqn:Hrun. cbn [snd].
    by apply (run_stopped_sends_nothing _ _ _ _ _ _ Hstop Hrun).
Qed.

Lemma stop_prevents_emission_witness :
  continue_running (self Cases.stopped_linux) = false ∧
  completes Cases.cycle_after_stop = true ∧
  emitter_statuses <$> persisted Cases.cycle_after_stop.2 = [[]] ∧
  sent Cases.cycle_after_stop.2 = sent Cases.stopped_linux ∧
  continue_running (self Cases.cycle_after_stop.2) = false.
Proof.
  split; [by vm_compute|]. split; [by vm_compute|]. split; [by vm_compute|].
  apply (stop_prevents_emission Scenario.calm (Some Scenario.no_checks_d) true
           Cases.stopped_linux).
  by vm_compute.
Defined.

(** * The cycle counter *)

#[local] Instance same_run_count_refl : Reflexive same_run_count.
Proof. intros w. by unfold same_run_count. Qed.
#[local] Instance same_run_count_trans : Transitive same_run_count.
Proof. unfold same_run_count. intros w1 w2 w3 ? ?. congruence. Qed.

(** A primitive step leaves a field of the collector alone, by computation. *)
Ltac field_prim R :=
  let w := fresh "w" in
  let H := fresh "H" in
  intros w ? ? H; msimpl;
  repeat case_match; simplify_eq;
  unfold R, stop,
    set_emit_duration, set_metadata_start, set_run_count, set_continue_running,
    set_metadata_cache, set_checks_d;
  repeat match goal with x : World |- _ => destruct x as [[] ? ? ? ?] end; cbn;
  done.

Lemma begin_run_count env cd se w r w1 :
  begin_run env cd se w = (r, w1) → run_count (self w1) = S (run_count (self w)).
Proof.
  unfold begin_run. rewrite bind_unfold. unfold modify_self at 1.
  cbn beta iota. intros H.
  match type of H with
  | ?m _ = _ => assert (Hp : preserves same_run_count m)
  end.
  { repeat preserves_step; try field_prim same_run_count.
    intros w2 r2 w2' H2. by apply (same_cycle_build_payload _ _ _ _ _ H2). }
  apply Hp in H. unfold same_run_count in H. rewrite H.
  by destruct w as [[] ? ? ? ?].
Qed.

(** X2: every call of [run] increases [run_count] by exactly one, whether
    the cycle completes, is stopped at a checkpoint or ends in an exception
    (the counter is incremented before anything that can raise). *)
Theorem run_counts_every_call env cd se w :
  run_count (self (run env cd se w).2) = S (run_count (self w)).
Proof.
  destruct (run env cd se w) as [r w'] eqn:Hrun. cbn [snd].
  apply run_inv in Hrun as [(e & _ & Hb)|(n & L0 & w1 & Hb & Hrun)].
  { by eapply begin_run_count. }
  apply begin_run_count in Hb as <-.
  destruct Hrun as [(e & _ & Hc)|(L1 & w2 & Hc & Hrun)].
  { apply (same_cycle_collect _ _ _ _ _ Hc). }
  rewrite <- (proj1 (same_cycle_collect _ _ _ _ _ Hc)).
  destruct Hrun as [(e & _ & Hd)|[(_ & Hd)|(L2 & sts & w3 & Hd & Hf)]].
  - apply (same_cycle_checks_d _ _ _ _ _ _ Hd).
  - apply (same_cycle_checks_d _ _ _ _ _ _ Hd).
  - rewrite <- (proj1 (same_cycle_checks_d _ _ _ _ _ _ Hd)).
    apply (same_cycle_finish_run _ _ _ _ _ _ Hf).
Qed.

(** * The stored checks.d checks *)

Lemma begin_run_raises env cd se w e w' :
  begin_run env cd se w = (Raise e, w') →
  ∃ w0, _build_payload env se w0 = (Raise e, w') ∧ same_checks_d w w0.
Proof.
  unfold begin_run. rewrite bind_unfold. unfold modify_self at 1. cbn beta iota.
  rewrite bind_unfold. unfold get_self at 1. cbn beta iota.
  rewrite bind_unfold. unfold log_record at 1. cbn beta iota.
  rewrite bind_unfold. unfold interrupt at 1. cbn beta iota.
  match goal with
  | |- context [(_build_payload env se ≫= _) ?w0] => set (W0 := w0)
  end.
  rewrite bind_unfold.
  destruct (_build_payload env se W0) as [[built|e'] wb] eqn:Hb.
  - destruct (build_payload_lookups _ _ _ _ _ Hb) as (Hm & _ & [ev Hev] & _).
    msimpl. unfold py_item. rewrite Hm, Hev. cbn. by destruct cd.
  - intros [= <- <-]. exists W0. split; [done|]. subst W0.
    unfold same_checks_d, stop.
    by destruct (stop_signal env DuringBuildPayload), w as [[] ? ? ? ?].
Qed.

(** X3: [run(checksd)] stores the two sets of checks.d checks as soon as
    the payload is built, before any check runs: whatever happens later in
    the call (a system check raises, the cycle is stopped), the collector
    holds the new sets afterwards.  Only when [_build_payload] itself raises
    are the previous sets still in place. *)
Theorem checksd_stored_once_payload_is_built env cd se w r w' :
  run env (Some cd) se w = (r, w') →
  (initialized_checks_d (self w') = initialized_checks cd ∧
   init_failed_checks_d (self w') = InitFailedDict (init_failed_checks cd)) ∨
  (∃ e w0, r = Raise e ∧ _build_payload env se w0 = (Raise e, w') ∧
           initialized_checks_d (self w') = initialized_checks_d (self w) ∧
           init_failed_checks_d (self w') = init_failed_checks_d (self w)).
Proof.
  intros Hrun.
  apply run_inv in Hrun as [(e & -> & Hb)|(n & L0 & w1 & Hb & Hrun)].
  { right. apply begin_run_raises in Hb as (w0 & Hb & Hw0 & Hw0').
    apply same_cycle_build_payload in Hb as Hsame.
    destruct Hsame as (_ & H1 & H2).
    exists e, w0. split_and!; [done|done|congruence|congruence]. }
  left. apply begin_run_inv in Hb as (_ & _ & H1 & H2 & _).
  rewrite <- H1, <- H2.
  assert (same_checks_d w1 w') as [? ?]; [|done].
  destruct Hrun as [(e & _ & Hc)|(L1 & w2 & Hc & Hrun)].
  { apply (same_cycle_collect _ _ _ _ _ Hc). }
  etrans; [apply (same_cycle_collect _ _ _ _ _ Hc)|].
  destruct Hrun as [(e & _ & Hd)|[(_ & Hd)|(L2 & sts & w3 & Hd & Hf)]].
  - apply (same_cycle_checks_d _ _ _ _ _ _ Hd).
  - apply (same_cycle_checks_d _ _ _ _ _ _ Hd).
  - etrans; [apply (same_cycle_checks_d _ _ _ _ _ _ Hd)|].
    apply (same_cycle_finish_run _ _ _ _ _ _ Hf).
Qed.

Lemma checksd_stored_once_payload_is_built_witness :
  Cases.failing_cycle_with_checks
    = (Raise (Failure "boom"), Cases.failing_cycle_with_checks.2) ∧
  name <$> initialized_checks_d (self Cases.failing_cycle_with_checks.2)
    = ["disk_extra"; "redis"] ∧
  ((initialized_checks_d (self Cases.failing_cycle_with_checks.2)
      = initialized_checks Scenario.two_checks ∧
    init_failed_checks_d (self Cases.failing_cycle_with_checks.2)
      = InitFailedDict (init_failed_checks Scenario.two_checks)) ∨
   (∃ e w0, (Raise (Failure "boom") : result Cycle) = Raise e ∧
      _build_payload Scenario.calm true w0
        = (Raise e, Cases.failing_cycle_with_checks.2) ∧
      initialized_checks_d (self Cases.failing_cycle_with_checks.2)
        = initialized_checks_d (self Scenario.linux_with_failing_custom_check) ∧
      init_failed_checks_d (self Cases.failing_cycle_with_checks.2)
        = init_failed_checks_d (self Scenario.linux_with_failing_custom_check))).
Proof.
  assert (H : Cases.failing_cycle_with_checks
              = (Raise (Failure "boom"), Cases.failing_cycle_with_checks.2)).
  { apply outcome_eq. by vm_compute. }
  split; [exact H|]. split; [by vm_compute|].
  exact (checksd_stored_once_payload_is_built Scenario.calm Scenario.two_checks
           true Scenario.linux_with_failing_custom_check _ _ H).
Defined.

(** X4: a collector whose checks.d sets are as [__init__] leaves them (two
    empty lists, lines 54-55) cannot complete a cycle through [run()]
    without a [checksd] argument: the call raises (AttributeError at
    [iteritems()] when nothing raised before), no emitter is called and no
    status is persisted, and the sets are as before, so that every later
    [run()] without argument fails in the same way. *)
Theorem collector_never_given_checksd env se w :
  initialized_checks_d (self w) = [] →
  init_failed_checks_d (self w) = InitFailedList →
  (∃ e, (run env None se w).1 = Raise e) ∧
  (∀ n L0 w1 L1 w2,
     begin_run env None se w = (Ok (n, L0), w1) →
     collect n L0 w1 = (Ok L1, w2) →
     (run env None se w).1 = Raise AttributeError) ∧
  sent (run env None se w).2 = sent w ∧
  persisted (run env None se w).2 = persisted w ∧
  initialized_checks_d (self (run env None se w).2) = [] ∧
  init_failed_checks_d (self (run env None se w).2) = InitFailedList.
Proof.
  intros Hi Hf.
  destruct (run env None se w) as [r w'] eqn:Hrun. cbn [fst snd].
  destruct (same_checks_d_run_None _ _ _ _ _ Hrun) as [Hi' Hf'].
  assert (Hchecks : ∀ n L0 w1 L1 w2,
    begin_run env None se w = (Ok (n, L0), w1) →
    collect n L0 w1 = (Ok L1, w2) →
    checks_d env n L1 w2 = (Raise AttributeError, w2)).
  { intros n L0 w1 L1 w2 Hb Hc.
    destruct (same_checks_d_begin_run _ _ _ _ _ Hb) as [Hi1 Hf1].
    destruct (same_cycle_collect _ _ _ _ _ Hc) as (_ & Hi2 & Hf2).
    unfold checks_d. msimpl. rewrite Hi2, Hi1, Hi. cbn. msimpl.
    by rewrite Hf2, Hf1, Hf. }
  assert (Hraise : ∃ e, r = Raise e ∧
    ∀ n L0 w1 L1 w2,
     begin_run env None se w = (Ok (n, L0), w1) →
     collect n L0 w1 = (Ok L1, w2) → e = AttributeError).
  { apply run_inv in Hrun as [(e & -> & Hb)|(n & L0 & w1 & Hb & Hrun)].
    { exists e. split; [done|]. intros. congruence. }
    destruct Hrun as [(e & -> & Hc)|(L1 & w2 & Hc & Hrun)].
    { exists e. split; [done|]. intros. congruence. }
    specialize (Hchecks _ _ _ _ _ Hb Hc). rewrite Hchecks in Hrun.
    destruct Hrun as [(e & -> & [= <- <-])|[(_ & ?)|(? & ? & ? & ? & _)]];
      [|done|done].
    exists AttributeError. done. }
  destruct Hraise as (e & -> & He).
  split; [by eauto|].
  split; [intros n L0 w1 L1 w2 Hb Hc; by rewrite (He _ _ _ _ _ Hb Hc)|].
  destruct (run_quiet_unless_completed _ _ _ _ _ _ Hrun) as [-> ->]; [done|].
  split_and!; congruence.
Qed.

Lemma collector_never_given_checksd_witness :
  initialized_checks_d (self (Scenario.linux [Scenario.http_emitter])) = [] ∧
  init_failed_checks_d (self (Scenario.linux [Scenario.http_emitter])) = InitFailedList ∧
  Cases.cycle_without_checksd.1 = Raise AttributeError ∧
  sent Cases.cycle_without_checksd.2 = [] ∧
  (∃ e, Cases.cycle_without_checksd.1 = Raise e) ∧
  (∀ n L0 w1 L1 w2,
     begin_run Scenario.calm None true (Scenario.linux [Scenario.http_emitter])
       = (Ok (n, L0), w1) →
     collect n L0 w1 = (Ok L1, w2) →
     Cases.cycle_without_checksd.1 = Raise AttributeError) ∧
  sent Cases.cycle_without_checksd.2 = sent (Scenario.linux [Scenario.http_emitter]) ∧
  persisted Cases.cycle_without_checksd.2
    = persisted (Scenario.linux [Scenario.http_emitter]) ∧
  initialized_checks_d (self Cases.cycle_without_checksd.2) = [] ∧
  init_failed_checks_d (self Cases.cycle_without_checksd.2) = InitFailedList.
Proof.
  split; [by vm_compute|]. split; [by vm_compute|]. split; [by vm_compute|].
  split; [by vm_compute|].
  apply (collector_never_given_checksd Scenario.calm true
           (Scenario.linux [Scenario.http_emitter])); by vm_compute.
Defined.

(** * What the check groups and the dispatcher leave alone *)

Section Steps.
Context (R : World → World → Prop) `{!Reflexive R} `{!Transitive R}.
Hypothesis R_log : ∀ l m, preserves R (log_record l m).
Hypothesis R_interrupt : ∀ env ph, preserves R (interrupt env ph).
Hypothesis R_sent : ∀ n p, preserves R (record_sent n p).

Lemma steps_collect n L : preserves R (collect n L).
Proof. unfold collect, win32_system_checks. repeat preserves_step; auto. Qed.

Lemma steps_checks_d_loop env n checks : ∀ i L statuses,
  preserves R (checks_d_loop env n i checks L statuses).
Proof.
  induction checks; intros; cbn [checks_d_loop]; unfold run_check_d;
    repeat preserves_step; auto.
Qed.

Lemma steps_init_failed_loop env items : ∀ i statuses,
  preserves R (init_failed_loop env i items statuses).
Proof.
  induction items; intros; cbn [init_failed_loop]; repeat preserves_step; auto.
Qed.

Lemma steps_checks_d env n L : preserves R (checks_d env n L).
Proof.
  unfold checks_d. repeat preserves_step;
    auto using steps_checks_d_loop, steps_init_failed_loop.
Qed.

Lemma steps_emit_loop env n payload es : ∀ i statuses,
  preserves R (emit_loop env n i payload es statuses).
Proof.
  induction es; intros; cbn [emit_loop]; repeat preserves_step; auto.
Qed.

Lemma steps_emit env payload : preserves R (_emit env payload).
Proof. unfold _emit. repeat preserves_step; auto using steps_emit_loop. Qed.
End Steps.

#[local] Instance same_emit_duration_refl : Reflexive same_emit_duration.
Proof. intros w. by unfold same_emit_duration. Qed.
#[local] Instance same_emit_duration_trans : Transitive same_emit_duration.
Proof. unfold same_emit_duration. intros w1 w2 w3 ? ?. congruence. Qed.
#[local] Instance same_metadata_cache_refl : Reflexive same_metadata_cache.
Proof. intros w. by unfold same_metadata_cache. Qed.
#[local] Instance same_metadata_cache_trans : Transitive same_metadata_cache.
Proof. unfold same_metadata_cache. intros w1 w2 w3 ? ?. congruence. Qed.

Lemma same_emit_duration_begin_run env cd se :
  preserves same_emit_duration (begin_run env cd se).
Proof.
  unfold begin_run, _build_payload, _should_send_metadata, _get_metadata.
  repeat preserves_step; field_prim same_emit_duration.
Qed.

Lemma same_emit_duration_collect n L : preserves same_emit_duration (collect n L).
Proof. apply steps_collect; [apply _..|]; intros; field_prim same_emit_duration. Qed.

Lemma same_emit_duration_checks_d env n L :
  preserves same_emit_duration (checks_d env n L).
Proof.
  apply steps_checks_d; [apply _..| |]; intros; field_prim same_emit_duration.
Qed.

Lemma same_metadata_cache_collect n L : preserves same_metadata_cache (collect n L).
Proof. apply steps_collect; [apply _..|]; intros; field_prim same_metadata_cache. Qed.

Lemma same_metadata_cache_checks_d env n L :
  preserves same_metadata_cache (checks_d env n L).
Proof.
  apply steps_checks_d; [apply _..| |]; intros; field_prim same_metadata_cache.
Qed.

Lemma same_metadata_cache_emit env payload :
  preserves same_metadata_cache (_emit env payload).
Proof.
  apply steps_emit; [apply _..| | |]; intros; field_prim same_metadata_cache.
Qed.

(** The two ways [finish_run] ends: the agent metrics check raises, or the
    payload goes to the emitters and the status to the persistence. *)
Lemma finish_run_cases env L statuses w r w' :
  finish_run env L statuses w = (r, w') →
  (∃ e, r = Raise e ∧ w' = (interrupt env DuringAgentMetrics w).2) ∨
  ∃ p sent_statuses w2 l,
    r = Ok (Completed p) ∧
    _emit env p (interrupt env DuringAgentMetrics w).2 = (Ok sent_statuses, w2) ∧
    w' = mkWorld (set_emit_duration (Some (timer_step_emit env)) (self w2))
           (log w2 ++ l) (sent w2)
           (persisted w2 ++
              [mkCollectorStatus statuses sent_statuses (metadata_cache (self w2))])
           (stopped w2) ∧
    l = match persist env (mkCollectorStatus statuses sent_statuses
                             (metadata_cache (self w2))) with
        | Ok _ => []
        | Raise e => [(ERROR, Error_persisting_collector_status e)]
        end ++
        (if (Nat.leb (run_count (self w2)) FLUSH_LOGGING_INITIAL
             || Nat.eqb (run_count (self w2) mod FLUSH_LOGGING_PERIOD) 0)%bool
         then (INFO, Finished_run (run_count (self w2)) (timer_step_collect env)
                       (timer_step_emit env))
              :: (if Nat.eqb (run_count (self w2)) FLUSH_LOGGING_INITIAL
                  then [(INFO, First_flushes_done)] else [])
         else [(DEBUG, Finished_run (run_count (self w2)) (timer_step_collect env)
                         (timer_step_emit env))]).
Proof.
  unfold finish_run. rewrite bind_unfold. unfold interrupt at 1.
  cbn [snd interrupt].
  set (w1 := if stop_signal env DuringAgentMetrics then stop w else w).
  rewrite bind_unfold. cbn [get_self]. rewrite bind_unfold. unfold lift at 1.
  set (p0 := <["events" := VDict (events L)]>
             (<["metrics" := VList (metrics L)]> (payload L))).
  destruct (_ ≫= py_iter) as [agent|e] eqn:Hcall.
  2: { intros [= <- <-]. left. eauto. }
  rewrite bind_unfold.
  set (p := <["metrics" := VList (metrics L ++ agent)]> p0).
  destruct (_emit env p w1) as [[ests|e] w2] eqn:Hemit.
  2: { unfold _emit in Hemit. rewrite bind_unfold in Hemit. cbn [get_self] in Hemit.
       destruct (emit_loop_spec env (run_count (self w1)) p (emitters (self w1)) 0 [] w1)
         as (? & ? & ? & ? & Hl & _). congruence. }
  intros H. right. exists p, ests, w2.
  assert (metadata_cache (set_emit_duration (Some (timer_step_emit env)) (self w2))
          = metadata_cache (self w2)) as Hcache by (by destruct (self w2)).
  assert (run_count (set_emit_duration (Some (timer_step_emit env)) (self w2))
          = run_count (self w2)) as Hcount by (by destruct (self w2)).
  revert H. msimpl. rewrite Hcache, Hcount.
  destruct (persist env _) eqn:Hpersist; msimpl;
    (destruct (_ || _)%bool; msimpl; [destruct (Nat.eqb _ FLUSH_LOGGING_INITIAL)|]);
    msimpl; intros [= <- <-]; rewrite <- ?(assoc_L (++));
    eexists; (split; [reflexivity|]); (split; [exact Hemit|]);
    (split; [reflexivity|]); cbn [app]; rewrite ?app_nil_r; reflexivity.
Qed.

(** * The emit duration the collector remembers *)

(** X5: [emit_duration] is written at one place, after [_emit] returned:
    a cycle that runs to the end of [run] leaves the emit time measured by
    the timer in it; a cycle that is stopped at a checkpoint or ends in an
    exception leaves the value of the previous cycle ([None] when no cycle
    completed yet), which is what the agent metrics check of the next cycle
    is given. *)
Theorem emit_duration_set_by_completed_cycles env cd se w :
  emit_duration (self (run env cd se w).2) =
    if completes (run env cd se w) then Some (timer_step_emit env)
    else emit_duration (self w).
Proof.
  destruct (run env cd se w) as [r w'] eqn:Hrun. unfold completes. cbn [fst snd].
  apply run_inv in Hrun as [(e & -> & Hb)|(n & L0 & w1 & Hb & Hrun)].
  { apply (same_emit_duration_begin_run _ _ _ _ _ _ Hb). }
  rewrite <- (same_emit_duration_begin_run _ _ _ _ _ _ Hb).
  destruct Hrun as [(e & -> & Hc)|(L1 & w2 & Hc & Hrun)].
  { apply (same_emit_duration_collect _ _ _ _ _ Hc). }
  rewrite <- (same_emit_duration_collect _ _ _ _ _ Hc).
  destruct Hrun as [(e & -> & Hd)|[(-> & Hd)|(L2 & sts & w3 & Hd & Hf)]].
  - apply (same_emit_duration_checks_d _ _ _ _ _ _ Hd).
  - apply (same_emit_duration_checks_d _ _ _ _ _ _ Hd).
  - rewrite <- (same_emit_duration_checks_d _ _ _ _ _ _ Hd).
    apply finish_run_cases in Hf
      as [(e & -> & ->)|(p & ests & w4 & l & -> & _ & -> & _)].
    + cbn. by destruct (stop_signal env DuringAgentMetrics), w3 as [[] ? ? ? ?].
    + cbn. by destruct (self w4).
Qed.

(** * Persisting the status of the run *)

Lemma emit_loop_with_persist f env n payload es : ∀ i acc w,
  emit_loop (with_persist f env) n i payload es acc w
    = emit_loop env n i payload es acc w.
Proof.
  induction es as [|e es IH]; intros i acc w; cbn [emit_loop]; [done|].
  msimpl. cbn [stop_signal with_persist].
  destruct (continue_running (self w)); cbn [negb]; [|done].
  destruct (emit_call e n payload); apply IH.
Qed.

Lemma checks_d_loop_with_persist f env n checks : ∀ i L acc w,
  checks_d_loop (with_persist f env) n i checks L acc w
    = checks_d_loop env n i checks L acc w.
Proof.
  induction checks as [|check checks IH]; intros i L acc w;
    cbn [checks_d_loop]; [done|].
  rewrite !bind_unfold. cbn [get_self].
  destruct (continue_running (self w)); cbn [negb]; [|done].
  rewrite !bind_unfold.
  change (run_check_d (with_persist f env)) with (run_check_d env).
  destruct (run_check_d env n i check L w) as [[[L1 st]|e] w1]; [|done].
  apply IH.
Qed.

Lemma init_failed_loop_with_persist f env items : ∀ i acc w,
  init_failed_loop (with_persist f env) i items acc w
    = init_failed_loop env i items acc w.
Proof.
  induction items as [|[check_name info] items IH]; intros i acc w;
    cbn [init_failed_loop]; [done|].
  msimpl. cbn [stop_signal with_persist].
  destruct (continue_running (self w)); cbn [negb]; [|done].
  apply IH.
Qed.

Lemma checks_d_with_persist f env n L w :
  checks_d (with_persist f env) n L w = checks_d env n L w.
Proof.
  unfold checks_d. rewrite !bind_unfold. cbn [get_self].
  rewrite !bind_unfold, checks_d_loop_with_persist.
  destruct (checks_d_loop env n 0 _ L [] w) as [[[[L1 sts]|]|e] w1]; [|done|done].
  rewrite !bind_unfold. cbn [get_self]. rewrite !bind_unfold.
  destruct (lift _ w1) as [[items|e] w2]; [|done].
  by rewrite !bind_unfold, init_failed_loop_with_persist.
Qed.

Lemma finish_run_with_persist f env L statuses w :
  (finish_run (with_persist f env) L statuses w).1 = (finish_run env L statuses w).1 ∧
  self (finish_run (with_persist f env) L statuses w).2
    = self (finish_run env L statuses w).2 ∧
  sent (finish_run (with_persist f env) L statuses w).2
    = sent (finish_run env L statuses w).2 ∧
  persisted (finish_run (with_persist f env) L statuses w).2
    = persisted (finish_run env L statuses w).2 ∧
  stopped (finish_run (with_persist f env) L statuses w).2
    = stopped (finish_run env L statuses w).2.
Proof.
  unfold finish_run, _emit. msimpl.
  cbn [with_persist timer_step_collect clock_delta timer_step_emit persist
       stop_signal].
  set (w1 := if stop_signal env DuringAgentMetrics then stop w else w).
  destruct (match _agent_metrics _ _ _ _ _ _ with Ok a => py_iter a | Raise e => _ end)
    as [agent|e]; [|done].
  rewrite emit_loop_with_persist.
  destruct (emit_loop env _ _ _ _ _ w1) as [[ests|e] w2]; [|done].
  destruct (persist env _), (f _);
    (destruct (_ || _)%bool; [destruct (Nat.eqb _ FLUSH_LOGGING_INITIAL)|]);
    done.
Qed.

(** X6: persisting the status is best effort.  What [persist()] does has no
    influence on the call of [run]: with any other behaviour of [persist()]
    the call ends in the same way, leaves the same collector, sends the same
    payloads and hands over the same statuses; only the log can differ.
    When [persist()] raises on the status of a completed cycle, the
    exception is logged as an error. *)
Theorem persist_failure_is_only_logged env cd se w :
  (∀ f,
     (run (with_persist f env) cd se w).1 = (run env cd se w).1 ∧
     self (run (with_persist f env) cd se w).2 = self (run env cd se w).2 ∧
     sent (run (with_persist f env) cd se w).2 = sent (run env cd se w).2 ∧
     persisted (run (with_persist f env) cd se w).2
       = persisted (run env cd se w).2 ∧
     stopped (run (with_persist f env) cd se w).2 = stopped (run env cd se w).2) ∧
  (∀ p status e,
     (run env cd se w).1 = Ok (Completed p) →
     last (persisted (run env cd se w).2) = Some status →
     persist env status = Raise e →
     (ERROR, Error_persisting_collector_status e) ∈ log (run env cd se w).2).
Proof.
  split.
  - intros f. unfold run. rewrite !bind_unfold.
    change (begin_run (with_persist f env)) with (begin_run env).
    destruct (begin_run env cd se w) as [[[n L0]|e] w1]; [|done].
    rewrite !bind_unfold. destruct (collect n L0 w1) as [[L1|e] w2]; [|done].
    rewrite !bind_unfold.
    rewrite checks_d_with_persist.
    destruct (checks_d env n L1 w2) as [[[[L2 sts]|]|e] w3]; [|done|done].
    apply finish_run_with_persist.
  - intros p status e Hp Hlast Hraise.
    destruct (run env cd se w) as [r w'] eqn:Hrun. cbn [fst snd] in *. subst r.
    apply run_completed in Hrun
      as (n & L0 & w1 & L1 & w2 & L2 & sts & w3 & _ & _ & _ & Hf).
    apply finish_run_cases in Hf
      as [(? & [=] & _)|(p' & ests & w4 & l & _ & _ & -> & ->)].
    cbn [persisted log] in *. rewrite last_snoc in Hlast. injection Hlast as <-.
    rewrite Hraise. set_solver.
Qed.

Lemma persist_failure_is_only_logged_witness :
  completes Cases.unpersisted_cycle = true ∧
  (sent Cases.unpersisted_cycle.2).*1 = ["http_emitter"] ∧
  length (persisted Cases.unpersisted_cycle.2) = 1%nat ∧
  (ERROR, Error_persisting_collector_status (Failure "disk full"))
    ∈ log Cases.unpersisted_cycle.2.
Proof.
  split; [by vm_compute|]. split; [by vm_compute|]. split; [by vm_compute|].
  apply (proj2 (persist_failure_is_only_logged Cases.unpersisted
                  (Some Scenario.no_checks_d) true
                  (Scenario.linux [Scenario.http_emitter]))
           (built_payload Cases.unpersisted_cycle)
           (default Cases.no_status (last (persisted Cases.unpersisted_cycle.2)))
           (Failure "disk full")).
  - by vm_compute.
  - by vm_compute.
  - reflexivity.
Defined.

(** * The metadata of the persisted status *)

Lemma begin_run_build env cd se w n L0 w1 :
  begin_run env cd se w = (Ok (n, L0), w1) →
  ∃ built w0 w0',
    _build_payload env se w0 = (Ok built, w0') ∧
    run_count (self w0) = S (run_count (self w)) ∧
    metadata_start (self w0) = metadata_start (self w) ∧
    metadata_interval (self w0) = metadata_interval (self w) ∧
    metadata_cache (self w0) = metadata_cache (self w) ∧
    agentConfig (self w0) = agentConfig (self w) ∧
    metadata_cache (self w1) = metadata_cache (self w0') ∧
    metadata_start (self w1) = metadata_start (self w0') ∧
    L0 = mkLocals (delete "events" (delete "metrics" built))
           (match built !! "metrics" with Some (VList m) => m | _ => [] end)
           (match built !! "events" with Some (VDict e) => e | _ => ∅ end).
Proof.
  unfold begin_run. msimpl.
  match goal with
  | |- context [_build_payload env se ?w0] => set (W0 := w0)
  end.
  destruct (_build_payload env se W0) as [[built|?] w0'] eqn:Hbuild; [|done].
  unfold py_item, as_list, as_dict.
  destruct (built !! "metrics") as [[| | | |m|]|] eqn:Hm; try done.
  destruct (built !! "events") as [[| | | | |e]|] eqn:He; try done.
  intros H. exists built, W0, w0'. rewrite Hm, He.
  split; [done|].
  assert (HL : L0 = mkLocals (delete "events" (delete "metrics" built)) m e)
    by (by destruct cd; simplify_eq).
  split_and!; try done.
  1-5: unfold W0, stop;
    by destruct w as [[] ? ? ? ?], (stop_signal env DuringBuildPayload).
  all: clear -H;
    destruct cd, w0' as [[] ? ? ? ?], (stop_signal env DuringChecks);
    by simplify_eq.
Qed.

(** X7: the status a completed cycle hands to the persistence carries the
    collector's metadata cache.  In a cycle that does not take the metadata
    branch of [_build_payload] (not a first run, interval not passed) the
    cache is not touched, so the status repeats the metadata of the last
    refresh although the payload of the cycle has none. *)
Theorem persisted_status_carries_metadata_cache env cd se w p w' :
  run env cd se w = (Ok (Completed p), w') →
  ∃ status,
    persisted w' = persisted w ++ [status] ∧
    status_metadata status = metadata_cache (self w') ∧
    ((1 ≤ run_count (self w))%nat →
     interval_passed (self w) env = false →
     metadata_cache (self w') = metadata_cache (self w)).
Proof.
  intros (n & L0 & w1 & L1 & w2 & L2 & sts & w3 & Hb & Hc & Hd & Hf)%run_completed.
  apply quiet_begin_run in Hb as Hq1. destruct Hq1 as [_ Hp1].
  apply quiet_collect in Hc as Hq. destruct Hq as [_ Hp2].
  apply quiet_checks_d in Hd as Hq. destruct Hq as [_ Hp3].
  apply same_metadata_cache_collect in Hc. apply same_metadata_cache_checks_d in Hd.
  unfold same_metadata_cache in *.
  apply finish_run_cases in Hf
    as [(? & [=] & _)|(p' & ests & w4 & l & _ & Hemit & -> & _)].
  apply same_metadata_cache_emit in Hemit as Hcache4.
  assert (persisted w4 = persisted w3) as Hp4.
  { unfold _emit in Hemit. rewrite bind_unfold in Hemit. cbn [get_self] in Hemit.
    match type of Hemit with
    | emit_loop ?e ?n ?i ?p ?es ?acc ?w = _ =>
        destruct (emit_loop_spec e n p es i acc w)
          as (? & ? & ? & ? & Hl & _ & _ & _ & Hpers & _)
    end.
    rewrite Hl in Hemit. injection Hemit as _ <-. rewrite Hpers.
    unfold interrupt. cbn. by destruct (stop_signal env DuringAgentMetrics). }
  assert (metadata_cache (self w4) = metadata_cache (self w3)) as Hc4.
  { unfold same_metadata_cache in Hcache4. rewrite Hcache4.
    unfold interrupt. cbn. by destruct (stop_signal env DuringAgentMetrics), w3 as [[] ? ? ? ?]. }
  eexists. cbn [persisted self]. split; [|split].
  - rewrite Hp4, Hp3, Hp2, Hp1. reflexivity.
  - cbn. by destruct (self w4).
  - intros Hn Hint.
    replace (metadata_cache (set_emit_duration (Some (timer_step_emit env)) (self w4)))
      with (metadata_cache (self w4)) by (by destruct (self w4)).
    rewrite Hc4, Hd, Hc.
    apply begin_run_build in Hb
      as (built & w0 & w0' & Hbuild & Hrc & Hms & Hmi & Hmc & _ & -> & _).
    apply build_payload_inv in Hbuild
      as (? & ? & ? & ? & ? & _ & _ & _ & _ & _ & Hmeta & _).
    assert (sends_metadata (self w0) env = false) as Hno.
    { unfold sends_metadata, _is_first_run, interval_passed in *.
      rewrite Hrc, Hms, Hmi, Hint.
      destruct (run_count (self w)) as [|k]; [lia|]. done. }
    rewrite Hno in Hmeta. destruct Hmeta as [_ ->]. done.
Qed.

Lemma persisted_status_carries_metadata_cache_witness :
  Scenario.second_cycle
    = (Ok (Completed (built_payload Scenario.second_cycle)), Scenario.second_cycle.2) ∧
  (1 ≤ run_count (self Scenario.first_cycle.2))%nat ∧
  interval_passed (self Scenario.first_cycle.2) (Scenario.env 200 Scenario.never)
    = false ∧
  built_payload Scenario.second_cycle !! "meta" = None ∧
  ∃ status,
    persisted Scenario.second_cycle.2
      = persisted Scenario.first_cycle.2 ++ [status] ∧
    status_metadata status = metadata_cache (self Scenario.second_cycle.2) ∧
    metadata_cache (self Scenario.second_cycle.2)
      = metadata_cache (self Scenario.first_cycle.2).
Proof.
  assert (Hrun : Scenario.second_cycle
                 = (Ok (Completed (built_payload Scenario.second_cycle)),
                    Scenario.second_cycle.2))
    by (apply completes_eq; vm_compute; reflexivity).
  assert (Hn : (1 ≤ run_count (self Scenario.first_cycle.2))%nat)
    by (vm_compute; lia).
  assert (Hint : interval_passed (self Scenario.first_cycle.2)
                   (Scenario.env 200 Scenario.never) = false)
    by (vm_compute; reflexivity).
  split; [exact Hrun|]. split; [exact Hn|]. split; [exact Hint|].
  split; [vm_compute; reflexivity|].
  destruct (persisted_status_carries_metadata_cache
              (Scenario.env 200 Scenario.never) None true Scenario.first_cycle.2
              _ _ Hrun) as (status & Hp & Hm & Hc).
  exists status. split; [exact Hp|]. split; [exact Hm|]. exact (Hc Hn Hint).
Defined.

(** * The host metadata *)

(** X8: [_get_metadata] changes nothing of the collector and raises only
    when [EC2.get_metadata()] or [get_hostname()] does: a failure of either
    socket lookup is swallowed.  The result maps 'hostname' to what
    [get_hostname()] returned; a hostname reported by EC2 is kept under
    'ec2-hostname'.  A hostname of the configuration is recorded under
    'agent-hostname' and [socket.gethostname()] is then not recorded; without
    one, 'socket-hostname' is recorded when the lookup succeeds.  Every other
    entry of the EC2 metadata is passed on. *)
Theorem get_metadata_hostnames env w ec2 h :
  EC2_get_metadata env = Ok ec2 →
  get_hostname_noarg env = Ok h →
  ∃ m,
    _get_metadata env w = (Ok (VDict m), w) ∧
    m !! "hostname" = Some h ∧
    (∀ v, ec2 !! "hostname" = Some v → py_truthy v = true →
          m !! "ec2-hostname" = Some v) ∧
    (∀ a, agentConfig (self w) !! "hostname" = Some a → py_truthy a = true →
          m !! "agent-hostname" = Some a ∧
          m !! "socket-hostname" = ec2 !! "socket-hostname") ∧
    (py_truthy (default VNone (agentConfig (self w) !! "hostname")) = false →
     m !! "agent-hostname" = ec2 !! "agent-hostname" ∧
     m !! "socket-hostname" = match socket_gethostname env with
                              | Ok s => Some s
                              | Raise _ => ec2 !! "socket-hostname"
                              end) ∧
    m !! "socket-fqdn" = match socket_getfqdn env with
                         | Ok s => Some s
                         | Raise _ => ec2 !! "socket-fqdn"
                         end ∧
    (∀ k, k ∉ ["hostname"; "ec2-hostname"; "agent-hostname"; "socket-hostname";
               "socket-fqdn"] →
          m !! k = ec2 !! k).
Proof.
  intros Hec2 Hh. unfold _get_metadata. msimpl. rewrite Hec2, Hh.
  eexists. split; [reflexivity|].
  split; [by simplify_map_eq|].
  split.
  { intros v Hv Ht. rewrite Hv. cbn [from_option id]. rewrite Ht.
    destruct (py_truthy (default VNone (agentConfig (self w) !! "hostname")));
      destruct (socket_gethostname env), (socket_getfqdn env);
      by simplify_map_eq. }
  split.
  { intros a Ha Ht. rewrite Ha. cbn [from_option id]. rewrite Ht.
    destruct (py_truthy (default VNone (ec2 !! "hostname")));
      destruct (socket_getfqdn env); by simplify_map_eq. }
  split.
  { intros ->.
    destruct (py_truthy (default VNone (ec2 !! "hostname")));
      destruct (socket_gethostname env), (socket_getfqdn env);
      by simplify_map_eq. }
  split.
  { destruct (py_truthy (default VNone (ec2 !! "hostname")));
      destruct (py_truthy (default VNone (agentConfig (self w) !! "hostname")));
      destruct (socket_gethostname env), (socket_getfqdn env);
      by simplify_map_eq. }
  intros k Hk.
  assert (k ≠ "hostname" ∧ k ≠ "ec2-hostname" ∧ k ≠ "agent-hostname" ∧
          k ≠ "socket-hostname" ∧ k ≠ "socket-fqdn") as (?&?&?&?&?).
  { split_and!; intros ->; apply Hk; set_solver. }
  destruct (py_truthy (default VNone (ec2 !! "hostname")));
    destruct (py_truthy (default VNone (agentConfig (self w) !! "hostname")));
    destruct (socket_gethostname env), (socket_getfqdn env);
    by simplify_map_eq.
Qed.

Lemma get_metadata_hostnames_witness :
  ∃ m,
    _get_metadata Cases.on_ec2 (Scenario.linux []) = (Ok (VDict m), Scenario.linux []) ∧
    m !! "hostname" = Some (VStr "web01") ∧
    m !! "ec2-hostname" = Some (VStr "ip-10-0-0-1") ∧
    m !! "socket-hostname" = None ∧
    m !! "socket-fqdn" = Some (VStr "web01.example.com") ∧
    m !! "instance-id" = Some (VStr "i-0abc").
Proof.
  destruct (get_metadata_hostnames Cases.on_ec2 (Scenario.linux [])
              (<["hostname" := VStr "ip-10-0-0-1"]> {["instance-id" := VStr "i-0abc"]})
              (VStr "web01") eq_refl eq_refl)
    as (m & Hm & Hh & Hec2 & _ & Hsock & Hfqdn & Hrest).
  exists m. split; [exact Hm|]. split; [exact Hh|].
  split; [apply Hec2; vm_compute; reflexivity|].
  split; [rewrite (proj2 (Hsock ltac:(vm_compute; reflexivity))); vm_compute; reflexivity|].
  split; [rewrite Hfqdn; reflexivity|].
  rewrite Hrest; [vm_compute; reflexivity|].
  intros Hin. by vm_compute in Hin; repeat (apply elem_of_cons in Hin as [?|Hin]; [done|]); apply elem_of_nil in Hin.
Defined.

(** X9: [_should_send_metadata] never raises.  When it answers False it
    changes nothing.  When it answers True it restarts the interval at the
    current time: the next call answers True exactly when a full
    [metadata_interval] has passed since. *)
Theorem should_send_metadata_once_per_interval env w :
  (∃ b, (_should_send_metadata env w).1 = Ok b) ∧
  ((_should_send_metadata env w).1 = Ok false →
   (_should_send_metadata env w).2 = w) ∧
  ((_should_send_metadata env w).1 = Ok true →
   ∀ env',
     (_should_send_metadata env' (_should_send_metadata env w).2).1 =
       Ok (bool_decide (time_time_metadata env + metadata_interval (self w)
                          ≤ time_time_metadata env'))).
Proof.
  rewrite should_send_metadata_unfold.
  destruct (interval_passed (self w) env) eqn:Hpassed; cbn [fst snd].
  - split; [by eauto|]. split; [done|]. intros _ env'.
    rewrite should_send_metadata_unfold. unfold interval_passed. cbn [self].
    replace (metadata_interval (set_metadata_start (time_time_metadata env) (self w)))
      with (metadata_interval (self w)) by (by destruct (self w)).
    replace (metadata_start (set_metadata_start (time_time_metadata env) (self w)))
      with (time_time_metadata env) by (by destruct (self w)).
    case_bool_decide as Hd; destruct (_ <=? _) eqn:Hle; try done.
    + apply Z.leb_gt in Hle. lia.
    + apply Z.leb_le in Hle. lia.
  - split; [by eauto|]. split; [done|]. done.
Qed.

Lemma should_send_metadata_once_per_interval_witness :
  (_should_send_metadata (Scenario.env 650 Scenario.never) (Scenario.linux [])).1
    = Ok true ∧
  (_should_send_metadata (Scenario.env 700 Scenario.never)
     (_should_send_metadata (Scenario.env 650 Scenario.never) (Scenario.linux [])).2).1
    = Ok false ∧
  (_should_send_metadata (Scenario.env 1250 Scenario.never)
     (_should_send_metadata (Scenario.env 650 Scenario.never) (Scenario.linux [])).2).1
    = Ok true ∧
  (_should_send_metadata (Scenario.env 100 Scenario.never) (Scenario.linux [])).2
    = Scenario.linux [].
Proof.
  assert (H : (_should_send_metadata (Scenario.env 650 Scenario.never)
                 (Scenario.linux [])).1 = Ok true) by (vm_compute; reflexivity).
  pose proof (should_send_metadata_once_per_interval
                (Scenario.env 650 Scenario.never) (Scenario.linux []))
    as (_ & _ & Hnext).
  split; [exact H|].
  split; [rewrite (Hnext H (Scenario.env 700 Scenario.never)); vm_compute; reflexivity|].
  split; [rewrite (Hnext H (Scenario.env 1250 Scenario.never)); vm_compute; reflexivity|].
  apply (should_send_metadata_once_per_interval
           (Scenario.env 100 Scenario.never) (Scenario.linux [])).
  vm_compute. reflexivity.
Defined.

(** * The events and system stats of a fresh payload *)

(** X10: the startup event is the only event [_build_payload] ever puts in
    the payload, and it does so only when [start_event] holds in a first
    run: in every other call the payload starts with an empty 'events'
    dictionary. *)
Theorem startup_event_only_in_first_run env se w p w' :
  _build_payload env se w = (Ok p, w') →
  ∃ e, p !! "events" = Some (VDict e) ∧
       (∀ k, is_Some (e !! k) → k = "System") ∧
       (is_Some (e !! "System") ↔ se = true ∧ (run_count (self w) ≤ 1)%nat).
Proof.
  intros (agentVersion & apiKey & host & uuid & p1 & _ & _ & _ & _ & Hp1 & Hp & _)
    %build_payload_inv.
  assert (H1 : ∃ e, p1 !! "events" = Some (VDict e) ∧
       (∀ k, is_Some (e !! k) → k = "System") ∧
       (is_Some (e !! "System") ↔ se = true ∧ (run_count (self w) ≤ 1)%nat)).
  { unfold _is_first_run in Hp1.
    destruct se, (Nat.leb (run_count (self w)) 1) eqn:Hfirst; cbn [andb] in Hp1.
    1: destruct Hp1 as (version & _ & ->); unfold with_startup.
    2-4: subst p1; unfold base_payload.
    all: eexists; split; [by simplify_map_eq|].
    all: try apply Nat.leb_le in Hfirst; try apply Nat.leb_gt in Hfirst.
    all: split; [intros k [v Hk]|split; [intros [v Hk]|intros [? ?]]].
    all: try by simplify_map_eq.
    all: try lia.
    all: destruct (decide (k = "System")) as [->|]; [done|by simplify_map_eq]. }
  destruct H1 as (e & He & Hkeys & Hsys). exists e. split; [|done].
  destruct (sends_metadata _ _).
  - destruct Hp as (systemStats & meta & tags & _ & _ & -> & _).
    unfold with_metadata. destruct tags; by simplify_map_eq.
  - by destruct Hp as [-> _].
Qed.

Lemma startup_event_only_in_first_run_witness :
  _build_payload Scenario.calm true Cases.later_build
    = (Ok (returned ∅ (_build_payload Scenario.calm true Cases.later_build)),
       (_build_payload Scenario.calm true Cases.later_build).2) ∧
  run_count (self Cases.later_build) = 2%nat ∧
  returned ∅ (_build_payload Scenario.calm true Cases.later_build) !! "events"
    = Some (VDict ∅) ∧
  ∃ e, returned ∅ (_build_payload Scenario.calm true Cases.later_build) !! "events"
         = Some (VDict e) ∧
       (∀ k, is_Some (e !! k) → k = "System") ∧
       (is_Some (e !! "System") ↔
        true = true ∧ (run_count (self Cases.later_build) ≤ 1)%nat).
Proof.
  assert (H : _build_payload Scenario.calm true Cases.later_build
    = (Ok (returned ∅ (_build_payload Scenario.calm true Cases.later_build)),
       (_build_payload Scenario.calm true Cases.later_build).2))
    by (apply returned_eq; vm_compute; reflexivity).
  split; [exact H|]. split; [vm_compute; reflexivity|].
  split; [vm_compute; reflexivity|].
  exact (startup_event_only_in_first_run _ _ _ _ _ H).
Defined.

(** X11: the system stats in a payload are always the ones
    [get_system_stats()] just returned.  The snapshot [__init__] stored in
    [agentConfig['system_stats']], which the startup branch copies into the
    payload, is overwritten in the same call, since a first run always takes
    the metadata branch; and a payload without 'meta' has no 'systemStats'
    either. *)
Theorem system_stats_are_always_live env se w p w' :
  _build_payload env se w = (Ok p, w') →
  (∀ v, p !! "systemStats" = Some v → get_system_stats env = Ok v) ∧
  (is_Some (p !! "systemStats") ↔ is_Some (p !! "meta")).
Proof.
  intros (agentVersion & apiKey & host & uuid & p1 & _ & _ & _ & _ & Hp1 & Hp & _)
    %build_payload_inv.
  unfold sends_metadata in Hp.
  destruct (_is_first_run (self w)) eqn:Hfirst; cbn [orb] in Hp.
  - destruct Hp as (systemStats & meta & tags & Hstats & _ & -> & _).
    unfold with_metadata.
    destruct tags; (split; [intros v Hv|]); simplify_map_eq; try done;
      split; eauto.
  - rewrite andb_false_r in Hp1. subst p1.
    destruct (interval_passed (self w) env).
    + destruct Hp as (systemStats & meta & tags & Hstats & _ & -> & _).
      unfold with_metadata.
      destruct tags; (split; [intros v Hv|]); simplify_map_eq; try done;
        split; eauto.
    + destruct Hp as [-> _]. unfold base_payload.
      split; [intros v Hv|split; intros [v Hv]]; by simplify_map_eq.
Qed.

Lemma system_stats_are_always_live_witness :
  _build_payload Scenario.calm true Scenario.first_build
    = (Ok (returned ∅ (_build_payload Scenario.calm true Scenario.first_build)),
       (_build_payload Scenario.calm true Scenario.first_build).2) ∧
  agentConfig (self Scenario.first_build) !! "system_stats" = Some (VDict ∅) ∧
  returned ∅ (_build_payload Scenario.calm true Scenario.first_build) !! "systemStats"
    = Some (VDict {["cpuCores" := VNum 4]}) ∧
  get_system_stats Scenario.calm = Ok (VDict {["cpuCores" := VNum 4]}).
Proof.
  assert (H : _build_payload Scenario.calm true Scenario.first_build
    = (Ok (returned ∅ (_build_payload Scenario.calm true Scenario.first_build)),
       (_build_payload Scenario.calm true Scenario.first_build).2))
    by (apply returned_eq; vm_compute; reflexivity).
  assert (Hs : returned ∅ (_build_payload Scenario.calm true Scenario.first_build)
                 !! "systemStats" = Some (VDict {["cpuCores" := VNum 4]}))
    by (vm_compute; reflexivity).
  split; [exact H|]. split; [vm_compute; reflexivity|]. split; [exact Hs|].
  exact (proj1 (system_stats_are_always_live _ _ _ _ _ H) _ Hs).
Defined.

(** * The system checks *)

(** X12: on a host that is not Windows the result of the load check is
    passed to [payload.update] without a test: when the check returns None,
    a boolean or a number, [update] raises TypeError and, nothing catching
    it, so does the collection of the cycle.  Empty results of the disk,
    memory, io and cpu checks, on the contrary, are skipped, and the result
    of the processes check is stored whatever it is. *)
Theorem load_check_must_return_a_mapping n u p disk :
  u_disk u n = Ok disk →
  py_truthy disk = false →
  (∀ load,
     u_load u n = Ok load →
     load = VNone ∨ (∃ b, load = VBool b) ∨ (∃ k, load = VNum k) →
     unix_system_checks n u p = Raise TypeError ∧
     ∀ L w, String.eqb (os (self w)) "windows" = false →
            _unix_system_checks (self w) = u → payload L = p →
            collect n L w = (Raise TypeError, w)) ∧
  (∀ load memory io processes cpu,
     u_load u n = Ok (VDict load) →
     u_memory u n = Ok memory → py_truthy memory = false →
     u_io u n = Ok io → py_truthy io = false →
     u_processes u n = Ok processes →
     u_cpu u n = Ok cpu → py_truthy cpu = false →
     unix_system_checks n u p = Ok (<["processes" := processes]> (load ∪ p))).
Proof.
  intros Hdisk Hfalsy. split.
  - intros load Hload Hshape.
    assert (Hunix : unix_system_checks n u p = Raise TypeError).
    { unfold unix_system_checks. msimpl. rewrite Hdisk, Hfalsy, Hload.
      by destruct Hshape as [->|[[b ->]|[k ->]]]. }
    split; [done|].
    intros L w Hos <- <-. unfold collect. msimpl. by rewrite Hos, Hunix.
  - intros load memory io processes cpu Hload Hmem Hm Hio Hi Hproc Hcpu Hc.
    unfold unix_system_checks. msimpl.
    rewrite Hdisk, Hfalsy, Hload. cbn [py_update].
    by rewrite Hmem, Hm, Hio, Hi, Hproc, Hcpu, Hc.
Qed.

Lemma load_check_must_return_a_mapping_witness :
  u_disk Cases.unix_without_load 1%nat = Ok VNone ∧
  u_load Cases.unix_without_load 1%nat = Ok VNone ∧
  unix_system_checks 1 Cases.unix_without_load ∅ = Raise TypeError ∧
  u_load Scenario.unix 1%nat = Ok (VDict ∅) ∧
  unix_system_checks 1 Scenario.unix ∅ = Ok (<["processes" := VNone]> (∅ ∪ ∅)).
Proof.
  split; [reflexivity|]. split; [reflexivity|].
  split.
  - apply (proj1 (load_check_must_return_a_mapping 1 Cases.unix_without_load ∅
                    VNone eq_refl eq_refl) VNone eq_refl).
    left. reflexivity.
  - split; [reflexivity|].
    apply (proj2 (load_check_must_return_a_mapping 1 Scenario.unix ∅
                    VNone eq_refl eq_refl) ∅ VNone VNone VNone VNone);
      reflexivity.
Defined.

(** X13: the six Windows system checks run in the order disk, memory, cpu,
    network, io, proc inside one [try].  When one of them raises, the
    metrics of the checks before it stay in the payload, the checks after it
    are not asked, the exception is logged as an error and the cycle goes
    on. *)
Theorem win32_batch_stops_at_first_failure n w32 L w pre check post ls e :
  [w_disk w32; w_memory w32; w_cpu w32; w_network w32; w_io w32; w_proc w32]
    = pre ++ check :: post →
  Forall2 (λ (c : check_fn) l, c n ≫= py_iter = Ok l) pre ls →
  check n ≫= py_iter = Raise e →
  win32_system_checks n w32 L w =
    (Ok (set_metrics (metrics L ++ concat ls) L),
     mkWorld (self w)
       (log w ++ [(ERROR, Unable_to_fetch_Windows_system_metrics e)])
       (sent w) (persisted w) (stopped w)).
Proof.
  intros Hchecks Hpre Hraise. rewrite win32_system_checks_unfold, Hchecks.
  rewrite (win32_extend_prefix _ _ _ _ _ Hpre). cbn [win32_extend].
  by rewrite Hraise.
Qed.

Lemma win32_batch_stops_at_first_failure_witness :
  win32_system_checks 1 Cases.win32_cpu_fails no_locals Scenario.idle =
    (Ok (set_metrics
           (metrics no_locals ++
            concat [[VStr "system.disk.free"]; [VStr "system.mem.free"]])
           no_locals),
     mkWorld (self Scenario.idle)
       (log Scenario.idle ++
        [(ERROR, Unable_to_fetch_Windows_system_metrics (Failure "WMI error"))])
       (sent Scenario.idle) (persisted Scenario.idle) (stopped Scenario.idle)).
Proof.
  apply (win32_batch_stops_at_first_failure 1 Cases.win32_cpu_fails no_locals
           Scenario.idle
           [w_disk Cases.win32_cpu_fails; w_memory Cases.win32_cpu_fails]
           (w_cpu Cases.win32_cpu_fails)
           [w_network Cases.win32_cpu_fails; w_io Cases.win32_cpu_fails;
            w_proc Cases.win32_cpu_fails]).
  - reflexivity.
  - repeat constructor.
  - reflexivity.
Defined.

(** * The old-style checks *)

(** X14: the events of the dogstreams are taken out of the data before the
    data is flattened into the payload, but only when there are some.  With
    a non-empty 'dogstreamEvents' entry, the events go to
    [events['dogstream']], the payload gets no 'dogstreamEvents' entry and
    every other field of the data becomes a top-level entry of the payload.
    An empty 'dogstreamEvents' entry is not removed: it is flattened into
    the payload with the other fields.  (Stated for the usual state of the
    locals at this point: [payload['events']] is still the dictionary
    [events], and it has no 'dogstream' entry yet.) *)
Theorem dogstream_events_leave_the_data n c L ganglia data forwarder found :
  _ganglia c n = Ok ganglia →
  _dogstream c n = Ok (VDict data) →
  _ddforwarder c n = Ok forwarder →
  data !! "dogstreamEvents" = Some found →
  payload L !! "events" = None →
  events L !! "dogstream" = None →
  ∃ L',
    old_style_checks n c L = Ok L' ∧
    metrics L' = metrics L ∧
    (∀ k v, data !! k = Some v → k ≠ "dogstreamEvents" → k ≠ "datadog" →
            payload L' !! k = Some v) ∧
    (if py_truthy found
     then events L' = <["dogstream" := found]> (events L) ∧
          payload L' !! "dogstreamEvents" = payload L !! "dogstreamEvents"
     else events L' = events L ∧
          payload L' !! "dogstreamEvents" = Some found).
Proof.
  intros Hg Hd Hf Hfound Hevents Hnone.
  unfold old_style_checks. msimpl. rewrite Hg, Hd, Hf.
  rewrite (truthy_dict _ _ _ Hfound). cbn [py_get]. rewrite Hfound.
  cbn [from_option id].
  set (L1 := match ganglia with
             | VBool false | VNone => L
             | _ => set_payload (<["ganglia" := ganglia]> (payload L)) L
             end).
  assert (HL1 : metrics L1 = metrics L ∧ events L1 = events L ∧
                payload L1 !! "events" = None ∧
                payload L1 !! "dogstreamEvents" = payload L !! "dogstreamEvents").
  { unfold L1. destruct ganglia as [|[]| | | |]; cbn; by simplify_map_eq. }
  destruct HL1 as (Hm1 & He1 & Hp1 & Hd1). clearbody L1.
  destruct (py_truthy found) eqn:Htruthy.
  - unfold py_item. rewrite (payload_view_events _ Hp1). cbn [py_contains].
    rewrite He1, Hnone.
    rewrite bool_decide_eq_false_2 by (by intros [? ?]).
    cbn [py_update].
    eexists. split; [reflexivity|].
    destruct (py_truthy forwarder); cbn; (split; [done|]);
      (split; [intros k v Hk ? ?|split; [done|]]).
    + rewrite lookup_insert_ne by done. apply lookup_union_Some_l.
      by rewrite lookup_delete_ne.
    + rewrite lookup_insert_ne by done. rewrite lookup_union_r; [done|].
      by simplify_map_eq.
    + apply lookup_union_Some_l. by rewrite lookup_delete_ne.
    + rewrite lookup_union_r; [done|]. by simplify_map_eq.
  - cbn [py_update].
    eexists. split; [reflexivity|].
    destruct (py_truthy forwarder); cbn; (split; [done|]);
      (split; [intros k v Hk ? ?|split; [done|]]).
    + rewrite lookup_insert_ne by done. by apply lookup_union_Some_l.
    + rewrite lookup_insert_ne by done. by apply lookup_union_Some_l.
    + by apply lookup_union_Some_l.
    + by apply lookup_union_Some_l.
Qed.

Lemma dogstream_events_leave_the_data_witness :
  (∃ L',
     old_style_checks 1
       (Cases.dogstream_host (VDict (Cases.syslog_data (VList [VStr "disk full"]))))
       no_locals = Ok L' ∧
     events L' = {["dogstream" := VList [VStr "disk full"]]} ∧
     payload L' !! "dogstreamEvents" = None ∧
     payload L' !! "dogstream" = Some (VList [VStr "syslog.errors"])) ∧
  (∃ L',
     old_style_checks 1
       (Cases.dogstream_host (VDict (Cases.syslog_data (VList []))))
       no_locals = Ok L' ∧
     events L' = ∅ ∧
     payload L' !! "dogstreamEvents" = Some (VList [])).
Proof.
  split.
  - destruct (dogstream_events_leave_the_data 1
                (Cases.dogstream_host
                   (VDict (Cases.syslog_data (VList [VStr "disk full"]))))
                no_locals VNone (Cases.syslog_data (VList [VStr "disk full"]))
                VNone (VList [VStr "disk full"])
                eq_refl eq_refl eq_refl eq_refl eq_refl eq_refl)
      as (L' & HL & _ & Hdata & He & Hp).
    exists L'. split; [exact HL|]. split; [rewrite He; vm_compute; reflexivity|].
    split; [rewrite Hp; reflexivity|].
    apply Hdata; [vm_compute; reflexivity|discriminate|discriminate].
  - destruct (dogstream_events_leave_the_data 1
                (Cases.dogstream_host (VDict (Cases.syslog_data (VList []))))
                no_locals VNone (Cases.syslog_data (VList []))
                VNone (VList [])
                eq_refl eq_refl eq_refl eq_refl eq_refl eq_refl)
      as (L' & HL & _ & _ & He & Hp).
    exists L'. split; [exact HL|]. split; [exact He|]. exact Hp.
Defined.

(** * The event checks *)

Lemma event_checks_untouched n checks : ∀ events events' k,
  event_checks n checks events = Ok events' →
  (∀ c v, c ∈ checks → key c = k → event_check c n = Ok v →
          py_truthy v = false) →
  events' !! k = events !! k.
Proof.
  induction checks as [|c checks IH]; intros events events' k;
    cbn [event_checks]; msimpl.
  - by intros [= <-].
  - destruct (event_check c n) as [v|] eqn:Hc; [|done]. intros Hrest Hquiet.
    rewrite (IH _ _ _ Hrest).
    + destruct (py_truthy v) eqn:Hv; [|done].
      destruct (decide (key c = k)) as [Hk|Hk]; [|by rewrite lookup_insert_ne].
      rewrite (Hquiet c v) in Hv; [done|left|done|done].
    + intros c' v' Hin. apply Hquiet. by right.
Qed.

(** X15: an event check that reports something replaces whatever
    [events] held under its key; of several reports under one key the last
    one stays.  A key under which no check reports in the cycle keeps its
    entry. *)
Theorem event_checks_last_report_wins n checks events events' :
  event_checks n checks events = Ok events' →
  (∀ pre check post data,
     checks = pre ++ check :: post →
     event_check check n = Ok data → py_truthy data = true →
     (∀ c v, c ∈ post → key c = key check → event_check c n = Ok v →
             py_truthy v = false) →
     events' !! key check = Some data) ∧
  (∀ k,
     (∀ c v, c ∈ checks → key c = k → event_check c n = Ok v →
             py_truthy v = false) →
     events' !! k = events !! k).
Proof.
  intros Hrun. split; [|intros k; by apply event_checks_untouched].
  intros pre. revert checks events Hrun.
  induction pre as [|c pre IH]; intros checks events Hrun check post data ->.
  - cbn [app event_checks] in Hrun. msimpl. intros Hdata Htruthy Hpost.
    rewrite Hdata, Htruthy in Hrun.
    rewrite (event_checks_untouched _ _ _ _ _ Hrun Hpost).
    by rewrite lookup_insert_eq.
  - cbn [app event_checks] in Hrun. msimpl.
    destruct (event_check c n) as [v|]; [|done].
    by eapply IH.
Qed.

Lemma event_checks_last_report_wins_witness :
  event_checks 1
    [Scenario.nagios "Nagios" (VList [VStr "host web02 is DOWN"]);
     Scenario.nagios "Nagios" (VList [VStr "host web02 is UP"])]
    {["System" := VList [VStr "Agent Startup"]]}
    = Ok (<["Nagios" := VList [VStr "host web02 is UP"]]>
            {["System" := VList [VStr "Agent Startup"]]}) ∧
  (<["Nagios" := VList [VStr "host web02 is UP"]]>
     ({["System" := VList [VStr "Agent Startup"]]} : gmap string value))
    !! "Nagios" = Some (VList [VStr "host web02 is UP"]) ∧
  (<["Nagios" := VList [VStr "host web02 is UP"]]>
     ({["System" := VList [VStr "Agent Startup"]]} : gmap string value))
    !! "System"
    = ({["System" := VList [VStr "Agent Startup"]]} : gmap string value) !! "System".
Proof.
  assert (H : event_checks 1
    [Scenario.nagios "Nagios" (VList [VStr "host web02 is DOWN"]);
     Scenario.nagios "Nagios" (VList [VStr "host web02 is UP"])]
    {["System" := VList [VStr "Agent Startup"]]}
    = Ok (<["Nagios" := VList [VStr "host web02 is UP"]]>
            {["System" := VList [VStr "Agent Startup"]]}))
    by (vm_compute; reflexivity).
  split; [exact H|].
  destruct (event_checks_last_report_wins _ _ _ _ H) as [Hlast Hkeep].
  split.
  - apply (Hlast [Scenario.nagios "Nagios" (VList [VStr "host web02 is DOWN"])]
             (Scenario.nagios "Nagios" (VList [VStr "host web02 is UP"])) []);
      [reflexivity..|].
    intros c v Hin. by apply elem_of_nil in Hin.
  - apply Hkeep. intros c v Hin Hkey.
    apply elem_of_cons in Hin as [->|Hin]; [discriminate Hkey|].
    apply elem_of_cons in Hin as [->|Hin]; [discriminate Hkey|].
    by apply elem_of_nil in Hin.
Defined.

(** * The custom metrics checks *)

(** X16: the metrics of the custom metrics checks are appended to the
    metrics of the payload in the order of the checks; an empty result
    (None, an empty list) adds nothing.  The first check that raises ends
    the loop with its exception: nothing catches it. *)
Theorem metrics_checks_append_in_order n checks ls m :
  Forall2 (λ c l, ∃ res, metrics_check c n = Ok res ∧
                         if py_truthy res then py_iter res = Ok l else l = [])
    checks ls →
  metrics_checks n checks m = Ok (m ++ concat ls) ∧
  (∀ check rest e,
     metrics_check check n = Raise e →
     metrics_checks n (checks ++ check :: rest) m = Raise e).
Proof.
  intros Hall. revert m.
  induction Hall as [|c l checks ls (res & Hc & Hres) Hall IH]; intros m.
  - cbn. msimpl. rewrite app_nil_r. split; [done|]. by intros check rest e ->.
  - cbn [app metrics_checks concat]. msimpl. rewrite Hc.
    destruct (py_truthy res).
    + rewrite Hres. rewrite (assoc_L (++)). apply IH.
    + subst l. cbn [app]. apply IH.
Qed.

Lemma metrics_checks_append_in_order_witness :
  metrics_checks 1
    [{| metrics_check := λ _, Ok (VList [VStr "custom.a"]) |};
     {| metrics_check := Scenario.nothing |};
     {| metrics_check := λ _, Ok (VList [VStr "custom.b"; VStr "custom.c"]) |}]
    [VStr "system.load"]
    = Ok ([VStr "system.load"] ++
          concat [[VStr "custom.a"]; []; [VStr "custom.b"; VStr "custom.c"]]) ∧
  metrics_checks 1
    ([{| metrics_check := λ _, Ok (VList [VStr "custom.a"]) |}] ++
     {| metrics_check := Scenario.failing "boom" |} ::
     [{| metrics_check := λ _, Ok (VList [VStr "custom.b"]) |}])
    [VStr "system.load"]
    = Raise (Failure "boom").
Proof.
  split.
  - apply (metrics_checks_append_in_order 1 _ _ [VStr "system.load"]).
    repeat constructor; eexists; (split; [reflexivity|]); reflexivity.
  - apply (proj2 (metrics_checks_append_in_order 1
                    [{| metrics_check := λ _, Ok (VList [VStr "custom.a"]) |}]
                    [[VStr "custom.a"]] [VStr "system.load"]
                    ltac:(repeat constructor; eexists;
                          (split; [reflexivity|]); reflexivity))).
    reflexivity.
Defined.

(** * The resources checks *)

Lemma resources_loop_no_snapshots n checks : ∀ has L,
  Forall (λ c, resources_check c n = Ok tt ∧ pop_snapshots c n = Ok []) checks →
  resources_loop n checks has L = Ok (has, L).
Proof.
  induction checks as [|c checks IH]; intros has L Hall; cbn [resources_loop].
  - done.
  - apply Forall_cons in Hall as [[Hc Hs] Hall]. msimpl. rewrite Hc, Hs.
    by apply IH.
Qed.

Lemma set_resource_ok k v L r :
  payload L !! "resources" = Some (VDict r) →
  set_resource k v L =
    Ok (set_payload (<["resources" := VDict (<[k := v]> r)]> (payload L)) L).
Proof.
  intros Hr. unfold set_resource, py_item. msimpl.
  by rewrite payload_view_lookup, Hr.
Qed.

(** X17: a resources check without snapshots leaves the payload as it is,
    whatever its format methods would return.  The one with snapshots gets
    an entry under its RESOURCE_KEY with the snapshots and the format
    version, and the format description only when
    [describe_format_if_needed()] returned one; 'meta' is then added: the
    dictionary with the API key under 'api_key' and the host name of the
    payload under 'host'. *)
Theorem resources_entry_of_a_check n c L :
  (Forall (λ check, resources_check check n = Ok tt ∧ pop_snapshots check n = Ok [])
     (_resources_checks c) →
   resources_checks n c L = Ok L) ∧
  (∀ check snaps version description r api_key host,
     _resources_checks c = [check] →
     resources_check check n = Ok tt →
     pop_snapshots check n = Ok snaps → snaps ≠ [] →
     get_format_version check n = Ok version →
     describe_format_if_needed check n = Ok description →
     payload L !! "resources" = Some (VDict r) →
     agentConfig c !! "api_key" = Some api_key →
     payload L !! "internalHostname" = Some host →
     ∃ L' entry,
       resources_checks n c L = Ok L' ∧
       payload L' !! "resources" =
         Some (VDict (<["meta" := VDict (<["api_key" := api_key]>
                                         (<["host" := host]> ∅))]>
                     (<[RESOURCE_KEY check := VDict entry]> r))) ∧
       entry !! "snaps" = Some (VList snaps) ∧
       entry !! "format_version" = Some version ∧
       entry !! "format_description" =
         match description with VNone => None | _ => Some description end ∧
       (∀ k, k ≠ "resources" → payload L' !! k = payload L !! k) ∧
       metrics L' = metrics L ∧ events L' = events L).
Proof.
  split.
  { intros Hall. unfold resources_checks. msimpl.
    by rewrite (resources_loop_no_snapshots _ _ _ _ Hall). }
  intros check snaps version description r api_key host
    Hchecks Hc Hsnaps Hne Hv Hd Hr Hkey Hhost.
  unfold resources_checks. rewrite Hchecks. cbn [resources_loop]. msimpl.
  rewrite Hc, Hsnaps. destruct snaps as [|snap snaps]; [done|].
  rewrite Hv, Hd, (set_resource_ok _ _ _ _ Hr).
  unfold py_item. rewrite Hkey, payload_view_lookup by done.
  cbn [payload set_payload]. rewrite lookup_insert_ne, Hhost by done.
  erewrite set_resource_ok by apply lookup_insert_eq.
  assert (∃ entry, res_value (snap :: snaps) version description = VDict entry ∧
            entry !! "snaps" = Some (VList (snap :: snaps)) ∧
            entry !! "format_version" = Some version ∧
            entry !! "format_description" =
              match description with VNone => None | _ => Some description end)
    as (entry & -> & ? & ? & ?).
  { unfold res_value. destruct description; eexists; by simplify_map_eq. }
  eexists _, entry. split; [reflexivity|]. cbn.
  split_and!; try done.
  - by rewrite lookup_insert_eq.
  - intros k Hk. by rewrite !lookup_insert_ne.
Qed.

Lemma resources_entry_of_a_check_witness :
  resources_checks 1 (self (Scenario.linux [])) Cases.with_resources
    = Ok Cases.with_resources ∧
  ∃ L' entry,
    resources_checks 1 (self Scenario.linux_with_snapshots) Cases.with_resources
      = Ok L' ∧
    payload L' !! "resources" =
      Some (VDict (<["meta" := VDict (<["api_key" := VStr "0123abcd"]>
                                      (<["host" := VStr "web01"]> ∅))]>
                  (<["processes" := VDict entry]> ∅))) ∧
    entry !! "snaps" = Some (VList [VStr "snapshot 1"; VStr "snapshot 2"]) ∧
    entry !! "format_version" = Some (VNum 3) ∧
    entry !! "format_description" = None.
Proof.
  split.
  - apply (resources_entry_of_a_check 1 (self (Scenario.linux []))
             Cases.with_resources).
    vm_compute. repeat constructor.
  - destruct (proj2 (resources_entry_of_a_check 1
                       (self Scenario.linux_with_snapshots) Cases.with_resources)
                (Scenario.processes [VStr "snapshot 1"; VStr "snapshot 2"])
                [VStr "snapshot 1"; VStr "snapshot 2"] (VNum 3) VNone ∅
                (VStr "0123abcd") (VStr "web01"))
      as (L' & entry & HL & Hr & Hs & Hv & Hd & _);
      [vm_compute; reflexivity | reflexivity | reflexivity | discriminate
      | reflexivity | reflexivity | vm_compute; reflexivity
      | vm_compute; reflexivity | vm_compute; reflexivity |].
    exists L', entry. split; [exact HL|]. split; [exact Hr|].
    split; [exact Hs|]. split; [exact Hv|]. exact Hd.
Defined.

(** X18: on Windows the resources checks are not part of the cycle: the
    'resources' section of the payload of a completed cycle is the empty
    dictionary [_build_payload] put there, whatever the resources checks
    would do (provided the dogstreams report no field named 'resources',
    which would be flattened over it). *)
Theorem windows_payload_has_no_resources env cd se w p w' :
  os (self w) = "windows" →
  (∀ v, _dogstream (self w) (S (run_count (self w))) = Ok v →
        keeps "resources" v) →
  run env cd se w = (Ok (Completed p), w') →
  p !! "resources" = Some (VDict ∅).
Proof.
  intros Hos Hkeeps
    (n & L0 & w1 & L1 & w2 & L2 & sts & w3 & Hb & Hc & Hd & Hf)%run_completed.
  rewrite (finish_run_payload _ _ _ _ _ _ _ Hf) by done.
  apply checks_d_inv in Hd as (_ & _ & _ & _ & _ & _ & _ & ->).
  apply frame_begin_run in Hb as Hframe.
  destruct Hframe as (_ & _ & _ & Hos1 & _ & _ & _ & _ & _ & _ & _ & _ & _ & Hdog & _).
  apply begin_run_inv in Hb
    as (-> & _ & _ & _ & built & w0 & w0' & m & e & Hbuild & _ & _ & _ & _ & ->).
  apply build_payload_lookups in Hbuild as (_ & Hres & _).
  revert Hc. unfold collect. rewrite bind_unfold. cbn [get_self].
  rewrite bind_unfold, Hos1, Hos. cbn [String.eqb Ascii.eqb Bool.eqb].
  rewrite win32_system_checks_unfold.
  destruct (win32_extend _ _ _) as [m' failure]. msimpl.
  destruct (old_style_checks _ (self w1) _) as [L2'|] eqn:Hold; [|done].
  apply old_style_checks_resources in Hold; [|by rewrite Hdog].
  destruct (event_checks _ _ _) as [ev|]; [|done].
  destruct (metrics_checks _ _ _) as [m''|]; [|done].
  intros [= <- _]. cbn in *. rewrite Hold.
  by rewrite !lookup_delete_ne.
Qed.

Lemma windows_payload_has_no_resources_witness :
  os (self Scenario.windows_with_failing_disk) = "windows" ∧
  Scenario.windows_cycle
    = (Ok (Completed (built_payload Scenario.windows_cycle)),
       Scenario.windows_cycle.2) ∧
  built_payload Scenario.windows_cycle !! "resources" = Some (VDict ∅).
Proof.
  assert (Hos : os (self Scenario.windows_with_failing_disk) = "windows")
    by (vm_compute; reflexivity).
  assert (Hrun : Scenario.windows_cycle
                 = (Ok (Completed (built_payload Scenario.windows_cycle)),
                    Scenario.windows_cycle.2))
    by (apply completes_eq; vm_compute; reflexivity).
  split; [exact Hos|]. split; [exact Hrun|].
  apply (windows_payload_has_no_resources Scenario.calm (Some Scenario.two_checks)
           true Scenario.windows_with_failing_disk
           (built_payload Scenario.windows_cycle) Scenario.windows_cycle.2 Hos);
    [|exact Hrun].
  intros v H. vm_compute in H. injection H as <-. intros p p' Hp. discriminate Hp.
Defined.

(** * The metrics of the checks.d checks *)

Lemma check_d_try_metrics n check L :
  metrics (check_d_try n check L).1.1.1.1 = metrics L ++ check_metrics n check.
Proof.
  unfold check_d_try, check_metrics, invocation_failure.
  destruct (check_run check n); [|by rewrite app_nil_r].
  destruct (get_metrics check n); [|by rewrite app_nil_r].
  destruct (get_events check n) as [[|ev evs]|]; [done| |by rewrite app_nil_r].
  by destruct (merge_events _ _ _).
Qed.

Lemma checks_d_loop_metrics env n checks : ∀ i L acc w L' statuses w',
  checks_d_loop env n i checks L acc w = (Ok (Done (L', statuses)), w') →
  metrics L' = metrics L ++ concat (check_metrics n <$> checks).
Proof.
  induction checks as [|check checks IH]; intros i L acc w L' statuses w';
    cbn [checks_d_loop]; msimpl.
  - intros [= <- <- <-]. by rewrite app_nil_r.
  - destruct (continue_running (self w)); cbn [negb]; [|done].
    rewrite run_check_d_unfold.
    pose proof (check_d_try_metrics n check L) as Hm.
    destruct (check_d_try n check L) as [[[[L1 inst] mc] ec] failure].
    cbn in Hm. cbn [fmap list_fmap concat]. intros ->%IH.
    by rewrite Hm, (assoc_L (++)).
Qed.

Lemma old_style_checks_metrics n c L L' :
  old_style_checks n c L = Ok L' → metrics L' = metrics L.
Proof.
  unfold old_style_checks. msimpl.
  destruct (_ganglia c n) as [gangliaData|]; [|done].
  destruct (_dogstream c n) as [dogstreamData|]; [|done].
  destruct (_ddforwarder c n) as [ddforwarderData|]; [|done].
  set (L1 := match gangliaData with
             | VBool false | VNone => L
             | _ => set_payload (<["ganglia" := gangliaData]> (payload L)) L
             end).
  assert (H1 : metrics L1 = metrics L).
  { unfold L1. by destruct gangliaData as [|[]| | | |]. }
  clearbody L1.
  destruct (if py_truthy dogstreamData then _ else _) as [L2|] eqn:HL2; [|done].
  intros [= <-].
  assert (H2 : metrics L2 = metrics L1).
  { destruct (py_truthy dogstreamData); [|by simplify_eq].
    destruct (py_get dogstreamData "dogstreamEvents") as [dogstreamEvents|];
      [|done].
    destruct (if py_truthy dogstreamEvents then _ else _) as [[L3 data]|] eqn:H3;
      [|done].
    assert (metrics L3 = metrics L1) as Hp3.
    { destruct (py_truthy dogstreamEvents); [|by simplify_eq].
      repeat case_match; by simplify_eq. }
    destruct (py_update (payload L3) data) as [p|] eqn:Hp; [|done].
    by simplify_eq. }
  destruct (py_truthy ddforwarderData); cbn; congruence.
Qed.

Lemma resources_checks_metrics n c L L' :
  resources_checks n c L = Ok L' → metrics L' = metrics L.
Proof.
  assert (Hset : ∀ k v L L', set_resource k v L = Ok L' → metrics L' = metrics L).
  { intros k v L1 L2 (r & _ & ->)%set_resource_inv. done. }
  assert (Hloop : ∀ checks has L has' L',
            resources_loop n checks has L = Ok (has', L') → metrics L' = metrics L).
  { induction checks as [|check checks IH]; intros has L1 has' L2;
      cbn [resources_loop]; msimpl.
    - by intros [= _ <-].
    - destruct (resources_check check n); [|done].
      destruct (pop_snapshots check n) as [[|snap snaps]|]; [apply IH| |done].
      destruct (get_format_version check n); [|done].
      destruct (describe_format_if_needed check n); [|done].
      destruct (set_resource _ _ L1) as [L3|] eqn:H3; [|done].
      intros H%IH. apply Hset in H3. congruence. }
  unfold resources_checks. msimpl.
  destruct (resources_loop n _ false L) as [[has L1]|] eqn:H1; [|done].
  apply Hloop in H1. destruct has; [|by intros [= <-]].
  destruct (py_item _ _); [|done]. destruct (py_item _ _); [|done].
  intros H%Hset. congruence.
Qed.

Lemma collect_metrics n L w L' w' :
  collect n L w = (Ok L', w') →
  metrics L = [] →
  collected_metrics (self w) n = Ok (metrics L').
Proof.
  unfold collect, collected_metrics. rewrite bind_unfold. cbn [get_self].
  rewrite bind_unfold. intros H Hnil. revert H.
  destruct (String.eqb (os (self w)) "windows").
  - rewrite win32_system_checks_unfold, Hnil.
    destruct (win32_extend _ _ _) as [m failure]. msimpl.
    destruct (old_style_checks n (self w) _) as [L2|] eqn:Hold; [|done].
    apply old_style_checks_metrics in Hold.
    destruct (event_checks n _ _) as [ev|]; [|done].
    cbn [metrics set_events set_metrics] in *. rewrite Hold.
    destruct (metrics_checks n _ _) as [m'|]; [|done].
    by intros [= <- <-].
  - msimpl.
    destruct (unix_system_checks n _ (payload L)) as [p1|] eqn:Hunix; [|done].
    destruct (old_style_checks n (self w) _) as [L2|] eqn:Hold; [|done].
    apply old_style_checks_metrics in Hold.
    destruct (event_checks n _ _) as [ev|]; [|done].
    destruct (resources_checks n (self w) _) as [L3|] eqn:Hres; [|done].
    apply resources_checks_metrics in Hres.
    cbn [metrics set_events set_payload] in *. rewrite Hres, Hold, Hnil.
    destruct (metrics_checks n _ _) as [m'|]; [|done].
    by intros [= <- <-].
Qed.

Lemma finish_run_agent env L statuses w p w' :
  finish_run env L statuses w = (Ok (Completed p), w') →
  ∃ agent,
    _agent_metrics (self w) (run_count (self w))
      (<["events" := VDict (events L)]>
       (<["metrics" := VList (metrics L)]> (payload L)))
      (timer_step_collect env) (emit_duration (self w))
      (if String.eqb (os (self w)) "windows" then None
       else Some (clock_delta env))
      ≫= py_iter = Ok agent ∧
    p = <["metrics" := VList (metrics L ++ agent)]>
        (<["events" := VDict (events L)]>
        (<["metrics" := VList (metrics L)]> (payload L))).
Proof.
  unfold finish_run. rewrite bind_unfold. unfold interrupt at 1.
  set (w1 := if stop_signal env DuringAgentMetrics then stop w else w).
  assert (Hw1 : _agent_metrics (self w1) = _agent_metrics (self w) ∧
                run_count (self w1) = run_count (self w) ∧
                emit_duration (self w1) = emit_duration (self w) ∧
                os (self w1) = os (self w)).
  { unfold w1. by destruct (stop_signal env DuringAgentMetrics), w as [[] ? ? ? ?]. }
  destruct Hw1 as (Ha & Hn & Hd & Hos).
  rewrite bind_unfold. cbn [get_self]. rewrite bind_unfold. unfold lift at 1.
  rewrite Ha, Hn, Hd, Hos.
  set (p0 := <["events" := VDict (events L)]>
             (<["metrics" := VList (metrics L)]> (payload L))).
  destruct (_ ≫= py_iter) as [agent|e] eqn:Hcall; [|done].
  rewrite bind_unfold. unfold _emit at 1. rewrite bind_unfold. cbn [get_self].
  set (p1 := <["metrics" := VList (metrics L ++ agent)]> p0).
  destruct (emit_loop_spec env (run_count (self w1)) p1 (emitters (self w1)) 0 [] w1)
    as (att & skip & ests & w2 & -> & _).
  intros H. exists agent. split; [done|].
  revert H. msimpl.
  destruct (persist env _); msimpl;
    (destruct (_ || _)%bool; msimpl; [destruct (Nat.eqb _ FLUSH_LOGGING_INITIAL)|]);
    msimpl; by intros [= <- _].
Qed.

(** X19: nothing is lost or reordered on the way to the emitters: the
    metrics of the payload of a completed cycle are the metrics gathered
    before the checks.d checks (on Windows what the batch of system checks
    gathered, then the results of the custom metrics checks), then the
    metrics of each checks.d check whose three calls returned, in the order
    of the checks, then the agent's own metrics: what the agent check
    returned when it was given the payload with the metrics gathered so
    far, the duration of the collection and the duration of the previous
    emit. *)
Theorem checks_d_metrics_reach_the_payload env cd se w p w' :
  run env cd se w = (Ok (Completed p), w') →
  ∃ collected agent,
    collected_metrics (self w') (run_count (self w')) = Ok collected ∧
    _agent_metrics (self w') (run_count (self w'))
      (<["metrics" :=
           VList (collected ++
                  concat (check_metrics (run_count (self w'))
                            <$> initialized_checks_d (self w')))]> p)
      (timer_step_collect env) (emit_duration (self w))
      (if String.eqb (os (self w')) "windows" then None
       else Some (clock_delta env))
      ≫= py_iter = Ok agent ∧
    p !! "metrics" =
      Some (VList (collected ++
                   concat (check_metrics (run_count (self w'))
                             <$> initialized_checks_d (self w')) ++
                   agent)).
Proof.
  intros (n & L0 & w1 & L1 & w2 & L2 & sts & w3 & Hb & Hc & Hd & Hf)%run_completed.
  apply begin_run_inv in Hb as Hinv.
  destruct Hinv as (_ & Hn1 & _ & _ & built & w0 & w0' & m & e & Hbuild & _ & _
                    & Hm0 & _ & HL0).
  apply build_payload_lookups in Hbuild as (Hnil & _).
  assert (metrics L0 = []) as Hnil0 by (subst L0; cbn; congruence).
  apply same_emit_duration_begin_run in Hb as He1.
  apply same_emit_duration_collect in Hc as He2.
  apply same_emit_duration_checks_d in Hd as He3.
  apply frame_collect in Hc as Hfr2.
  destruct Hfr2 as (_ & _ & _ & Hos2 & _ & _ & _ & _ & Hmc2 & Hag2 & _ & Hw2 & _).
  apply frame_checks_d in Hd as Hfr3.
  destruct Hfr3 as (_ & _ & _ & Hos3 & _ & _ & _ & _ & Hmc3 & Hag3 & _ & Hw3 & _).
  apply frame_finish_run in Hf as Hfr4.
  destruct Hfr4 as (_ & _ & _ & Hos4 & _ & _ & _ & _ & Hmc4 & Hag4 & _ & Hw4 & _).
  apply (collect_metrics _ _ _ _ _ Hc) in Hnil0 as Hcollected.
  apply same_cycle_collect in Hc as (Hn2 & _).
  apply same_cycle_checks_d in Hd as Hs. destruct Hs as (Hn3 & Hi3 & _).
  apply same_cycle_finish_run in Hf as Hs. destruct Hs as (Hn4 & Hi4 & _).
  assert (metrics L2 = metrics L1 ++
            concat (check_metrics n <$> initialized_checks_d (self w2))) as Hm.
  { revert Hd. unfold checks_d. msimpl.
    destruct (checks_d_loop env n 0 _ L1 [] w2) as [[[[L sts']|]|] w2'] eqn:Hloop;
      [|done|done].
    apply checks_d_loop_metrics in Hloop as <-.
    destruct (iteritems _); [|done].
    destruct (init_failed_loop _ _ _ _ _) as [[[?|]|] ?]; [|done|done].
    by intros [= -> _ _]. }
  apply finish_run_agent in Hf as (agent & Hagent & ->).
  assert (Hn : run_count (self w') = n) by congruence.
  exists (metrics L1), agent.
  unfold collected_metrics in *.
  rewrite Hn, Hi4, Hi3, Hos4, Hos3, Hos2, Hmc4, Hmc3, Hmc2, Hw4, Hw3, Hw2,
    Hag4.
  split; [done|]. split.
  - rewrite insert_insert_eq, <- Hm.
    rewrite insert_id
      by (rewrite lookup_insert_ne by done; by rewrite lookup_insert_eq).
    rewrite Hos3, Hos2 in Hagent.
    replace (run_count (self w3)) with n in Hagent by congruence.
    unfold same_emit_duration in *.
    replace (emit_duration (self w3)) with (emit_duration (self w)) in Hagent
      by congruence.
    exact Hagent.
  - by rewrite lookup_insert_eq, Hm, <- (assoc_L (++)).
Qed.

Lemma checks_d_metrics_reach_the_payload_witness :
  Scenario.windows_cycle
    = (Ok (Completed (built_payload Scenario.windows_cycle)), Scenario.windows_cycle.2) ∧
  check_metrics 1 <$> initialized_checks_d (self Scenario.windows_cycle.2)
    = [[]; [VStr "redis.clients"; VStr "redis.keys"]] ∧
  built_payload Scenario.windows_cycle !! "metrics"
    = Some (VList [VStr "redis.clients"; VStr "redis.keys"]) ∧
  ∃ collected agent,
    collected_metrics (self Scenario.windows_cycle.2)
      (run_count (self Scenario.windows_cycle.2)) = Ok collected ∧
    _agent_metrics (self Scenario.windows_cycle.2)
      (run_count (self Scenario.windows_cycle.2))
      (<["metrics" :=
           VList (collected ++
                  concat (check_metrics (run_count (self Scenario.windows_cycle.2))
                            <$> initialized_checks_d (self Scenario.windows_cycle.2)))]>
         (built_payload Scenario.windows_cycle))
      (timer_step_collect Scenario.calm)
      (emit_duration (self Scenario.windows_with_failing_disk))
      (if String.eqb (os (self Scenario.windows_cycle.2)) "windows" then None
       else Some (clock_delta Scenario.calm))
      ≫= py_iter = Ok agent ∧
    built_payload Scenario.windows_cycle !! "metrics" =
      Some (VList (collected ++
                   concat (check_metrics (run_count (self Scenario.windows_cycle.2))
                             <$> initialized_checks_d (self Scenario.windows_cycle.2)) ++
                   agent)).
Proof.
  assert (Hrun : Scenario.windows_cycle
                 = (Ok (Completed (built_payload Scenario.windows_cycle)),
                    Scenario.windows_cycle.2))
    by (apply completes_eq; vm_compute; reflexivity).
  split; [exact Hrun|]. split; [vm_compute; reflexivity|].
  split; [vm_compute; reflexivity|].
  exact (checks_d_metrics_reach_the_payload Scenario.calm (Some Scenario.two_checks)
           true Scenario.windows_with_failing_disk _ _ Hrun).
Defined.

(** X20: inside the [try] of a checks.d check the metrics are added to the
    payload before the events are merged.  When the merge raises (the
    events of the cycle hold something that is not a list under the name of
    the check), the metrics of the check stay in the payload although its
    status reports no metric and no event; the failure is logged and the
    loop goes on. *)
Theorem event_merge_failure_underreports env n i check L w instances ms evs held :
  check_run check n = Ok instances →
  get_metrics check n = Ok ms →
  get_events check n = Ok evs →
  evs ≠ [] →
  events L !! name check = Some held →
  (∀ l, held ≠ VList l) →
  ∃ w',
    run_check_d env n i check L w =
      (Ok (set_metrics (metrics L ++ ms) L,
           mkCheckStatus (name check) instances (Some 0%nat) (Some 0%nat)
             None None), w') ∧
    (ERROR, Error_running_check (name check) TypeError) ∈ log w'.
Proof.
  intros Hrun Hms Hevs Hne Hheld Hshape.
  rewrite run_check_d_unfold. unfold check_d_try.
  rewrite Hrun, Hms, Hevs. destruct evs as [|ev evs]; [done|].
  unfold merge_events. cbn [events set_metrics]. rewrite Hheld.
  destruct held as [| | | |l|]; try (by destruct (Hshape l)).
  all: eexists; (split; [reflexivity|]); cbn; set_solver.
Qed.

Lemma event_merge_failure_underreports_witness :
  ∃ w',
    run_check_d Scenario.calm 1 0 Cases.nagios_check
      (mkLocals ∅ [] {["Nagios" := VStr "CRITICAL"]}) Scenario.idle =
      (Ok (set_metrics
             (metrics (mkLocals ∅ [] {["Nagios" := VStr "CRITICAL"]}) ++
              [VStr "nagios.hosts"])
             (mkLocals ∅ [] {["Nagios" := VStr "CRITICAL"]}),
           mkCheckStatus (name Cases.nagios_check) (VList [VStr "instance #0 OK"])
             (Some 0%nat) (Some 0%nat) None None), w') ∧
    (ERROR, Error_running_check (name Cases.nagios_check) TypeError) ∈ log w'.
Proof.
  apply (event_merge_failure_underreports Scenario.calm 1 0 Cases.nagios_check
           (mkLocals ∅ [] {["Nagios" := VStr "CRITICAL"]}) Scenario.idle
           (VList [VStr "instance #0 OK"]) [VStr "nagios.hosts"]
           [VStr "host web02 is DOWN"] (VStr "CRITICAL"));
    [reflexivity | reflexivity | reflexivity | discriminate
    | vm_compute; reflexivity | discriminate].
Defined.

(** * The log line that ends a cycle *)

(** X21: a cycle that runs to the end of [run] ends the log with its
    'Finished run' line, carrying the number of the cycle and the two
    durations.  The line is logged at INFO in the first five cycles and in
    every tenth one, at DEBUG in all others; in the fifth cycle the note
    that later flushes are logged every tenth time follows. *)
Theorem finished_run_is_logged_at_info_or_debug env cd se w p w' :
  run env cd se w = (Ok (Completed p), w') →
  ∃ before level after,
    log w' = before ++
      (level, Finished_run (S (run_count (self w))) (timer_step_collect env)
                (timer_step_emit env)) :: after ∧
    (level = INFO ∧
       (S (run_count (self w)) ≤ 5 ∨ S (run_count (self w)) mod 10 = 0)%nat ∨
     level = DEBUG ∧
       ¬ (S (run_count (self w)) ≤ 5 ∨ S (run_count (self w)) mod 10 = 0)%nat) ∧
    after = if decide (S (run_count (self w)) = 5%nat)
            then [(INFO, First_flushes_done)] else [].
Proof.
  intros (n & L0 & w1 & L1 & w2 & L2 & sts & w3 & Hb & Hc & Hd & Hf)%run_completed.
  apply begin_run_inv in Hb as (Hn & Hn1 & _).
  apply same_cycle_collect in Hc as (Hn2 & _).
  apply same_cycle_checks_d in Hd as (Hn3 & _).
  apply finish_run_cases in Hf
    as [(? & [=] & _)|(p' & ests & w4 & l & _ & Hemit & -> & ->)].
  apply same_cycle_emit in Hemit as (Hn4 & _).
  assert (run_count (self w4) = S (run_count (self w))) as ->.
  { rewrite Hn4. unfold interrupt. cbn [snd]. rewrite <- Hn, <- Hn1, <- Hn2, <- Hn3.
    by destruct (stop_signal env DuringAgentMetrics), w3 as [[] ? ? ? ?]. }
  cbn [log]. unfold FLUSH_LOGGING_INITIAL, FLUSH_LOGGING_PERIOD.
  set (k := S (run_count (self w))).
  destruct (Nat.leb k 5 || Nat.eqb (k mod 10) 0)%bool eqn:Hcond.
  - eexists _, INFO, _. split; [by rewrite (assoc_L (++))|].
    split.
    + left. split; [done|].
      apply orb_true_iff in Hcond as [?%Nat.leb_le|?%Nat.eqb_eq]; auto.
    + destruct (Nat.eqb k 5) eqn:Hk; case_decide; try done.
      * apply Nat.eqb_eq in Hk. done.
      * apply Nat.eqb_neq in Hk. done.
  - eexists _, DEBUG, []. split; [by rewrite (assoc_L (++))|].
    apply orb_false_iff in Hcond as [?%Nat.leb_gt ?%Nat.eqb_neq].
    split.
    + right. split; [done|]. intros [?|?]; [lia|done].
    + case_decide; [lia|done].
Qed.

Lemma finished_run_is_logged_at_info_or_debug_witness :
  Scenario.first_cycle
    = (Ok (Completed (built_payload Scenario.first_cycle)), Scenario.first_cycle.2) ∧
  last (log Scenario.first_cycle.2) = Some (INFO, Finished_run 1 2 1) ∧
  ∃ before level after,
    log Scenario.first_cycle.2 = before ++
      (level, Finished_run (S (run_count (self (Scenario.linux []))))
                (timer_step_collect Scenario.calm) (timer_step_emit Scenario.calm))
        :: after ∧
    (level = INFO ∧
       (S (run_count (self (Scenario.linux []))) ≤ 5 ∨
        S (run_count (self (Scenario.linux []))) mod 10 = 0)%nat ∨
     level = DEBUG ∧
       ¬ (S (run_count (self (Scenario.linux []))) ≤ 5 ∨
          S (run_count (self (Scenario.linux []))) mod 10 = 0)%nat) ∧
    after = if decide (S (run_count (self (Scenario.linux []))) = 5%nat)
            then [(INFO, First_flushes_done)] else [].
Proof.
  assert (Hrun : Scenario.first_cycle
                 = (Ok (Completed (built_payload Scenario.first_cycle)),
                    Scenario.first_cycle.2))
    by (apply completes_eq; vm_compute; reflexivity).
  split; [exact Hrun|]. split; [vm_compute; reflexivity|].
  exact (finished_run_is_logged_at_info_or_debug Scenario.calm
           (Some Scenario.two_checks) true (Scenario.linux []) _ _ Hrun).
Defined.

(** * Construction *)

Lemma length_empty (s : string) : Nat.eqb (String.length s) 0 = bool_decide (s = "").
Proof. by destruct s. Qed.

Lemma load_custom_checks_spec ext specs :
  load_custom_checks ext specs =
    (omap (λ s, match modules_load ext s with
                | Ok c => Some c
                | Raise _ => None
                end) (filter (λ s, s ≠ "") specs),
     (λ s, match modules_load ext s with
           | Ok _ => (INFO, Registered_custom_check s)
           | Raise e => (ERROR, Unable_to_load_custom_check_module s e)
           end) <$> filter (λ s, s ≠ "") specs).
Proof.
  induction specs as [|s specs IH]; [done|].
  cbn [load_custom_checks]. rewrite IH, length_empty.
  case_bool_decide as Hs.
  - by rewrite filter_cons_False by (by intros ?).
  - rewrite filter_cons_True by done. cbn.
    by destruct (modules_load ext s).
Qed.

(** X22: construction does not fail because the module of a custom check
    cannot be loaded.  The collector registers the custom checks whose
    module loads, in the order of the 'custom_checks' entry of the
    configuration, and logs one record for every module specification
    (registered, or unable to load); empty fields of the entry are ignored.
    It starts with cycle counter 0, not stopped, without metadata cache and
    without emit duration, and keeps the system stats it was given under
    'system_stats' of its configuration. *)
Theorem init_registers_the_modules_that_load ext cfg ems st custom interval :
  default (VStr "") (cfg !! "custom_checks") = VStr custom →
  py_int (default (VNum 600) (cfg !! "metadata_interval")) = Ok interval →
  ∃ w,
    __init__ ext cfg ems st = Ok w ∧
    _metrics_checks (self w) =
      omap (λ s, match modules_load ext s with
                 | Ok c => Some c
                 | Raise _ => None
                 end) (module_specs custom) ∧
    log w =
      (λ s, match modules_load ext s with
            | Ok _ => (INFO, Registered_custom_check s)
            | Raise e => (ERROR, Unable_to_load_custom_check_module s e)
            end) <$> module_specs custom ∧
    metadata_interval (self w) = interval ∧
    agentConfig (self w) = <["system_stats" := st]> cfg ∧
    run_count (self w) = 0%nat ∧
    continue_running (self w) = true ∧
    metadata_cache (self w) = VNone ∧
    emit_duration (self w) = None.
Proof.
  intros Hcustom Hinterval. unfold __init__.
  rewrite !lookup_insert_ne by done.
  change (10 * 60) with 600. rewrite Hinterval, Hcustom.
  rewrite load_custom_checks_spec. eexists. split; [reflexivity|]. done.
Qed.

Lemma init_registers_the_modules_that_load_witness :
  module_specs "checks.good, ,checks.missing," = ["checks.good"; "checks.missing"] ∧
  ∃ w,
    __init__ Cases.plugins (Scenario.config "checks.good, ,checks.missing,") []
      (VDict ∅) = Ok w ∧
    length (_metrics_checks (self w)) = 1%nat ∧
    log w = [(INFO, Registered_custom_check "checks.good");
             (ERROR, Unable_to_load_custom_check_module "checks.missing"
                       (Failure "ImportError"))] ∧
    metadata_interval (self w) = 600 ∧
    run_count (self w) = 0%nat.
Proof.
  split; [vm_compute; reflexivity|].
  destruct (init_registers_the_modules_that_load Cases.plugins
              (Scenario.config "checks.good, ,checks.missing,") [] (VDict ∅)
              "checks.good, ,checks.missing," 600)
    as (w & Hw & Hchecks & Hlog & Hint & _ & Hcount & _);
    [vm_compute; reflexivity | vm_compute; reflexivity |].
  exists w. split; [exact Hw|].
  split; [rewrite Hchecks; vm_compute; reflexivity|].
  split; [rewrite Hlog; vm_compute; reflexivity|].
  split; [exact Hint|exact Hcount].
Defined.

(** * The disk usage *)

(** X23: the result of the disk check is used only when it has exactly two
    items: a list of two gives 'diskUsage' and 'inodes' of the payload, a
    list of any other length is ignored without a word (provided the load
    and cpu checks, whose fields are flattened into the payload, report no
    field of these names). *)
Theorem disk_usage_needs_two_items n u p p' l :
  u_disk u n = Ok (VList l) →
  (∀ v, u_load u n = Ok v ∨ u_cpu u n = Ok v →
        keeps "diskUsage" v ∧ keeps "inodes" v) →
  unix_system_checks n u p = Ok p' →
  (p' !! "diskUsage", p' !! "inodes") =
    match l with
    | [usage; inodes] => (Some usage, Some inodes)
    | _ => (p !! "diskUsage", p !! "inodes")
    end.
Proof.
  intros Hdisk Hkeep. unfold unix_system_checks. msimpl. rewrite Hdisk.
  destruct (if py_truthy (VList l) then _ else _) as [two|] eqn:Htwo; [|done].
  destruct (if two then _ else _) as [p1|] eqn:Hp1; [|done].
  assert (H1 : (p1 !! "diskUsage", p1 !! "inodes") =
               match l with
               | [usage; inodes] => (Some usage, Some inodes)
               | _ => (p !! "diskUsage", p !! "inodes")
               end).
  { destruct l as [|a [|b [|c l]]]; cbn in Htwo; simplify_eq; cbn in *;
      simplify_eq; try done.
    by simplify_map_eq. }
  rewrite <- H1. clear H1 Hp1 Htwo.
  destruct (u_load u n) as [load|] eqn:Hload; [|done].
  destruct (py_update p1 load) as [p2|] eqn:Hp2; [|done].
  destruct (u_memory u n) as [memory|]; [|done].
  destruct (if py_truthy memory then _ else _) as [p3|] eqn:Hp3; [|done].
  destruct (u_io u n) as [ioStats|]; [|done].
  destruct (u_processes u n) as [processes|]; [|done].
  destruct (u_cpu u n) as [cpuStats|] eqn:Hcpu; [|done].
  intros H.
  assert (Hk : ∀ k, k = "diskUsage" ∨ k = "inodes" → p' !! k = p1 !! k).
  { intros k Hk.
    assert (∀ v, Ok load = Ok v ∨ Ok cpuStats = Ok v → keeps k v) as Hkeepk.
    { intros v Hv. destruct (Hkeep v Hv). by destruct Hk as [-> | ->]. }
    assert (k ≠ "ioStats" ∧ k ≠ "processes" ∧ k ∉ memory_fields.*1) as (?&?&?).
    { destruct Hk as [-> | ->]; split_and!; try done;
        apply (bool_decide_unpack _); by vm_compute. }
    assert (Hk2 : p2 !! k = p1 !! k)
      by apply (Hkeepk load (or_introl eq_refl) _ _ Hp2).
    assert (Hk3 : p3 !! k = p2 !! k).
    { destruct (py_truthy memory); [|by simplify_eq].
      by eapply memory_update_lookup. }
    assert (Hk4 : p' !! k
                 = (if py_truthy ioStats then <["ioStats" := ioStats]> p3 else p3)
                     !! k).
    { destruct (py_truthy cpuStats).
      - rewrite (Hkeepk cpuStats (or_intror eq_refl) _ _ H).
        by rewrite lookup_insert_ne.
      - simplify_eq. by rewrite lookup_insert_ne. }
    rewrite Hk4, <- Hk2, <- Hk3.
    destruct (py_truthy ioStats); [by rewrite lookup_insert_ne|done]. }
  by rewrite !Hk by auto.
Qed.

Lemma disk_usage_needs_two_items_witness :
  (Cases.disk_payload [VStr "sda1 90%"; VStr "sda1 10%"] !! "diskUsage",
   Cases.disk_payload [VStr "sda1 90%"; VStr "sda1 10%"] !! "inodes")
    = (Some (VStr "sda1 90%"), Some (VStr "sda1 10%")) ∧
  (Cases.disk_payload [VStr "sda1 90%"] !! "diskUsage",
   Cases.disk_payload [VStr "sda1 90%"] !! "inodes")
    = ((∅ : gmap string value) !! "diskUsage", (∅ : gmap string value) !! "inodes").
Proof.
  assert (Hkeep : ∀ l v,
    u_load (Cases.unix_with_disk l) 1%nat = Ok v ∨
    u_cpu (Cases.unix_with_disk l) 1%nat = Ok v →
    keeps "diskUsage" v ∧ keeps "inodes" v).
  { intros l v [H|H]; cbn in H; injection H as <-;
      split; intros p p' Hp; cbn [py_update] in Hp; try discriminate Hp;
      injection Hp as <-; by rewrite (left_id_L ∅ (∪)). }
  split.
  - apply (disk_usage_needs_two_items 1
             (Cases.unix_with_disk [VStr "sda1 90%"; VStr "sda1 10%"]) ∅
             (Cases.disk_payload [VStr "sda1 90%"; VStr "sda1 10%"])
             [VStr "sda1 90%"; VStr "sda1 10%"]);
      [reflexivity | apply Hkeep | vm_compute; reflexivity].
  - apply (disk_usage_needs_two_items 1
             (Cases.unix_with_disk [VStr "sda1 90%"]) ∅
             (Cases.disk_payload [VStr "sda1 90%"]) [VStr "sda1 90%"]);
      [reflexivity | apply Hkeep | vm_compute; reflexivity].
Defined.

(** * The agent's own metrics *)

Lemma finish_run_agent_raises env L statuses w e :
  (∀ k p d em c, _agent_metrics (self w) k p d em c ≫= py_iter = Raise e) →
  finish_run env L statuses w = (Raise e, (interrupt env DuringAgentMetrics w).2).
Proof.
  intros Hagent. unfold finish_run. rewrite bind_unfold. unfold interrupt.
  cbn [snd].
  set (w1 := if stop_signal env DuringAgentMetrics then stop w else w).
  assert (_agent_metrics (self w1) = _agent_metrics (self w)) as Hsame.
  { unfold w1. by destruct (stop_signal env DuringAgentMetrics), w as [[] ? ? ? ?]. }
  rewrite bind_unfold. cbn [get_self]. rewrite bind_unfold. unfold lift at 1.
  by rewrite Hsame, Hagent.
Qed.

(** X24: the agent's own metrics check runs outside every [try].  When it
    raises, or returns something [extend] cannot iterate, no cycle of the
    collector completes: a call of [run] that gets through the checks ends
    in that exception, after all checks ran and before any emitter is
    called or any status is persisted. *)
Theorem agent_metrics_failure_aborts_the_cycle env cd se w e :
  (∀ k p d em c, _agent_metrics (self w) k p d em c ≫= py_iter = Raise e) →
  (∀ p, (run env cd se w).1 ≠ Ok (Completed p)) ∧
  (∀ n L0 w1 L1 w2 L2 statuses w3,
     begin_run env cd se w = (Ok (n, L0), w1) →
     collect n L0 w1 = (Ok L1, w2) →
     checks_d env n L1 w2 = (Ok (Done (L2, statuses)), w3) →
     (run env cd se w).1 = Raise e) ∧
  sent (run env cd se w).2 = sent w ∧
  persisted (run env cd se w).2 = persisted w.
Proof.
  intros Hagent.
  assert (Hfinish : ∀ n L0 w1 L1 w2 L2 statuses w3,
     begin_run env cd se w = (Ok (n, L0), w1) →
     collect n L0 w1 = (Ok L1, w2) →
     checks_d env n L1 w2 = (Ok (Done (L2, statuses)), w3) →
     (run env cd se w).1 = Raise e).
  { intros n L0 w1 L1 w2 L2 sts w3 Hb Hc Hd.
    unfold run. rewrite bind_unfold, Hb, bind_unfold, Hc, bind_unfold, Hd.
    rewrite (finish_run_agent_raises env L2 sts w3 e); [done|].
    apply frame_begin_run in Hb as (_&_&_&_&_&_&_&_&_&Hb&_).
    apply frame_collect in Hc as (_&_&_&_&_&_&_&_&_&Hc&_).
    apply frame_checks_d in Hd as (_&_&_&_&_&_&_&_&_&Hd&_).
    intros. by rewrite Hd, Hc, Hb. }
  assert (Hnever : ∀ p, (run env cd se w).1 ≠ Ok (Completed p)).
  { intros p Hp. destruct (run env cd se w) as [r w'] eqn:Hrun. cbn in Hp. subst r.
    apply run_completed in Hrun as Hphases.
    destruct Hphases as (n & L0 & w1 & L1 & w2 & L2 & sts & w3 & Hb & Hc & Hd & _).
    by specialize (Hfinish _ _ _ _ _ _ _ _ Hb Hc Hd). }
  split; [done|]. split; [done|].
  destruct (run env cd se w) as [r w'] eqn:Hrun. cbn [fst snd] in *.
  by apply (run_quiet_unless_completed _ _ _ _ _ _ Hrun).
Qed.

Lemma agent_metrics_failure_aborts_the_cycle_witness :
  Cases.cycle_without_agent_metrics.1 = Raise (Failure "no psutil") ∧
  (∀ p, Cases.cycle_without_agent_metrics.1 ≠ Ok (Completed p)) ∧
  sent Cases.cycle_without_agent_metrics.2 = sent Cases.without_agent_metrics ∧
  persisted Cases.cycle_without_agent_metrics.2
    = persisted Cases.without_agent_metrics.
Proof.
  split; [vm_compute; reflexivity|].
  destruct (agent_metrics_failure_aborts_the_cycle Scenario.calm
              (Some Scenario.no_checks_d) true Cases.without_agent_metrics
              (Failure "no psutil")) as (Hnever & _ & Hsent & Hpersisted).
  { intros k p d em c. reflexivity. }
  split; [exact Hnever|]. split; [exact Hsent|exact Hpersisted].
Defined.

(** * Configuration keys the payload needs *)

Lemma get_metadata_config env w0 w :
  agentConfig (self w0) = agentConfig (self w) →
  (_get_metadata env w0).1 = (_get_metadata env w).1.
Proof.
  intros Hcfg. unfold _get_metadata. msimpl. rewrite Hcfg.
  destruct (EC2_get_metadata env); [|done].
  by destruct (get_hostname_noarg env).
Qed.

(** X25: [_build_payload] reads 'version' and 'api_key' of the
    configuration in every call, before anything else: without either key
    it raises KeyError and changes nothing.  'tags' is read only when the
    metadata is sent, and only after the new metadata was stored: without
    the key the call raises KeyError, but the metadata cache already holds
    the new metadata (and, past the first run, the interval has been
    restarted). *)
Theorem build_payload_needs_configuration_keys env se w :
  (agentConfig (self w) !! "version" = None ∨
   agentConfig (self w) !! "api_key" = None →
   _build_payload env se w = (Raise KeyError, w)) ∧
  (agentConfig (self w) !! "tags" = None →
   is_Some (agentConfig (self w) !! "version") →
   is_Some (agentConfig (self w) !! "api_key") →
   succeeds (get_hostname env) →
   succeeds (get_uuid env) →
   (se = true → succeeds (get_version env)) →
   sends_metadata (self w) env = true →
   succeeds (get_system_stats env) →
   succeeds (EC2_get_metadata env) →
   succeeds (get_hostname_noarg env) →
   ∃ w' meta,
     _build_payload env se w = (Raise KeyError, w') ∧
     (_get_metadata env w).1 = Ok meta ∧
     metadata_cache (self w') = meta ∧
     metadata_start (self w') =
       if _is_first_run (self w) then metadata_start (self w)
       else time_time_metadata env).
Proof.
  split.
  - intros Hmissing. unfold _build_payload. msimpl. unfold py_item.
    destruct (agentConfig (self w) !! "version"); [|done].
    by destruct Hmissing as [? | ->].
  - intros Htags [version Hversion] [api_key Hkey] [host Hhost] [uuid Huuid]
      Hget Hsends [stats Hstats] Hec2 Hname.
    destruct (get_metadata_total env w Hec2 Hname) as [meta Hmeta].
    unfold _build_payload. rewrite bind_unfold. cbn [get_self].
    rewrite bind_unfold. unfold lift at 1, py_item at 1. rewrite Hversion.
    rewrite bind_unfold. unfold lift at 1, py_item at 1. rewrite Hkey.
    rewrite bind_unfold. unfold lift at 1. rewrite Hhost.
    rewrite bind_unfold. unfold lift at 1. rewrite Huuid.
    rewrite bind_unfold.
    match goal with
    | |- context [match ?m w with _ => _ end] =>
        assert (∃ p1, m w = (Ok p1, w)) as [p1 ->]
    end.
    { destruct (se && _is_first_run (self w))%bool eqn:Hse; msimpl; [|by eauto].
      apply andb_true_iff in Hse as [-> _].
      destruct (Hget eq_refl) as [v ->]. by eauto. }
    rewrite bind_unfold. unfold sends_metadata in Hsends.
    destruct (_is_first_run (self w)) eqn:Hfirst; cbn [orb] in Hsends.
    + msimpl. rewrite Hstats, Hmeta. unfold py_item. rewrite Htags.
      eexists _, meta. split; [reflexivity|]. cbn.
      split; [done|]. split; by destruct (self w).
    + rewrite should_send_metadata_unfold, Hsends. msimpl. rewrite Hstats.
      match goal with
      | |- context [_get_metadata env ?w0] =>
          pose proof (get_metadata_config env w0 w) as Hcfg;
          destruct (get_metadata_total env w0 Hec2 Hname) as [meta0 Hmeta0]
      end.
      rewrite Hmeta0, Hmeta in Hcfg. cbn [fst self] in Hcfg.
      assert (meta0 = meta) as -> by (injection Hcfg; [done|by destruct (self w)]).
      rewrite Hmeta0. cbn. unfold py_item. rewrite Htags.
      eexists _, meta. split; [reflexivity|]. rewrite Hmeta. cbn.
      split; [done|]. split; by destruct (self w).
Qed.

Lemma build_payload_needs_configuration_keys_witness :
  _build_payload Scenario.calm true Scenario.idle = (Raise KeyError, Scenario.idle) ∧
  agentConfig (self Cases.untagged) !! "tags" = None ∧
  metadata_cache (self Cases.untagged) = VNone ∧
  ∃ w' meta,
    _build_payload Scenario.calm true Cases.untagged = (Raise KeyError, w') ∧
    (_get_metadata Scenario.calm Cases.untagged).1 = Ok meta ∧
    metadata_cache (self w') = meta ∧
    metadata_start (self w') =
      if _is_first_run (self Cases.untagged)
      then metadata_start (self Cases.untagged)
      else time_time_metadata Scenario.calm.
Proof.
  split.
  - apply (build_payload_needs_configuration_keys Scenario.calm true Scenario.idle).
    left. reflexivity.
  - split; [vm_compute; reflexivity|]. split; [vm_compute; reflexivity|].
    apply (build_payload_needs_configuration_keys Scenario.calm true Cases.untagged).
    + vm_compute. reflexivity.
    + vm_compute. eauto.
    + vm_compute. eauto.
    + eexists. reflexivity.
    + eexists. reflexivity.
    + intros _. eexists. reflexivity.
    + vm_compute. reflexivity.
    + eexists. reflexivity.
    + eexists. reflexivity.
    + eexists. reflexivity.
Defined.
